(** * Verification model of the news-app job execution engine (package jobrunner)

    Shallow embedding of the Go sources of the job runner:
    - jobrunner/discord.go     : SendDiscordNotification
    - jobrunner/content.go     : FetchArticleContent
    - runner.go (part_005)     : Run, Resume, executeJob, pollForCompletion,
                                 processArticles, fetchArticleContents,
                                 insertArticle, finalizeRun, sendNotification,
                                 ExtractArticlesJSON, extractJSONArray,
                                 fixMalformedJSON
    External behaviour (HTTP servers, the agent service, the database
    engine, the Go JSON decoder) is passed in explicitly or modelled by
    a definition of its documented semantics. *)

From Stdlib Require Import String Ascii ZArith List Bool Lia.
From Stdlib Require Import Numbers.DecimalString.
Import ListNotations.
Open Scope Z_scope.
Open Scope string_scope.
Set Warnings "-register-all -abstract-large-number".

(* ------------------------------------------------------------------ *)
(** ** Go strings and formatting helpers *)

Definition bytes := list ascii.

(** decimal rendering used by fmt's %d verb *)
Definition fmt_d (x : Z) : string := NilEmpty.string_of_int (Z.to_int x).

(* ------------------------------------------------------------------ *)
(** ** jobrunner/discord.go *)

Module Discord.

Definition discordMaxRetries : nat := 3.
Definition discordRetryDelay : Z := 2000. (* milliseconds: 2 * time.Second *)

(** Outcome of one [http.DefaultClient.Do(req)] call. *)
Inductive post_result :=
| PostTransportError (e : string)
| PostStatus (code : Z).

(** Errors [SendDiscordNotification] can return. *)
Inductive notify_error :=
| ErrNewRequest                (* http.NewRequest failed on the URL *)
| ErrTransport (e : string)    (* the error of http.DefaultClient.Do *)
| ErrStatus (code : Z).        (* "discord webhook failed with status %d" *)

(** The HTTP environment: whether the URL makes a request, and the
    result of the POST made at attempt number [n]. *)
Record http_env := {
  new_request_ok : string -> bool;
  post : nat -> post_result
}.

(** What one call does: returned error (None = nil), number of POSTs
    made, and the delays slept, in order. *)
Record send_outcome := {
  so_err : option notify_error;
  so_posts : nat;
  so_sleeps : list Z
}.

Definition posted (d : Z) (o : send_outcome) : send_outcome :=
  {| so_err := so_err o; so_posts := S (so_posts o);
     so_sleeps := d :: so_sleeps o |}.

Definition stop (e : option notify_error) (nposts : nat) : send_outcome :=
  {| so_err := e; so_posts := nposts; so_sleeps := [] |}.

(** [for attempt := 1; attempt <= discordMaxRetries; attempt++ { ... }];
    [fuel] bounds the iterations (the loop condition is checked as in Go). *)
Fixpoint send_loop (env : http_env) (url : string) (fuel attempt : nat)
    (retryDelay : Z) : send_outcome :=
  match fuel with
  | O => stop None 0
  | S fuel' =>
    if Nat.leb attempt discordMaxRetries then
      if negb (new_request_ok env url) then stop (Some ErrNewRequest) 0
      else
        match post env attempt with
        | PostTransportError e =>
            if Nat.ltb attempt discordMaxRetries then
              posted retryDelay
                (send_loop env url fuel' (S attempt) (retryDelay * 2))
            else stop (Some (ErrTransport e)) 1
        | PostStatus code =>
            if Z.eqb code 200 || Z.eqb code 204 then stop None 1
            else if Z.eqb code 429 then
              posted retryDelay
                (send_loop env url fuel' (S attempt) (retryDelay * 2))
            else if Nat.ltb attempt discordMaxRetries then
              posted retryDelay
                (send_loop env url fuel' (S attempt) (retryDelay * 2))
            else stop (Some (ErrStatus code)) 1
        end
    else stop None 0
  end.

Definition SendDiscordNotification (env : http_env) (webhookURL message : string)
    : send_outcome :=
  if String.eqb webhookURL "" then stop None 0
  else send_loop env webhookURL discordMaxRetries 1 discordRetryDelay.

(** A POST outcome that is neither success (200/204) nor rate limiting (429). *)
Definition hard_failure (r : post_result) : Prop :=
  match r with
  | PostTransportError _ => True
  | PostStatus c => c <> 200 /\ c <> 204 /\ c <> 429
  end.

Definition error_of (r : post_result) : option notify_error :=
  match r with
  | PostTransportError e => Some (ErrTransport e)
  | PostStatus c => Some (ErrStatus c)
  end.

(** Environment whose every POST gets the same status. *)
Definition constant_status_env (ok : string -> bool) (c : Z) : http_env :=
  {| new_request_ok := ok; post := fun _ => PostStatus c |}.

End Discord.

(* ------------------------------------------------------------------ *)
(** ** ArticleInfo (runner.go) *)

(** [type ArticleInfo struct { Title, URL, Summary string }] *)
Record ArticleInfo := {
  Title : string;
  URL : string;
  Summary : string
}.

(* ------------------------------------------------------------------ *)
(** ** jobrunner/content.go *)

Module Content.

(** Outcome of building and sending the GET request for a URL. *)
Inductive fetch_response :=
| FrRequestError (e : string)          (* http.NewRequestWithContext failed *)
| FrTransportError (e : string)        (* client.Do failed (incl. the 20s timeout) *)
| FrResponse (status : Z) (body : bytes).

(** The world seen by the fetcher: the HTTP answer per URL, and the
    library functions it calls: go-readability's [FromReader] (an error
    message, or the article's TextContent) and Go's [strings.TrimSpace]. *)
Record fetch_env := {
  fetch : string -> fetch_response;
  readability : bytes -> string + string;
  trim_space : string -> string
}.

Definition maxBody : nat := 5 * 1024 * 1024.

(** [regexp.ReplaceAllString] for the patterns [ch{k,}]: every maximal run
    of at least [k] characters [ch] is replaced by [rep]. *)
Fixpoint collapse_runs (ch : ascii) (k : nat) (rep : bytes) (run : nat)
    (s : bytes) : bytes :=
  let flush := if Nat.leb k run then rep else repeat ch run in
  match s with
  | [] => flush
  | c :: t =>
      if Ascii.eqb c ch then collapse_runs ch k rep (S run) t
      else (flush ++ c :: collapse_runs ch k rep 0 t)%list
  end.

Definition nl : ascii := Ascii.ascii_of_nat 10.

(** [excessiveNewlines = `\n{3,}`] replaced by "\n\n",
    [excessiveSpaces = ` {2,}`] replaced by " ". *)
Definition excessiveNewlines (s : string) : string :=
  string_of_list_ascii (collapse_runs nl 3 [nl; nl] 0 (list_ascii_of_string s)).
Definition excessiveSpaces (s : string) : string :=
  string_of_list_ascii (collapse_runs " "%char 2 [" "%char] 0 (list_ascii_of_string s)).

(** [FetchArticleContent(ctx, url) (string, error)]: [inl err] is the
    returned error (its message), [inr content] the content. *)
Definition FetchArticleContent (env : fetch_env) (url : string) : string + string :=
  if String.eqb url "" then inr "(No URL provided)"
  else
    match fetch env url with
    | FrRequestError e => inl ("create request: " ++ e)
    | FrTransportError e => inl ("fetch URL: " ++ e)
    | FrResponse status body =>
        if negb (Z.eqb status 200) then inl ("HTTP " ++ fmt_d status)
        else
          match readability env (firstn maxBody body) with
          | inl e => inl ("parse content: " ++ e)
          | inr content =>
              if String.eqb content "" then
                inr "[Content could not be extracted from this page]"
              else inr (trim_space env (excessiveSpaces (excessiveNewlines content)))
          end
    end.

(** The content stored at one index by [fetchArticleContents]. *)
Definition content_for (env : fetch_env) (info : ArticleInfo) : string :=
  if String.eqb (URL info) "" then "(No URL provided)"
  else
    match FetchArticleContent env (URL info) with
    | inl err => "[Error fetching article: " ++ err ++ "]"
    | inr content => content
    end.

(** [fetchArticleContents]: one goroutine per non-empty URL, at most
    [MaxParallel] in flight, each writing only [contents[idx]] for its own
    index, joined by [wg.Wait()].  As the writes go to distinct indices,
    the joined slice is the index-wise map below, whatever the schedule. *)
Definition fetchArticleContents (env : fetch_env) (articles : list ArticleInfo)
    : list string :=
  map (content_for env) articles.

End Content.

(* ------------------------------------------------------------------ *)
(** ** JSON extraction and repair (runner.go: extractJSONArray,
       fixMalformedJSON) over Go byte strings *)

Module Json.

Definition ch (n : nat) : ascii := Ascii.ascii_of_nat n.

Definition quote : ascii := ch 34.
Definition backslash : ascii := "\"%char.
Definition backtick : ascii := "`"%char.
Definition bracket_open : ascii := "[".
Definition bracket_close : ascii := "]".

(** [strings.TrimLeft(x, " \t\n\r")]'s cut set, which is also JSON's
    whitespace. *)
Definition is_trim_ws (c : ascii) : bool :=
  Ascii.eqb c " " || Ascii.eqb c (ch 9) || Ascii.eqb c (ch 10) || Ascii.eqb c (ch 13).

Fixpoint trim_left_ws (s : bytes) : bytes :=
  match s with
  | c :: t => if is_trim_ws c then trim_left_ws t else s
  | [] => []
  end.

(** [rest == "" || rest[0] == ',' || rest[0] == '}' || rest[0] == ']' || rest[0] == ':'] *)
Definition looks_like_end (rest : bytes) : bool :=
  match rest with
  | [] => true
  | r :: _ => Ascii.eqb r "," || Ascii.eqb r "}" || Ascii.eqb r "]" || Ascii.eqb r ":"
  end.

(** The body of [fixMalformedJSON]'s loop, from byte [i] on: [s] is
    [s[i:]], [inString] and [escapeNext] the loop's two flags.  For a
    quote met inside a string, [rest] is [s[i+1:min(i+20, len(s))]] with
    leading blanks trimmed, i.e. the next 19 bytes. *)
Fixpoint fix_loop (inString escapeNext : bool) (s : bytes) : bytes :=
  match s with
  | [] => []
  | c :: t =>
    if escapeNext then c :: fix_loop inString false t
    else if Ascii.eqb c backslash then c :: fix_loop inString true t
    else if Ascii.eqb c quote then
      if negb inString then c :: fix_loop true false t
      else
        let rest := trim_left_ws (firstn 19 t) in
        if looks_like_end rest then c :: fix_loop false false t
        else backslash :: quote :: fix_loop inString false t
    else c :: fix_loop inString escapeNext t
  end.

Definition fixMalformedJSON (s : bytes) : bytes := fix_loop false false s.

(** Test inputs are written with [ ' ] standing for a double quote. *)
Definition jq (s : string) : bytes :=
  map (fun c => if Ascii.eqb c "'" then quote else c) (list_ascii_of_string s).

(** Go's regexp class [\s] is [[\t\n\f\r ]]. *)
Definition is_re_space (c : ascii) : bool :=
  Ascii.eqb c " " || Ascii.eqb c (ch 9) || Ascii.eqb c (ch 10)
  || Ascii.eqb c (ch 12) || Ascii.eqb c (ch 13).

Fixpoint re_spaces_len (s : bytes) : nat :=
  match s with
  | c :: t => if is_re_space c then S (re_spaces_len t) else O
  | [] => O
  end.

Fixpoint has_prefix (p s : bytes) : bool :=
  match p, s with
  | [], _ => true
  | a :: p', b :: s' => Ascii.eqb a b && has_prefix p' s'
  | _ :: _, [] => false
  end.

Definition fence : bytes := list_ascii_of_string "```".
Definition json_word : bytes := list_ascii_of_string "json".

(** Length of the match of [\s*```(?:json)?\s*] at the start of [s]
    (greedy quantifiers, leftmost-first; no backtracking can change the
    result since [`] is not a space and the tail [\s*] always matches). *)
Definition fence_match_len (s : bytes) : option nat :=
  let n1 := re_spaces_len s in
  let s1 := skipn n1 s in
  if has_prefix fence s1 then
    let s2 := skipn 3 s1 in
    let n2 := if has_prefix json_word s2 then 4%nat else 0%nat in
    let n3 := re_spaces_len (skipn n2 s2) in
    Some (n1 + 3 + n2 + n3)%nat
  else None.

(** [codeBlockStart.ReplaceAllString(text, "")] with
    [codeBlockStart = (?m)^\s*```(?:json)?\s*]: scanning left to right,
    a match may start where [^] holds ([bol]: start of text or after a
    newline); the matched bytes are dropped ([skip] counts those still to
    drop), and the scan resumes after the match. *)
Fixpoint strip_block_start (skip : nat) (bol : bool) (s : bytes) : bytes :=
  match s with
  | [] => []
  | c :: t =>
    let bol' := Ascii.eqb c (ch 10) in
    match skip with
    | S k => strip_block_start k bol' t
    | O =>
      match (if bol then fence_match_len s else None) with
      | Some (S k) => strip_block_start k bol' t
      | _ => c :: strip_block_start O bol' t
      end
    end
  end.

(** [codeBlockEnd.ReplaceAllString(text, "")] with
    [codeBlockEnd = (?m)\s*```\s*] (no anchor). *)
Definition end_match_len (s : bytes) : option nat :=
  let n1 := re_spaces_len s in
  let s1 := skipn n1 s in
  if has_prefix fence s1 then Some (n1 + 3 + re_spaces_len (skipn 3 s1))%nat
  else None.

Fixpoint strip_block_end (skip : nat) (s : bytes) : bytes :=
  match s with
  | [] => []
  | c :: t =>
    match skip with
    | S k => strip_block_end k t
    | O =>
      match end_match_len s with
      | Some (S k) => strip_block_end k t
      | _ => c :: strip_block_end O t
      end
    end
  end.

(** [strings.TrimSpace] on the ASCII white space [\t \n \v \f \r] and
    space.  (Go also trims the multi-byte Unicode spaces; their UTF-8
    bytes are all >= 0x80, so they never hold [[] or []] and the array
    located below is the same.) *)
Definition is_go_space (c : ascii) : bool :=
  let n := nat_of_ascii c in (Nat.leb 9 n && Nat.leb n 13) || Nat.eqb n 32.

Fixpoint drop_spaces (s : bytes) : bytes :=
  match s with
  | c :: t => if is_go_space c then drop_spaces t else s
  | [] => []
  end.

Definition TrimSpace (s : bytes) : bytes := rev (drop_spaces (rev (drop_spaces s))).

Fixpoint drop_until (x : ascii) (s : bytes) : bytes :=
  match s with
  | c :: t => if Ascii.eqb c x then s else drop_until x t
  | [] => []
  end.

(** [jsonArrayRegex.FindString] with [(?s)\[.*\]]: the leftmost match
    starts at the first [[]; greedy [.*] extends it to the last []]
    after it.  [None] is the empty result (no match). *)
Definition find_json_array (s : bytes) : option bytes :=
  match drop_until "[" s with
  | [] => None
  | s1 =>
    match drop_until "]" (rev s1) with
    | [] => None
    | r => Some (rev r)
    end
  end.

(** [extractJSONArray]: [None] is "no JSON array found in response". *)
Definition extractJSONArray (text : bytes) : option bytes :=
  let text := strip_block_start 0 true text in
  let text := strip_block_end 0 text in
  let text := TrimSpace text in
  find_json_array text.

End Json.

(* ------------------------------------------------------------------ *)
(** ** encoding/json: [json.Unmarshal(data, &articles)] with
       [articles []ArticleInfo] *)

Module GoJson.
Import Json.

(** JSON values as the decoder reads them (numbers kept as their text). *)
Inductive jvalue :=
| JNull
| JBool (b : bool)
| JNumber (raw : bytes)
| JString (s : bytes)
| JArray (l : list jvalue)
| JObject (l : list (bytes * jvalue)).

Definition is_digit (c : ascii) : bool :=
  let n := nat_of_ascii c in Nat.leb 48 n && Nat.leb n 57.

Definition hex_val (c : ascii) : option nat :=
  let n := nat_of_ascii c in
  if Nat.leb 48 n && Nat.leb n 57 then Some (n - 48)%nat
  else if Nat.leb 97 n && Nat.leb n 102 then Some (n - 87)%nat
  else if Nat.leb 65 n && Nat.leb n 70 then Some (n - 55)%nat
  else None.

(** [getu4]: the four hex digits after [\u]. *)
Definition getu4 (s : bytes) : option nat :=
  match s with
  | a :: b :: c :: d :: _ =>
    match hex_val a, hex_val b, hex_val c, hex_val d with
    | Some x, Some y, Some z, Some w => Some (((x * 16 + y) * 16 + z) * 16 + w)%nat
    | _, _, _, _ => None
    end
  | _ => None
  end.

(** [utf8.EncodeRune] for a valid scalar value. *)
Definition utf8_encode (r : nat) : bytes :=
  if Nat.ltb r 128 then [ch r]
  else if Nat.ltb r 2048 then [ch (192 + r / 64); ch (128 + r mod 64)]
  else if Nat.ltb r 65536 then
    [ch (224 + r / 4096); ch (128 + (r / 64) mod 64); ch (128 + r mod 64)]
  else [ch (240 + r / 262144); ch (128 + (r / 4096) mod 64);
        ch (128 + (r / 64) mod 64); ch (128 + r mod 64)].

Definition replacement_char : bytes := utf8_encode 65533.

Definition in_range (lo hi : nat) (c : ascii) : bool :=
  Nat.leb lo (nat_of_ascii c) && Nat.leb (nat_of_ascii c) hi.

(** [utf8.DecodeRune]'s size for a valid encoding starting at [s], or 0
    when it decodes to [RuneError] with size 1 (invalid). *)
Definition utf8_valid_len (s : bytes) : nat :=
  match s with
  | [] => 0
  | c :: t =>
    let n := nat_of_ascii c in
    let cont := in_range 128 191 in
    if Nat.ltb n 128 then 1
    else if in_range 194 223 c then
      match t with b1 :: _ => if cont b1 then 2 else 0 | _ => 0 end
    else if in_range 224 239 c then
      let lo := if Nat.eqb n 224 then 160 else 128 in
      let hi := if Nat.eqb n 237 then 159 else 191 in
      match t with
      | b1 :: b2 :: _ => if in_range lo hi b1 && cont b2 then 3 else 0
      | _ => 0
      end
    else if in_range 240 244 c then
      let lo := if Nat.eqb n 240 then 144 else 128 in
      let hi := if Nat.eqb n 244 then 143 else 191 in
      match t with
      | b1 :: b2 :: b3 :: _ => if in_range lo hi b1 && cont b2 && cont b3 then 4 else 0
      | _ => 0
      end
    else 0
  end%nat.

Definition is_surrogate (r : nat) : bool := Nat.leb 55296 r && Nat.leb r 57343.

(** The body of a string literal after its opening quote: decoded bytes
    (as Go's [unquote]) and the input after the closing quote.  Raw
    bytes below 0x20 are a syntax error; invalid UTF-8 and unpaired
    surrogates decode to U+FFFD. *)
Fixpoint parse_string_body (fuel : nat) (s : bytes) : option (bytes * bytes) :=
  match fuel with
  | O => None
  | S f =>
    match s with
    | [] => None
    | c :: t =>
      if Ascii.eqb c quote then Some ([], t)
      else if Ascii.eqb c backslash then
        match t with
        | [] => None
        | e :: t' =>
          let simple b := match parse_string_body f t' with
                          | Some (d, r) => Some (b :: d, r) | None => None end in
          if Ascii.eqb e quote then simple quote
          else if Ascii.eqb e backslash then simple backslash
          else if Ascii.eqb e "/" then simple "/"%char
          else if Ascii.eqb e "b" then simple (ch 8)
          else if Ascii.eqb e "f" then simple (ch 12)
          else if Ascii.eqb e "n" then simple (ch 10)
          else if Ascii.eqb e "r" then simple (ch 13)
          else if Ascii.eqb e "t" then simple (ch 9)
          else if Ascii.eqb e "u" then
            match getu4 t' with
            | None => None
            | Some r =>
              let after := skipn 4 t' in
              let emit out rest := match parse_string_body f rest with
                                   | Some (d, r') => Some (out ++ d, r')%list
                                   | None => None end in
              if is_surrogate r then
                match after with
                | b :: u :: t2 =>
                  if Ascii.eqb b backslash && Ascii.eqb u "u" then
                    match getu4 t2 with
                    | Some r2 =>
                      if Nat.leb 55296 r && Nat.ltb r 56320
                         && Nat.leb 56320 r2 && Nat.leb r2 57343 then
                        emit (utf8_encode (65536 + (r - 55296) * 1024 + (r2 - 56320)))
                             (skipn 4 t2)
                      else emit replacement_char after
                    | None => emit replacement_char after
                    end
                  else emit replacement_char after
                | _ => emit replacement_char after
                end
              else emit (utf8_encode r) after
            end
          else None
        end
      else if Nat.ltb (nat_of_ascii c) 32 then None
      else if Nat.ltb (nat_of_ascii c) 128 then
        match parse_string_body f t with
        | Some (d, r) => Some (c :: d, r) | None => None end
      else
        match utf8_valid_len s with
        | O => match parse_string_body f t with
               | Some (d, r) => Some (replacement_char ++ d, r)%list
               | None => None end
        | n => match parse_string_body f (skipn n s) with
               | Some (d, r) => Some (firstn n s ++ d, r)%list
               | None => None end
        end
    end
  end.

Fixpoint span_digits (s : bytes) : bytes * bytes :=
  match s with
  | c :: t => if is_digit c then let (d, r) := span_digits t in (c :: d, r) else ([], s)
  | [] => ([], [])
  end.

(** A number: an optional minus, then 0 or a non-zero digit followed by
    digits, an optional fraction (a dot and digits) and an optional
    exponent (e or E, an optional sign, digits). *)
Definition parse_number (s : bytes) : option (bytes * bytes) :=
  let (sign, s1) := match s with
                    | c :: t => if Ascii.eqb c "-" then ([c], t) else ([], s)
                    | [] => ([], s) end in
  let int_part :=
    match s1 with
    | c :: t => if Ascii.eqb c "0" then Some ([c], t)
                else if is_digit c then let (d, r) := span_digits t in Some (c :: d, r)
                else None
    | [] => None
    end in
  match int_part with
  | None => None
  | Some (ip, s2) =>
    let frac := match s2 with
                | c :: t => if Ascii.eqb c "." then
                              match span_digits t with
                              | ([], _) => None
                              | (d, r) => Some (c :: d, r)
                              end
                            else Some ([], s2)
                | [] => Some ([], s2)
                end in
    match frac with
    | None => None
    | Some (fp, s3) =>
      let exp := match s3 with
                 | c :: t => if Ascii.eqb c "e" || Ascii.eqb c "E" then
                               let (sg, t') := match t with
                                               | d :: t'' => if Ascii.eqb d "+" || Ascii.eqb d "-"
                                                             then ([d], t'') else ([], t)
                                               | [] => ([], t) end in
                               match span_digits t' with
                               | ([], _) => None
                               | (ds, r) => Some (c :: sg ++ ds, r)%list
                               end
                             else Some ([], s3)
                 | [] => Some ([], s3)
                 end in
      match exp with
      | None => None
      | Some (ep, s4) => Some (sign ++ ip ++ fp ++ ep, s4)%list
      end
    end
  end.

Definition lit (w : string) : bytes := list_ascii_of_string w.

(** A value after optional white space; [fuel] bounds the nesting. *)
Fixpoint parse_value (fuel : nat) (s : bytes) : option (jvalue * bytes) :=
  match fuel with
  | O => None
  | S f =>
    match trim_left_ws s with
    | [] => None
    | (c :: t) as s' =>
      if Ascii.eqb c "[" then
        match trim_left_ws t with
        | c2 :: t2 => if Ascii.eqb c2 "]" then Some (JArray [], t2)
                      else parse_elements f [] t
        | [] => None
        end
      else if Ascii.eqb c "{" then
        match trim_left_ws t with
        | c2 :: t2 => if Ascii.eqb c2 "}" then Some (JObject [], t2)
                      else parse_members f [] t
        | [] => None
        end
      else if Ascii.eqb c quote then
        match parse_string_body (length t + 1) t with
        | Some (d, r) => Some (JString d, r)
        | None => None
        end
      else if has_prefix (lit "true") s' then Some (JBool true, skipn 4 s')
      else if has_prefix (lit "false") s' then Some (JBool false, skipn 5 s')
      else if has_prefix (lit "null") s' then Some (JNull, skipn 4 s')
      else match parse_number s' with
           | Some (raw, r) => Some (JNumber raw, r)
           | None => None
           end
    end
  end
(** array elements, [acc] reversed, until the closing bracket *)
with parse_elements (fuel : nat) (acc : list jvalue) (s : bytes)
    : option (jvalue * bytes) :=
  match fuel with
  | O => None
  | S f =>
    match parse_value f s with
    | None => None
    | Some (v, r) =>
      match trim_left_ws r with
      | c :: t => if Ascii.eqb c "," then parse_elements f (v :: acc) t
                  else if Ascii.eqb c "]" then Some (JArray (rev (v :: acc)), t)
                  else None
      | [] => None
      end
    end
  end
(** object members, [acc] reversed, until the closing brace *)
with parse_members (fuel : nat) (acc : list (bytes * jvalue)) (s : bytes)
    : option (jvalue * bytes) :=
  match fuel with
  | O => None
  | S f =>
    match trim_left_ws s with
    | c :: t =>
      if Ascii.eqb c quote then
        match parse_string_body (length t + 1) t with
        | None => None
        | Some (k, r) =>
          match trim_left_ws r with
          | c2 :: t2 =>
            if Ascii.eqb c2 ":" then
              match parse_value f t2 with
              | None => None
              | Some (v, r2) =>
                match trim_left_ws r2 with
                | c3 :: t3 => if Ascii.eqb c3 "," then parse_members f ((k, v) :: acc) t3
                              else if Ascii.eqb c3 "}" then Some (JObject (rev ((k, v) :: acc)), t3)
                              else None
                | [] => None
                end
              end
            else None
          | [] => None
          end
        end
      else None
    | [] => None
    end
  end.

(** [checkValid] and parse: one value and only white space after it. *)
Definition parse_json (s : bytes) : option jvalue :=
  match parse_value (length s + 1) s with
  | Some (v, r) => match trim_left_ws r with [] => Some v | _ => None end
  | None => None
  end.

Inductive json_error := SyntaxError | UnmarshalTypeError.

Definition lower (c : ascii) : ascii :=
  let n := nat_of_ascii c in if Nat.leb 65 n && Nat.leb n 90 then ch (n + 32) else c.

(** Field lookup: the exact tag name, else a case-insensitive match
    (ASCII folding; the special folds of U+017F and U+212A are left out). *)
Definition key_is (tag : string) (k : bytes) : bool :=
  String.eqb (string_of_list_ascii (map lower k)) tag.

Definition zero_info : ArticleInfo := {| Title := ""; URL := ""; Summary := "" |}.

(** Decoding one member value into the field it names: a JSON string
    sets it, null leaves it, any other value is a type error. *)
Definition set_field (info : ArticleInfo * bool) (m : bytes * jvalue) : ArticleInfo * bool :=
  let (a, err) := info in
  let (k, v) := m in
  let upd (g : string -> ArticleInfo) :=
    match v with
    | JString d => (g (string_of_list_ascii d), err)
    | JNull => (a, err)
    | _ => (a, true)
    end in
  if key_is "title" k then upd (fun x => {| Title := x; URL := URL a; Summary := Summary a |})
  else if key_is "url" k then upd (fun x => {| Title := Title a; URL := x; Summary := Summary a |})
  else if key_is "summary" k then upd (fun x => {| Title := Title a; URL := URL a; Summary := x |})
  else (a, err).

(** One array element into a fresh [ArticleInfo] (with type-error flag). *)
Definition decode_info (v : jvalue) : ArticleInfo * bool :=
  match v with
  | JObject ms => fold_left set_field ms (zero_info, false)
  | JNull => (zero_info, false)
  | _ => (zero_info, true)
  end.

(** [json.Unmarshal]: syntax check first, then decoding; a type error is
    reported after the whole value is decoded. *)
Definition Unmarshal (data : bytes) : json_error + list ArticleInfo :=
  match parse_json data with
  | None => inl SyntaxError
  | Some JNull => inr []
  | Some (JArray l) =>
    let ds := map decode_info l in
    if existsb snd ds then inl UnmarshalTypeError else inr (map fst ds)
  | Some _ => inl UnmarshalTypeError
  end.

End GoJson.

(* ------------------------------------------------------------------ *)
(** ** runner.go: ExtractArticlesJSON *)

Module Extract.
Import Json GoJson.

Inductive extract_error :=
| NoJSONArray                     (* "no JSON array found in response" *)
| ParseJSON (e : json_error).     (* "parse JSON: %w" *)

(** The first [Unmarshal] either succeeds or fails; on failure the
    repaired text is decoded.  (Go decodes the second time into the same
    slice; the first decode leaves elements behind only after a type
    error on syntactically valid JSON, on which the repair changes
    nothing, so the second decode fails again and the error is
    returned either way.) *)
Definition ExtractArticlesJSON (text : bytes) : extract_error + list ArticleInfo :=
  match extractJSONArray text with
  | None => inl NoJSONArray
  | Some jsonStr =>
    match Unmarshal jsonStr with
    | inr articles => inr articles
    | inl _ =>
      let fixed := fixMalformedJSON jsonStr in
      match Unmarshal fixed with
      | inr articles => inr articles
      | inl e => inl (ParseJSON e)
      end
    end
  end.

End Extract.

(* ------------------------------------------------------------------ *)
(** ** JSON texts (RFC 8259 grammar over bytes) *)

Module JsonGrammar.
Import Json GoJson.
Local Open Scope list_scope.

(** [ws = *( %x20 / %x09 / %x0A / %x0D )] *)
Inductive ws : bytes -> Prop :=
| ws_nil : ws []
| ws_cons (c : ascii) (w : bytes) : is_trim_ws c = true -> ws w -> ws (c :: w).

Definition is_hex (c : ascii) : bool :=
  match hex_val c with Some _ => true | None => false end.

(** One character of a string: an unescaped byte (not a quote, not a
    backslash, not a control byte), a two-byte escape or [\uXXXX]. *)
Inductive str_char : bytes -> Prop :=
| sc_plain (c : ascii) :
    c <> quote -> c <> backslash -> (32 <= nat_of_ascii c)%nat -> str_char [c]
| sc_escape (e : ascii) :
    In e [quote; backslash; "/"; "b"; "f"; "n"; "r"; "t"]%char ->
    str_char [backslash; e]
| sc_unicode (h1 h2 h3 h4 : ascii) :
    is_hex h1 = true -> is_hex h2 = true -> is_hex h3 = true -> is_hex h4 = true ->
    str_char [backslash; "u"; h1; h2; h3; h4]%char.

Inductive str_body : bytes -> Prop :=
| sb_nil : str_body []
| sb_cons (a b : bytes) : str_char a -> str_body b -> str_body (a ++ b).

Inductive digits1 : bytes -> Prop :=
| d_one (c : ascii) : is_digit c = true -> digits1 [c]
| d_cons (c : ascii) (d : bytes) : is_digit c = true -> digits1 d -> digits1 (c :: d).

(** [number = [ minus ] int [ frac ] [ exp ]] *)
Definition int_part (ip : bytes) : Prop :=
  ip = ["0"%char] \/
  exists c d, ip = c :: d /\ is_digit c = true /\ c <> "0"%char /\ (d = [] \/ digits1 d).
Definition frac_opt (fr : bytes) : Prop :=
  fr = [] \/ exists d, fr = "."%char :: d /\ digits1 d.
Definition exp_opt (ex : bytes) : Prop :=
  ex = [] \/
  exists e sg d, ex = e :: sg ++ d /\ (e = "e"%char \/ e = "E"%char) /\
                 (sg = [] \/ sg = ["+"%char] \/ sg = ["-"%char]) /\ digits1 d.

Inductive jnumber : bytes -> Prop :=
| num (sg ip fr ex : bytes) :
    (sg = [] \/ sg = ["-"%char]) -> int_part ip -> frac_opt fr -> exp_opt ex ->
    jnumber (sg ++ ip ++ fr ++ ex).

Definition comma : ascii := ",".
Definition colon : ascii := ":".
Definition brace_open : ascii := "{".
Definition brace_close : ascii := "}".

Inductive value : bytes -> Prop :=
| v_string (b : bytes) : str_body b -> value (quote :: b ++ [quote])
| v_number (n : bytes) : jnumber n -> value n
| v_true : value (lit "true")
| v_false : value (lit "false")
| v_null : value (lit "null")
| v_empty_array (w : bytes) : ws w -> value (bracket_open :: w ++ [bracket_close])
| v_array (es : bytes) : elements es -> value (bracket_open :: es ++ [bracket_close])
| v_empty_object (w : bytes) : ws w -> value (brace_open :: w ++ [brace_close])
| v_object (ms : bytes) : members ms -> value (brace_open :: ms ++ [brace_close])
(** a value with white space around it *)
with element : bytes -> Prop :=
| el (w1 v w2 : bytes) : ws w1 -> value v -> ws w2 -> element (w1 ++ v ++ w2)
with elements : bytes -> Prop :=
| els_one (e : bytes) : element e -> elements e
| els_more (e es : bytes) : element e -> elements es -> elements (e ++ comma :: es)
(** [ws string ws ":" element] *)
with member : bytes -> Prop :=
| mem (w1 b w2 e : bytes) :
    ws w1 -> str_body b -> ws w2 -> element e ->
    member (w1 ++ (quote :: b ++ [quote]) ++ w2 ++ colon :: e)
with members : bytes -> Prop :=
| mems_one (m : bytes) : member m -> members m
| mems_more (m ms : bytes) : member m -> members ms -> members (m ++ comma :: ms).

(** [JSON-text = ws value ws] *)
Definition json_text (s : bytes) : Prop := element s.

Scheme value_mut := Induction for value Sort Prop
with element_mut := Induction for element Sort Prop
with elements_mut := Induction for elements Sort Prop
with member_mut := Induction for member Sort Prop
with members_mut := Induction for members Sort Prop.
Combined Scheme json_mutind from value_mut, element_mut, elements_mut, member_mut, members_mut.

(** What may follow a complete value: nothing, or a comma, a brace, a
    bracket or a colon. *)
Definition terminator (c : ascii) : bool :=
  Ascii.eqb c comma || Ascii.eqb c brace_close || Ascii.eqb c bracket_close
  || Ascii.eqb c colon.

Definition follows_value (k : bytes) : Prop :=
  match k with [] => True | c :: _ => terminator c = true end.

(** ... possibly after white space *)
Definition follows_string (k : bytes) : Prop :=
  exists w r, ws w /\ k = w ++ r /\ follows_value r.

End JsonGrammar.

(* ------------------------------------------------------------------ *)
(** * The job runner and the rows it writes (jobrunner, part_005;
      queries, part_012) *)

Module Runner.
Import Content Json Extract.

(** Modelled from the spec: the status names of [util.StatusRunning],
    [util.StatusCompleted] and [util.StatusFailed] (the spec lists the
    run statuses running/completed/completed_no_new/failed/cancelled). *)
Definition StatusRunning : string := "running".
Definition StatusCompleted : string := "completed".
Definition StatusFailed : string := "failed".

(** Rows of the [jobs], [job_runs] and [articles] tables, with the
    columns the runner reads or writes; times are seconds. *)
Record Job := mkJob {
  job_ID : Z;
  job_UserID : Z;
  job_Name : string;
  job_Frequency : string;
  job_IsOneTime : Z;
  job_IsActive : Z;
  job_Status : string;
  job_LastRunAt : option Z;
  job_NextRunAt : option Z;
  job_CurrentConversationID : option string;
  job_UpdatedAt : Z
}.

Record JobRun := mkJobRun {
  run_ID : Z;
  run_JobID : Z;
  run_Status : string;
  run_ErrorMessage : option string;
  run_ArticlesSaved : option Z;
  run_DuplicatesSkipped : option Z;
  run_StartedAt : Z;
  run_CompletedAt : option Z;
  run_LogPath : string
}.

Record Article := mkArticle {
  art_JobID : Z;
  art_UserID : Z;
  art_Title : string;
  art_Url : string;
  art_Summary : string;
  art_ContentPath : string;
  art_RetrievedAt : Z
}.

Record Preference := mkPreference {
  pref_DiscordWebhook : string;
  pref_NotifySuccess : Z;
  pref_NotifyFailure : Z
}.

(** A missing preferences row ([sql.ErrNoRows]) leaves the zero value. *)
Definition zero_preference : Preference := mkPreference "" 0 0.

(** The store; [db_now] is the clock read by [CURRENT_TIMESTAMP] and
    [time.Now()]. *)
Record DB := mkDB {
  db_jobs : list Job;
  db_job_runs : list JobRun;
  db_articles : list Article;
  db_preferences : list (Z * Preference);
  db_now : Z
}.

(** What a run can change: the store, whether the context has been
    cancelled, and the Discord messages handed to
    [SendDiscordNotification] (webhook, message). *)
Record World := mkWorld {
  w_db : DB;
  w_ctx_err : bool;
  w_sent : list (string * string)
}.

Definition set_db (w : World) (d : DB) : World := mkWorld d (w_ctx_err w) (w_sent w).

Definition set_jobs (d : DB) (js : list Job) : DB :=
  mkDB js (db_job_runs d) (db_articles d) (db_preferences d) (db_now d).
Definition set_job_runs (d : DB) (rs : list JobRun) : DB :=
  mkDB (db_jobs d) rs (db_articles d) (db_preferences d) (db_now d).
Definition set_articles (d : DB) (arts : list Article) : DB :=
  mkDB (db_jobs d) (db_job_runs d) arts (db_preferences d) (db_now d).

(** ** Queries *)

(** [SELECT * FROM jobs WHERE id = ?] *)
Definition GetJobByID (d : DB) (id : Z) : option Job :=
  find (fun j => Z.eqb (job_ID j) id) (db_jobs d).

Definition GetPreferences (d : DB) (userID : Z) : Preference :=
  match find (fun p => Z.eqb (fst p) userID) (db_preferences d) with
  | Some (_, p) => p
  | None => zero_preference
  end.

(** [SELECT ... FROM job_runs WHERE id=?] *)
Definition GetRun (d : DB) (id : Z) : option JobRun :=
  find (fun r => Z.eqb (run_ID r) id) (db_job_runs d).

(** [UPDATE jobs SET status = ?, last_run_at = ?, next_run_at = ?,
    updated_at = CURRENT_TIMESTAMP WHERE id = ?] *)
Definition UpdateJobStatus (d : DB) (id : Z) (status : string)
    (lastRunAt nextRunAt : option Z) : DB :=
  set_jobs d (map (fun j =>
    if Z.eqb (job_ID j) id then
      mkJob (job_ID j) (job_UserID j) (job_Name j) (job_Frequency j) (job_IsOneTime j)
        (job_IsActive j) status lastRunAt nextRunAt (job_CurrentConversationID j) (db_now d)
    else j) (db_jobs d)).

(** [UPDATE jobs SET current_conversation_id = ? WHERE id = ?] *)
Definition UpdateJobConversation (d : DB) (id : Z) (conv : option string) : DB :=
  set_jobs d (map (fun j =>
    if Z.eqb (job_ID j) id then
      mkJob (job_ID j) (job_UserID j) (job_Name j) (job_Frequency j) (job_IsOneTime j)
        (job_IsActive j) (job_Status j) (job_LastRunAt j) (job_NextRunAt j) conv
        (job_UpdatedAt j)
    else j) (db_jobs d)).

(** [UPDATE jobs SET is_active = 0, updated_at = CURRENT_TIMESTAMP WHERE id = ?] *)
Definition DeactivateJob (d : DB) (id : Z) : DB :=
  set_jobs d (map (fun j =>
    if Z.eqb (job_ID j) id then
      mkJob (job_ID j) (job_UserID j) (job_Name j) (job_Frequency j) (job_IsOneTime j)
        0 (job_Status j) (job_LastRunAt j) (job_NextRunAt j) (job_CurrentConversationID j)
        (db_now d)
    else j) (db_jobs d)).

(** The row id SQLite gives the next insert into [job_runs]. *)
Definition next_run_id (d : DB) : Z :=
  1 + fold_right (fun r m => Z.max (run_ID r) m) 0 (db_job_runs d).

(** [INSERT INTO job_runs (job_id, status, started_at)
    VALUES (?, 'running', CURRENT_TIMESTAMP) RETURNING *]; the other
    columns are left empty. *)
Definition CreateJobRun (d : DB) (jobID : Z) : JobRun * DB :=
  let r := mkJobRun (next_run_id d) jobID "running" None None None (db_now d) None "" in
  (r, set_job_runs d (db_job_runs d ++ [r])%list).

(** [UPDATE job_runs SET log_path = ? WHERE id = ?] *)
Definition UpdateJobRunLogPath (d : DB) (id : Z) (logPath : string) : DB :=
  set_job_runs d (map (fun r =>
    if Z.eqb (run_ID r) id then
      mkJobRun (run_ID r) (run_JobID r) (run_Status r) (run_ErrorMessage r)
        (run_ArticlesSaved r) (run_DuplicatesSkipped r) (run_StartedAt r)
        (run_CompletedAt r) logPath
    else r) (db_job_runs d)).

(** Modelled from the spec: [UpdateJobRunComplete], whose SQL is not in
    the repository, written like [CompleteJobRun]: [UPDATE job_runs SET
    status = ?, error_message = ?, articles_saved = ?, duplicates_skipped
    = ?, completed_at = CURRENT_TIMESTAMP WHERE id = ?]. *)
Definition UpdateJobRunComplete (d : DB) (id : Z) (status : string)
    (errorMessage : option string) (saved dups : option Z) : DB :=
  set_job_runs d (map (fun r =>
    if Z.eqb (run_ID r) id then
      mkJobRun (run_ID r) (run_JobID r) status errorMessage saved dups
        (run_StartedAt r) (Some (db_now d)) (run_LogPath r)
    else r) (db_job_runs d)).

(** Modelled from the spec: [CancelOrphanedRuns], whose SQL is not in the
    repository: every other run of the job still "running" is recorded
    as cancelled with a distinguishing message (the wording of the shell
    runner it replaces). *)
Definition CancelOrphanedRuns (d : DB) (jobID : Z) : DB :=
  set_job_runs d (map (fun r =>
    if Z.eqb (run_JobID r) jobID && String.eqb (run_Status r) "running" then
      mkJobRun (run_ID r) (run_JobID r) "cancelled" (Some "Cancelled: new run started")
        (run_ArticlesSaved r) (run_DuplicatesSkipped r) (run_StartedAt r)
        (Some (db_now d)) (run_LogPath r)
    else r) (db_job_runs d)).

Definition same_user_url (userID : Z) (url : string) (a : Article) : bool :=
  Z.eqb (art_UserID a) userID && String.eqb (art_Url a) url.

(** Modelled from the spec: [ArticleExistsByURL], whose SQL is not in the
    repository: the number of the user's articles with this URL. *)
Definition ArticleExistsByURL (d : DB) (userID : Z) (url : string) : Z :=
  Z.of_nat (length (filter (same_user_url userID url) (db_articles d))).

(** [INSERT INTO articles (...) VALUES (..., CURRENT_TIMESTAMP)]; the
    unique index [idx_articles_user_url ON articles(user_id, url) WHERE
    url != ''] of migration 004 refuses a second row for a (user,
    non-empty URL). *)
Definition CreateArticle (d : DB) (jobID userID : Z) (title url summary contentPath : string)
    : string + DB :=
  if negb (String.eqb url "") && existsb (same_user_url userID url) (db_articles d) then
    inl "UNIQUE constraint failed: articles.user_id, articles.url"
  else
    inr (set_articles d
           (db_articles d ++ [mkArticle jobID userID title url summary contentPath (db_now d)])%list).

(** ** Errors *)

Inductive run_error :=
| ErrRunNotFound                       (* "run not found: %w" *)
| ErrRunNotRunning (id : Z) (status : string)
| ErrJobNotFound                       (* "job not found: %w" *)
| ErrCreateArticlesDir (e : string)
| ErrCreateConversation (e : string)
| ErrCtxCanceled                       (* context.Canceled *)
| ErrTimedOut (timeout : Z)
| ErrExtract (e : extract_error).

(** [time.Duration.String] on a whole number of seconds. *)
Definition duration_string (secs : Z) : string :=
  let h := secs / 3600 in
  let m := (secs mod 3600) / 60 in
  let s := secs mod 60 in
  if Z.eqb secs 0 then "0s"
  else if Z.ltb 0 h then fmt_d h ++ "h" ++ fmt_d m ++ "m" ++ fmt_d s ++ "s"
  else if Z.ltb 0 m then fmt_d m ++ "m" ++ fmt_d s ++ "s"
  else fmt_d s ++ "s".

(** [err.Error()]; the decoder's own message after [parse JSON: ] is
    reduced to the kind of error. *)
Definition error_text (e : run_error) : string :=
  match e with
  | ErrRunNotFound => "run not found: sql: no rows in result set"
  | ErrRunNotRunning id st =>
      "run " ++ fmt_d id ++ " is not in running state (status: " ++ st ++ ")"
  | ErrJobNotFound => "job not found: sql: no rows in result set"
  | ErrCreateArticlesDir e => "create articles dir: " ++ e
  | ErrCreateConversation e => "create conversation: " ++ e
  | ErrCtxCanceled => "context canceled"
  | ErrTimedOut t => "job timed out after " ++ duration_string t
  | ErrExtract NoJSONArray => "failed to extract articles: no JSON array found in response"
  | ErrExtract (ParseJSON GoJson.SyntaxError) =>
      "failed to extract articles: parse JSON: invalid character"
  | ErrExtract (ParseJSON GoJson.UnmarshalTypeError) =>
      "failed to extract articles: parse JSON: json: cannot unmarshal"
  end.

(** ** The environment of a run *)

Record Conversation := mkConversation {
  conv_IsComplete : bool;
  conv_LastAgentText : bytes
}.

(** One round of the [select] in [pollForCompletion]: the context is
    done, the timeout fires, or the ticker fires and [GetConversation]
    fails ([None]) or answers. *)
Inductive poll_event :=
| EvCtxDone
| EvTimeout
| EvTick (r : option Conversation).

Record Env := mkEnv {
  env_JobTimeout : Z;
  env_mkdir : option string;                     (* os.MkdirAll error *)
  env_logs_mkdir_ok : bool;                      (* setupLogging's MkdirAll *)
  env_get_conversation : string -> option Conversation;
  env_create_conversation : string + string;     (* error or conversation id *)
  env_poll : list poll_event;
  env_fetch : fetch_env;
  env_write_ok : nat -> bool;                    (* os.Create of the i-th file *)
  env_timestamp : string                         (* time.Now().Format(...) *)
}.

Record JobResult := mkJobResult {
  ArticlesSaved : Z;
  DuplicatesSkipped : Z;
  ConversationID : string;
  Error : option run_error
}.

(** [util.CalculateNextRun] from [now]. *)
Definition CalculateNextRun (frequency : string) (isOneTime : bool) (now : Z) : Z :=
  if isOneTime then now + 10
  else if String.eqb frequency "hourly" then now + 3600
  else if String.eqb frequency "6hours" then now + 6 * 3600
  else if String.eqb frequency "daily" then now + 24 * 3600
  else if String.eqb frequency "weekly" then now + 7 * 24 * 3600
  else now + 24 * 3600.

(** ** The runner *)

Definition checkExistingConversation (env : Env) (job : Job) : string * bool :=
  match job_CurrentConversationID job with
  | None => ("", true)
  | Some convID =>
    if String.eqb convID "" then ("", true)
    else match env_get_conversation env convID with
         | None => ("", true)
         | Some conv => if conv_IsComplete conv then ("", true) else (convID, false)
         end
  end.

(** The [for]/[select] loop; once the scheduled rounds are used up the
    timeout is the channel that fires.  [DeleteConversation] only talks
    to the agent server.  A done context is recorded in the world. *)
Fixpoint pollForCompletion (env : Env) (evs : list poll_event) (w : World)
    : World * (run_error + Conversation) :=
  match evs with
  | [] => (w, inl (ErrTimedOut (env_JobTimeout env)))
  | EvCtxDone :: _ => (mkWorld (w_db w) true (w_sent w), inl ErrCtxCanceled)
  | EvTimeout :: _ => (w, inl (ErrTimedOut (env_JobTimeout env)))
  | EvTick None :: t => pollForCompletion env t w
  | EvTick (Some conv) :: t =>
    if conv_IsComplete conv then (w, inr conv) else pollForCompletion env t w
  end.

(** [insertArticle]: [None] is the error case. *)
Definition insertArticle (d : DB) (job : Job) (info : ArticleInfo) (contentPath : string)
    : DB * option bool :=
  if Z.ltb 0 (ArticleExistsByURL d (job_UserID job) (URL info)) then (d, Some false)
  else
    match CreateArticle d (job_ID job) (job_UserID job) (Title info) (URL info)
            (Summary info) contentPath with
    | inl _ => (d, None)
    | inr d' => (d', Some true)
    end.

Definition article_file (articlesDir : string) (i : nat) (timestamp : string) : string :=
  articlesDir ++ "/article_" ++ fmt_d (Z.of_nat i + 1) ++ "_" ++ timestamp ++ ".txt".

Fixpoint process_loop (env : Env) (job : Job) (articlesDir : string) (i : nat)
    (items : list (ArticleInfo * string)) (d : DB) (saved dups : Z) : DB * Z * Z :=
  match items with
  | [] => (d, saved, dups)
  | (info, _content) :: rest =>
    let articleFile := article_file articlesDir i (env_timestamp env) in
    if negb (env_write_ok env i) then process_loop env job articlesDir (S i) rest d saved dups
    else
      match insertArticle d job info articleFile with
      | (d', None) => process_loop env job articlesDir (S i) rest d' saved dups
      | (d', Some true) => process_loop env job articlesDir (S i) rest d' (saved + 1) dups
      | (d', Some false) => process_loop env job articlesDir (S i) rest d' saved (dups + 1)
      end
  end.

Definition processArticles (env : Env) (d : DB) (job : Job) (articles : list ArticleInfo)
    (articlesDir : string) : DB * Z * Z :=
  let contents := fetchArticleContents (env_fetch env) articles in
  process_loop env job articlesDir 0 (combine articles contents) d 0 0.

(** [archiveConversation] only talks to the agent server. *)
Definition executeJob (env : Env) (w : World) (job : Job) : World * JobResult :=
  let jobArticlesDir := "articles/job_" ++ fmt_d (job_ID job) in
  match env_mkdir env with
  | Some e => (w, mkJobResult 0 0 "" (Some (ErrCreateArticlesDir e)))
  | None =>
    let '(convID0, shouldCreate) := checkExistingConversation env job in
    let created :=
      if shouldCreate then env_create_conversation env else inr convID0 in
    match created with
    | inl e => (w, mkJobResult 0 0 "" (Some (ErrCreateConversation e)))
    | inr convID =>
      let w1 := set_db w (UpdateJobConversation (w_db w) (job_ID job) (Some convID)) in
      match pollForCompletion env (env_poll env) w1 with
      | (w2, inl e) => (w2, mkJobResult 0 0 convID (Some e))
      | (w2, inr conv) =>
        match ExtractArticlesJSON (conv_LastAgentText conv) with
        | inl e => (w2, mkJobResult 0 0 convID (Some (ErrExtract e)))
        | inr articles =>
          if (0 <? length articles)%nat then
            let '(d3, saved, dups) :=
              processArticles env (w_db w2) job articles jobArticlesDir in
            (set_db w2 d3, mkJobResult saved dups convID None)
          else (w2, mkJobResult 0 0 convID None)
        end
      end
    end
  end.

(** The emoji that open the Discord messages (cross mark, information sign, check mark), in UTF-8. *)
Definition utf8 (ns : list nat) : string := string_of_list_ascii (map ascii_of_nat ns).
Definition cross_mark : string := utf8 [226; 157; 140]%nat.
Definition info_mark : string := utf8 [226; 132; 185; 239; 184; 143]%nat.
Definition check_mark : string := utf8 [226; 156; 133]%nat.

Definition sendNotification (prefs : Preference) (jobName : string) (result : JobResult)
    (w : World) : World :=
  let send msg := mkWorld (w_db w) (w_ctx_err w)
                    (w_sent w ++ [(pref_DiscordWebhook prefs, msg)])%list in
  if String.eqb (pref_DiscordWebhook prefs) "" then w
  else
    match Error result with
    | Some e =>
      if Z.eqb (pref_NotifyFailure prefs) 0 then w
      else send (cross_mark ++ " News job '" ++ jobName ++ "' failed: " ++ error_text e)
    | None =>
      if Z.eqb (pref_NotifySuccess prefs) 0 then w
      else if Z.eqb (ArticlesSaved result) 0 then
        send (info_mark ++ " News job '" ++ jobName ++ "' completed - no new articles found")
      else
        send (check_mark ++ " News job '" ++ jobName ++ "' completed! (" ++
              fmt_d (ArticlesSaved result) ++ " new articles)")
    end.

Definition finalizeRun (w : World) (job : Job) (runID : Z) (result : JobResult)
    (prefs : Preference) : World :=
  match GetRun (w_db w) runID with
  | None => w
  | Some r =>
    if negb (String.eqb (run_Status r) "running") then w
    else
      let d := w_db w in
      let now := db_now d in
      let '(runStatus, errorMsg) :=
        match Error result with
        | Some e => (StatusFailed, error_text e)
        | None =>
          if Z.eqb (ArticlesSaved result) 0 then ("completed_no_new", "")
          else (StatusCompleted, "")
        end in
      let d1 := UpdateJobRunComplete d runID runStatus (Some errorMsg)
                  (Some (ArticlesSaved result)) (Some (DuplicatesSkipped result)) in
      let nextRunAt :=
        if Z.eqb (job_IsOneTime job) 0 && (match Error result with None => true | Some _ => false end)
        then Some (CalculateNextRun (job_Frequency job) false now)
        else None in
      let jobStatus :=
        match Error result with Some _ => StatusFailed | None => StatusCompleted end in
      let d2 := if Z.eqb (job_IsOneTime job) 1 then DeactivateJob d1 (job_ID job) else d1 in
      let d3 := UpdateJobStatus d2 (job_ID job) jobStatus (Some now) nextRunAt in
      let d4 := UpdateJobConversation d3 (job_ID job) (Some "") in
      sendNotification prefs (job_Name job) result (set_db w d4)
  end.

(** [setupLogging]: the log path is stored when the log directory exists. *)
Definition setupLogging (env : Env) (d : DB) (runID : Z) : DB :=
  if env_logs_mkdir_ok env then
    UpdateJobRunLogPath d runID
      ("logs/runs/run_" ++ fmt_d runID ++ "_" ++ env_timestamp env ++ ".log")
  else d.

(** [Run]; the start delay only sleeps. *)
Definition Run (env : Env) (w : World) (jobID : Z) : World * option run_error :=
  match GetJobByID (w_db w) jobID with
  | None => (w, Some ErrJobNotFound)
  | Some job =>
    let prefs := GetPreferences (w_db w) (job_UserID job) in
    let d1 := CancelOrphanedRuns (w_db w) jobID in
    let '(run, d2) := CreateJobRun d1 jobID in
    let d3 := UpdateJobStatus d2 jobID StatusRunning None (job_NextRunAt job) in
    let d4 := setupLogging env d3 (run_ID run) in
    let '(w5, result) := executeJob env (set_db w d4) job in
    if w_ctx_err w5 then (w5, Some ErrCtxCanceled)
    else (finalizeRun w5 job (run_ID run) result prefs, Error result)
  end.

(** [Resume]; [setupLoggingAppend] only opens the log file. *)
Definition Resume (env : Env) (w : World) (runID : Z) : World * option run_error :=
  match GetRun (w_db w) runID with
  | None => (w, Some ErrRunNotFound)
  | Some run =>
    if negb (String.eqb (run_Status run) "running") then
      (w, Some (ErrRunNotRunning runID (run_Status run)))
    else
      match GetJobByID (w_db w) (run_JobID run) with
      | None => (w, Some ErrJobNotFound)
      | Some job =>
        let prefs := GetPreferences (w_db w) (job_UserID job) in
        let '(w1, result) := executeJob env w job in
        if w_ctx_err w1 then (w1, Some ErrCtxCanceled)
        else (finalizeRun w1 job (run_ID run) result prefs, Error result)
      end
  end.

End Runner.

(* ------------------------------------------------------------------ *)
(** * Sample rows and environments *)

Module RunnerSamples.
Import Content Runner.

(** The poll rounds before a cancellation: ticks that fail or report an
    unfinished conversation. *)
Definition tick_incomplete (ev : poll_event) : Prop :=
  match ev with
  | EvTick None => True
  | EvTick (Some c) => conv_IsComplete c = false
  | _ => False
  end.

Definition count_user_url (userID : Z) (url : string) (arts : list Article) : nat :=
  length (filter (same_user_url userID url) arts).

(** At most one article per (user, non-empty URL). *)
Definition unique_article_urls (arts : list Article) : Prop :=
  forall userID url, url <> "" -> (count_user_url userID url arts <= 1)%nat.

(** A daily job whose next run is scheduled at 90000 and whose run 3 is
    in progress. *)
Definition sample_job : Job :=
  mkJob 7 1 "Tech" "daily" 0 1 "running" (Some 1000) (Some 90000) (Some "conv-1") 1000.

Definition sample_run : JobRun :=
  mkJobRun 3 7 "running" None None None 1000 None "logs/runs/run_3.log".

Definition sample_db : DB :=
  mkDB [sample_job] [sample_run] []
    [(1, mkPreference "https://discord.example/webhook" 1 1)] 5000.

Definition sample_world : World := mkWorld sample_db false [].

Definition sample_fetch_env : fetch_env :=
  {| fetch := fun _ => FrTransportError "unreachable";
     readability := fun _ => inl "no content";
     trim_space := fun s => s |}.

(** The agent server knows no conversation and creates "conv-2"; one
    poll round fails, then the context is cancelled. *)
Definition sample_env : Env :=
  mkEnv 1500 None true (fun _ => None) (inr "conv-2") [EvTick None; EvCtxDone]
    sample_fetch_env (fun _ => true) "20260101_000000".

Definition sample_info : ArticleInfo :=
  {| Title := "A"; URL := "https://example.com/a"; Summary := "S" |}.

End RunnerSamples.

(* ------------------------------------------------------------------ *)
(** ** internal/jobrunner/shelley.go: conversations of the agent service *)

Module Shelley.
Import Json GoJson.

Record Message := mkMessage {
  msg_Type : string;
  msg_EndOfTurn : bool;
  msg_LLMData : bytes     (* json.RawMessage *)
}.

(** [Conversation.Conversation.Working] is a [*bool]: [None] is nil. *)
Record Conversation := mkConversation {
  conv_ConversationID : string;
  conv_Working : option bool;
  conv_Messages : list Message
}.

Record ContentBlock := mkContentBlock {
  block_Type : Z;
  block_Text : string
}.

Definition zero_block : ContentBlock := {| block_Type := 0; block_Text := "" |}.

(** The newest message first: the loops of the source run from
    [len(c.Messages) - 1] down to 0. *)
Fixpoint last_agent_end_of_turn (newest_first : list Message) : bool :=
  match newest_first with
  | [] => false
  | m :: t => if String.eqb (msg_Type m) "agent" then msg_EndOfTurn m
              else last_agent_end_of_turn t
  end.

Definition IsComplete (c : Conversation) : bool :=
  match conv_Working c with
  | Some w => negb w
  | None => last_agent_end_of_turn (rev (conv_Messages c))
  end.

(** [strconv.ParseInt(s, 10, 64)] on the text of a JSON number: an
    optional sign and at least one decimal digit, within the range of
    int64 (the decoder's store into an [int] field). *)
Definition digits_value (ds : bytes) : Z :=
  fold_left (fun acc c => acc * 10 + (Z.of_nat (nat_of_ascii c) - 48)) ds 0.

Definition parse_int64 (raw : bytes) : option Z :=
  let '(neg, ds) := match raw with
                    | c :: t => if Ascii.eqb c "-" then (true, t)
                                else if Ascii.eqb c "+" then (false, t)
                                else (false, raw)
                    | [] => (false, raw)
                    end in
  if match ds with [] => false | _ => true end && forallb is_digit ds then
    let v := if neg then - digits_value ds else digits_value ds in
    if Z.leb (- 2 ^ 63) v && Z.leb v (2 ^ 63 - 1) then Some v else None
  else None.

(** One member of a [ContentBlock] object (tags [Type], [Text]); the
    flag records a type error, which leaves the field as it was. *)
Definition set_block_field (acc : ContentBlock * bool) (m : bytes * jvalue)
    : ContentBlock * bool :=
  let (b, err) := acc in
  let (k, v) := m in
  if key_is "type" k then
    match v with
    | JNumber raw => match parse_int64 raw with
                     | Some n => ({| block_Type := n; block_Text := block_Text b |}, err)
                     | None => (b, true)
                     end
    | JNull => (b, err)
    | _ => (b, true)
    end
  else if key_is "text" k then
    match v with
    | JString d => ({| block_Type := block_Type b; block_Text := string_of_list_ascii d |}, err)
    | JNull => (b, err)
    | _ => (b, true)
    end
  else (b, err).

(** A value decoded into an existing element: an object sets the fields
    it names, null leaves the element, anything else is a type error. *)
Definition decode_block (old : ContentBlock) (v : jvalue) : ContentBlock * bool :=
  match v with
  | JObject ms => fold_left set_block_field ms (old, false)
  | JNull => (old, false)
  | _ => (old, true)
  end.

(** The backing array of a slice: the slots up to its capacity that have
    been written (slots beyond it are zero).  The decoder stores element
    [i] into slot [i], growing the array when needed. *)
Definition store_set (i : nat) (b : ContentBlock) (store : list ContentBlock)
    : list ContentBlock :=
  (firstn i store ++ b :: skipn (S i) store)%list.

Fixpoint decode_elements (i : nat) (store : list ContentBlock) (l : list jvalue)
    (err : bool) : list ContentBlock * nat * bool :=
  match l with
  | [] => (store, i, err)
  | v :: t =>
    let (b, e) := decode_block (nth i store zero_block) v in
    decode_elements (S i) (store_set i b store) t (err || e)
  end.

(** The [Content] field as a slice: backing array and length.  An empty
    JSON array becomes a new empty slice, null the nil slice. *)
Definition set_content (acc : (list ContentBlock * nat) * bool) (m : bytes * jvalue)
    : (list ContentBlock * nat) * bool :=
  let '((store, len), err) := acc in
  let (k, v) := m in
  if key_is "content" k then
    match v with
    | JArray [] => (([], 0%nat), err)
    | JArray l => let '(store', len', e) := decode_elements 0 store l false in
                  ((store', len'), err || e)
    | JNull => (([], 0%nat), err)
    | _ => ((store, len), true)
    end
  else ((store, len), err).

(** [json.Unmarshal(raw, &data)] into a fresh [LLMData]: the decoded
    [Content], or [None] on a syntax or type error. *)
Definition decode_llm_data (raw : bytes) : option (list ContentBlock) :=
  match parse_json raw with
  | None => None
  | Some JNull => Some []
  | Some (JObject ms) =>
    let '((store, len), err) := fold_left set_content ms (([], 0%nat), false) in
    if err then None else Some (firstn len store)
  | Some _ => None
  end.

Fixpoint first_text (blocks : list ContentBlock) : option string :=
  match blocks with
  | [] => None
  | b :: t => if Z.eqb (block_Type b) 2 && negb (String.eqb (block_Text b) "")
              then Some (block_Text b) else first_text t
  end.

Fixpoint last_agent_text (newest_first : list Message) : string :=
  match newest_first with
  | [] => ""
  | m :: t =>
    if String.eqb (msg_Type m) "agent" then
      match decode_llm_data (msg_LLMData m) with
      | None => last_agent_text t
      | Some blocks => match first_text blocks with
                       | Some s => s
                       | None => last_agent_text t
                       end
      end
    else last_agent_text t
  end.

Definition GetLastAgentText (c : Conversation) : string :=
  last_agent_text (rev (conv_Messages c)).

(** The text a single message contributes to [GetLastAgentText]. *)
Definition agent_text (m : Message) : option string :=
  if String.eqb (msg_Type m) "agent" then
    match decode_llm_data (msg_LLMData m) with
    | None => None
    | Some blocks => first_text blocks
    end
  else None.

End Shelley.

Module ShelleySamples.
Import Shelley.

Definition not_agent (m : Message) : Prop := msg_Type m <> "agent".

Definition user_prompt : Message :=
  {| msg_Type := "user"; msg_EndOfTurn := false;
     msg_LLMData := Json.jq "{'Content':[{'Type':2,'Text':'find news'}]}" |}.

(** an agent reply with a tool block before its text block *)
Definition agent_reply : Message :=
  {| msg_Type := "agent"; msg_EndOfTurn := true;
     msg_LLMData := Json.jq "{'Content':[{'Type':5,'Text':''},{'Type':2,'Text':'[]'}]}" |}.

(** an agent message whose [Type] is not an integer: a type error *)
Definition agent_bad : Message :=
  {| msg_Type := "agent"; msg_EndOfTurn := false;
     msg_LLMData := Json.jq "{'Content':[{'Type':2.0,'Text':'late'}]}" |}.

Definition user_late : Message :=
  {| msg_Type := "user"; msg_EndOfTurn := true;
     msg_LLMData := Json.jq "{'Content':[{'Type':2,'Text':'ok'}]}" |}.

Definition conversation (ms : list Message) : Conversation :=
  {| conv_ConversationID := "conv-1"; conv_Working := None; conv_Messages := ms |}.

End ShelleySamples.

Module RunnerProps.
Import Runner.

(** An article row stored for [job]. *)
Definition added_by (job : Job) (a : Article) : Prop :=
  art_JobID a = job_ID job /\ art_UserID a = job_UserID job.

End RunnerProps.

Module DiscordProps.
Import Discord.

(** The delays [d, 2d, 4d, ...] of [n] retries. *)
Fixpoint delays (d : Z) (n : nat) : list Z :=
  match n with
  | O => []
  | S n' => d :: delays (d * 2) n'
  end.

(** A POST that ends the loop with nil: status 200 or 204. *)
Definition post_ok (r : post_result) : Prop :=
  match r with
  | PostStatus c => c = 200 \/ c = 204
  | PostTransportError _ => False
  end.

End DiscordProps.

Module JsonProps.
Import Json.

(** [t] is [s] with a backslash inserted before some of its double
    quotes, and nothing else changed. *)
Inductive escapes_added : bytes -> bytes -> Prop :=
| ea_nil : escapes_added [] []
| ea_keep (c : ascii) (s t : bytes) : escapes_added s t -> escapes_added (c :: s) (c :: t)
| ea_escape (s t : bytes) :
    escapes_added s t -> escapes_added (quote :: s) (backslash :: quote :: t).

(** [s] holds the fence [```] somewhere. *)
Fixpoint has_fence (s : bytes) : bool :=
  match s with
  | [] => false
  | _ :: t => has_prefix fence s || has_fence t
  end.

End JsonProps.

(* ------------------------------------------------------------------ *)
(** ** srv/api.go: stopping a job and cancelling a run *)

Module Server.
Import Runner.

(** [-- name: GetJob :one  SELECT * FROM jobs WHERE id = ? AND user_id = ?] *)
Definition GetJob (d : DB) (id userID : Z) : option Job :=
  find (fun j => Z.eqb (job_ID j) id && Z.eqb (job_UserID j) userID) (db_jobs d).

(** [-- name: GetJobRun :one  SELECT jr.*, ... FROM job_runs jr
    JOIN jobs j ON jr.job_id = j.id WHERE jr.id = ? AND j.user_id = ?] *)
Definition GetJobRun (d : DB) (id userID : Z) : option JobRun :=
  find (fun r => Z.eqb (run_ID r) id
                 && existsb (fun j => Z.eqb (job_ID j) (run_JobID r) && Z.eqb (job_UserID j) userID)
                      (db_jobs d))
    (db_job_runs d).

(** [-- name: CancelJobRun :exec  UPDATE job_runs SET status = 'cancelled',
    error_message = 'Cancelled by user', completed_at = CURRENT_TIMESTAMP
    WHERE id = ?] *)
Definition CancelJobRun (d : DB) (id : Z) : DB :=
  set_job_runs d (map (fun r =>
    if Z.eqb (run_ID r) id then
      mkJobRun (run_ID r) (run_JobID r) "cancelled" (Some "Cancelled by user")
        (run_ArticlesSaved r) (run_DuplicatesSkipped r) (run_StartedAt r)
        (Some (db_now d)) (run_LogPath r)
    else r) (db_job_runs d)).

(** The JSON answer: [s.jsonError(w, msg, code)] or
    [s.jsonOK(w, map[string]string{"status": s})]. *)
Inductive response :=
| RespError (msg : string) (code : Z)
| RespOK (status : string).

(** [exec.Command("sudo", "systemctl", "stop", serviceName+".service")] *)
Definition systemctl_stop (jobID : Z) : list string :=
  ["sudo"; "systemctl"; "stop"; "news-job-" ++ fmt_d jobID ++ ".service"].

(** A handler's effect: the store, the commands run (their errors are
    ignored), and the answer.  [user] is the result of
    [s.getOrCreateUser(r)] ([None]: its error), [idStr] the path value. *)
Definition handler_result : Type := DB * list (list string) * response.

(** [handleStopJob]; [time.Now()] is the store's clock. *)
Definition handleStopJob (d : DB) (user : option Z) (idStr : string) : handler_result :=
  match user with
  | None => (d, [], RespError "Unauthorized" 401)
  | Some userID =>
    match Shelley.parse_int64 (list_ascii_of_string idStr) with
    | None => (d, [], RespError "Invalid job ID" 400)
    | Some id =>
      match GetJob d id userID with
      | None => (d, [], RespError "Job not found" 404)
      | Some job =>
        if negb (String.eqb (job_Status job) "running") then
          (d, [], RespError "Job is not running" 400)
        else
          (UpdateJobStatus d (job_ID job) "stopped" (Some (db_now d)) (job_NextRunAt job),
           [systemctl_stop (job_ID job)], RespOK "stopped")
      end
    end
  end.

(** [handleCancelRun]; [cancel_ok] is whether the [CancelJobRun]
    statement succeeds.  The job is read with its error ignored: a
    missing job is Go's zero [Job], whose status is empty. *)
Definition handleCancelRun (d : DB) (user : option Z) (idStr : string) (cancel_ok : bool)
    : handler_result :=
  match user with
  | None => (d, [], RespError "Unauthorized" 401)
  | Some userID =>
    match Shelley.parse_int64 (list_ascii_of_string idStr) with
    | None => (d, [], RespError "Invalid run ID" 400)
    | Some id =>
      match GetJobRun d id userID with
      | None => (d, [], RespError "Run not found" 404)
      | Some run =>
        if negb (String.eqb (run_Status run) "running") then
          (d, [], RespError "Run is not running" 400)
        else
          let cmd := systemctl_stop (run_JobID run) in
          if negb cancel_ok then (d, [cmd], RespError "Failed to cancel run" 500)
          else
            let d1 := CancelJobRun d id in
            let d2 :=
              match GetJobByID d1 (run_JobID run) with
              | Some job =>
                if String.eqb (job_Status job) "running" then
                  UpdateJobStatus d1 (run_JobID run) "cancelled" (Some (db_now d1))
                    (job_NextRunAt job)
                else d1
              | None => d1
              end in
            (d2, [cmd], RespOK "cancelled")
      end
    end
  end.

(** Primary keys: job ids and run ids are distinct. *)
Definition keys_unique (d : DB) : Prop :=
  NoDup (map job_ID (db_jobs d)) /\ NoDup (map run_ID (db_job_runs d)).

End Server.

(* ================================================================== *)
(** * Theorems *)

Import Discord.

(** ** Discord notification dispatch *)

(** Turns the facts that the POST outcomes are hard failures into the
    falsity of the status tests of the retry loop. *)
Ltac hard_failure_tests :=
  repeat match goal with
  | H : _ <> _ /\ _ |- _ => destruct H
  | H : ?c <> ?k |- context [Z.eqb ?c ?k] =>
      rewrite (proj2 (Z.eqb_neq c k) H)
  end.

(** C5: when every POST attempt fails with a transport error or a status
    other than 200, 204 and 429, SendDiscordNotification makes exactly
    3 attempts and returns the error of the third (final) attempt.  The
    webhook URL is non-empty (the empty URL is a no-op) and forms a
    request, so that POST attempts are made at all. *)
Theorem discord_three_attempts_on_hard_failure
    (env : http_env) (url msg : string) :
  url <> "" ->
  new_request_ok env url = true ->
  (forall n, (1 <= n <= 3)%nat -> hard_failure (post env n)) ->
  so_posts (SendDiscordNotification env url msg) = 3%nat /\
  so_err (SendDiscordNotification env url msg) = error_of (post env 3).
Proof.
  intros Hurl Hreq H.
  unfold SendDiscordNotification.
  rewrite (proj2 (String.eqb_neq _ _) Hurl).
  simpl. rewrite Hreq. simpl.
  pose proof (H 1%nat ltac:(lia)) as H1.
  pose proof (H 2%nat ltac:(lia)) as H2.
  pose proof (H 3%nat ltac:(lia)) as H3.
  destruct (post env 1) eqn:E1, (post env 2) eqn:E2, (post env 3) eqn:E3;
    simpl in H1, H2, H3; hard_failure_tests; simpl; split; reflexivity.
Qed.

Lemma discord_three_attempts_on_hard_failure_witness :
  let env := constant_status_env (fun _ => true) 500 in
  so_posts (SendDiscordNotification env "https://discord.com/api/webhooks/1/t" "m")
    = 3%nat /\
  so_err (SendDiscordNotification env "https://discord.com/api/webhooks/1/t" "m")
    = error_of (post env 3).
Proof.
  intros env.
  apply discord_three_attempts_on_hard_failure.
  - discriminate.
  - reflexivity.
  - intros n _. simpl. repeat split; discriminate.
Defined.

(** C9: when all three POST attempts get HTTP 429, SendDiscordNotification
    leaves its loop after the third attempt and returns nil (success),
    whereas a persistent status other than 200, 204 and 429 gives an error. *)
Theorem discord_rate_limited_three_times_returns_nil
    (env : http_env) (url msg : string) :
  url <> "" ->
  new_request_ok env url = true ->
  (forall n, (1 <= n <= 3)%nat -> post env n = PostStatus 429) ->
  so_err (SendDiscordNotification env url msg) = None /\
  so_posts (SendDiscordNotification env url msg) = 3%nat /\
  (forall c, c <> 200 -> c <> 204 -> c <> 429 ->
     so_err (SendDiscordNotification
               (constant_status_env (new_request_ok env) c) url msg)
       = Some (ErrStatus c)).
Proof.
  intros Hurl Hreq H.
  unfold SendDiscordNotification.
  rewrite (proj2 (String.eqb_neq _ _) Hurl).
  split; [|split].
  - simpl. rewrite Hreq, (H 1%nat), (H 2%nat), (H 3%nat) by lia. reflexivity.
  - simpl. rewrite Hreq, (H 1%nat), (H 2%nat), (H 3%nat) by lia. reflexivity.
  - intros c H200 H204 H429. simpl. rewrite Hreq. simpl.
    hard_failure_tests. reflexivity.
Qed.

Lemma discord_rate_limited_three_times_returns_nil_witness :
  let env := constant_status_env (fun _ => true) 429 in
  so_err (SendDiscordNotification env "https://discord.com/api/webhooks/1/t" "m")
    = None /\
  so_posts (SendDiscordNotification env "https://discord.com/api/webhooks/1/t" "m")
    = 3%nat /\
  (forall c, c <> 200 -> c <> 204 -> c <> 429 ->
     so_err (SendDiscordNotification
               (constant_status_env (new_request_ok env) c)
               "https://discord.com/api/webhooks/1/t" "m")
       = Some (ErrStatus c)).
Proof.
  intros env.
  apply discord_rate_limited_three_times_returns_nil.
  - discriminate.
  - reflexivity.
  - intros n _. reflexivity.
Defined.

Import Content.

(** ** Content fetcher *)

Example excessive_whitespace_collapsed :
  excessiveSpaces (excessiveNewlines
    (String "a" (String nl (String nl (String nl (String nl "b   c"))))))
  = String "a" (String nl (String nl "b c")).
Proof. reflexivity. Qed.

(** C10: for a non-empty URL whose response status is anything but 200
    (201 and 204 included), FetchArticleContent returns the error
    "HTTP <status>", and fetchArticleContents stores
    "[Error fetching article: HTTP <status>]" at every index of a
    candidate with that URL, keeping one entry per candidate. *)
Theorem fetch_non_200_is_error_placeholder
    (env : fetch_env) (url : string) (status : Z) (body : bytes) :
  url <> "" ->
  fetch env url = FrResponse status body ->
  status <> 200 ->
  FetchArticleContent env url = inl ("HTTP " ++ fmt_d status) /\
  (forall (articles : list ArticleInfo) (i : nat) (info : ArticleInfo),
     nth_error articles i = Some info -> URL info = url ->
     nth_error (fetchArticleContents env articles) i
       = Some ("[Error fetching article: HTTP " ++ fmt_d status ++ "]") /\
     length (fetchArticleContents env articles) = length articles).
Proof.
  intros Hurl Hfetch Hst.
  assert (Hf : FetchArticleContent env url = inl ("HTTP " ++ fmt_d status)).
  { unfold FetchArticleContent.
    rewrite (proj2 (String.eqb_neq _ _) Hurl), Hfetch,
            (proj2 (Z.eqb_neq _ _) Hst).
    reflexivity. }
  split; [exact Hf|].
  intros articles i info Hi Hu. split.
  - unfold fetchArticleContents. rewrite nth_error_map, Hi. simpl.
    unfold content_for. rewrite Hu, (proj2 (String.eqb_neq _ _) Hurl), Hf.
    reflexivity.
  - unfold fetchArticleContents. apply length_map.
Qed.

Lemma fetch_non_200_is_error_placeholder_witness :
  let env := {| fetch := fun _ => FrResponse 201 [];
                readability := fun _ => inr "";
                trim_space := fun s => s |} in
  (fetch env "http://x" = FrResponse 201 [] /\ 201 <> 200) /\
  (FetchArticleContent env "http://x" = inl ("HTTP " ++ fmt_d 201) /\
  (forall (articles : list ArticleInfo) (i : nat) (info : ArticleInfo),
     nth_error articles i = Some info -> URL info = "http://x" ->
     nth_error (fetchArticleContents env articles) i
       = Some ("[Error fetching article: HTTP " ++ fmt_d 201 ++ "]") /\
     length (fetchArticleContents env articles) = length articles)).
Proof.
  intros env. split; [split; [reflexivity | discriminate]|].
  apply (fetch_non_200_is_error_placeholder env "http://x" 201 []).
  - discriminate.
  - reflexivity.
  - discriminate.
Defined.

Import Json GoJson Extract.

(** ** JSON extraction: the cases of json_test.go *)


Example extract_simple_array :
  extractJSONArray (jq "[{'title': 'Test', 'url': 'http://example.com', 'summary': 'A test'}]")
  = Some (jq "[{'title': 'Test', 'url': 'http://example.com', 'summary': 'A test'}]").
Proof. vm_compute. reflexivity. Qed.

Example extract_markdown_code_block :
  extractJSONArray (jq ("```json" ++ String nl "[{'title': 'Test'}]" ++ String nl "```"))
  = Some (jq "[{'title': 'Test'}]").
Proof. vm_compute. reflexivity. Qed.

Example extract_surrounding_text :
  extractJSONArray (jq "Here are the articles I found:\n[{'title': 'Test'}]\nHope this helps!")
  = Some (jq "[{'title': 'Test'}]").
Proof. vm_compute. reflexivity. Qed.

Example extract_no_array :
  extractJSONArray (jq "No articles found.") = None.
Proof. vm_compute. reflexivity. Qed.

Example fix_valid_json_unchanged :
  fixMalformedJSON (jq "[{'title': 'Test'}]") = jq "[{'title': 'Test'}]".
Proof. vm_compute. reflexivity. Qed.

Example extract_articles_test :
  ExtractArticlesJSON (jq "[{'title': 'News Article', 'url': 'https://example.com/article', 'summary': 'This is a test.'}]")
  = inr [{| Title := "News Article"; URL := "https://example.com/article";
            Summary := "This is a test." |}].
Proof. vm_compute. reflexivity. Qed.

(** ** Repair of embedded quotes *)

(** C7: the repair pass maps [[{"title": "He said "hi" to me"}]] to
    [[{"title": "He said \"hi\" to me"}]]; the raw text does not parse,
    the repaired one parses as a one-element array whose title holds the
    embedded quotes, and this is what ExtractArticlesJSON returns. *)
Theorem fix_embedded_quotes_example :
  fixMalformedJSON (jq "[{'title': 'He said 'hi' to me'}]")
    = jq "[{'title': 'He said \'hi\' to me'}]" /\
  Unmarshal (jq "[{'title': 'He said 'hi' to me'}]") = inl SyntaxError /\
  Unmarshal (jq "[{'title': 'He said \'hi\' to me'}]")
    = inr [{| Title := string_of_list_ascii (jq "He said 'hi' to me");
              URL := ""; Summary := "" |}] /\
  ExtractArticlesJSON (jq "[{'title': 'He said 'hi' to me'}]")
    = inr [{| Title := string_of_list_ascii (jq "He said 'hi' to me");
              URL := ""; Summary := "" |}].
Proof. vm_compute. repeat split. Qed.

(** ** Locating the array in surrounding text *)

Section Locate.

Local Open Scope list_scope.

Lemma eqb_false_of_neq (c d : ascii) : c <> d -> Ascii.eqb c d = false.
Proof. intros H. destruct (Ascii.eqb_spec c d); congruence. Qed.

Lemma re_spaces_len_le (x r : bytes) (c : ascii) :
  is_re_space c = false -> (re_spaces_len (x ++ c :: r) <= length x)%nat.
Proof.
  intros Hc. induction x as [|d x IH]; simpl.
  - rewrite Hc. lia.
  - destruct (is_re_space d); simpl; lia.
Qed.

Lemma has_prefix_within (w y r : bytes) (c : ascii) :
  ~ In c w -> has_prefix w (y ++ c :: r) = true -> (length w <= length y)%nat.
Proof.
  revert y. induction w as [|a w IH]; intros y Hw H; simpl; [lia|].
  destruct y as [|b y]; simpl in H.
  - apply andb_prop in H as [H _]. apply Ascii.eqb_eq in H. subst.
    exfalso. apply Hw. left. reflexivity.
  - apply andb_prop in H as [_ H]. simpl.
    apply le_n_S, (IH y); [intros Hin; apply Hw; right; exact Hin | exact H].
Qed.

Lemma skipn_app_le (n : nat) (x y : bytes) :
  (n <= length x)%nat -> skipn n (x ++ y) = skipn n x ++ y.
Proof.
  intros H. rewrite skipn_app.
  replace (n - length x)%nat with 0%nat by lia. reflexivity.
Qed.

Lemma not_in_fence_open : ~ In bracket_open fence.
Proof. simpl. intuition discriminate. Qed.

Lemma not_in_json_open : ~ In bracket_open json_word.
Proof. simpl. intuition discriminate. Qed.

(** A match starting in text before a [[] ends before it. *)
Lemma fence_match_len_le (x r : bytes) (m : nat) :
  fence_match_len (x ++ bracket_open :: r) = Some m -> (m <= length x)%nat.
Proof.
  unfold fence_match_len.
  pose proof (re_spaces_len_le x r bracket_open eq_refl) as H1.
  set (n1 := re_spaces_len (x ++ bracket_open :: r)) in *.
  rewrite (skipn_app_le _ _ _ H1).
  destruct (has_prefix fence _) eqn:Hf; [|discriminate].
  pose proof (has_prefix_within _ _ _ _ not_in_fence_open Hf) as H2.
  simpl in H2. rewrite length_skipn in H2.
  rewrite (skipn_app_le 3 (skipn n1 x) (bracket_open :: r))
    by (rewrite length_skipn; lia).
  set (y := skipn 3 (skipn n1 x)).
  assert (Hy : length y = (length x - n1 - 3)%nat)
    by (unfold y; rewrite !length_skipn; lia).
  destruct (has_prefix json_word (y ++ bracket_open :: r)) eqn:Hj.
  - pose proof (has_prefix_within _ _ _ _ not_in_json_open Hj) as H3. simpl in H3.
    rewrite (skipn_app_le 4 _ _ H3).
    pose proof (re_spaces_len_le (skipn 4 y) r bracket_open eq_refl) as H4.
    rewrite length_skipn in H4.
    intros E; injection E as <-. simpl skipn in H4. lia.
  - simpl. pose proof (re_spaces_len_le y r bracket_open eq_refl) as H4.
    intros E; injection E as <-. lia.
Qed.

Lemma end_match_len_le (x r : bytes) (m : nat) :
  end_match_len (x ++ bracket_open :: r) = Some m -> (m <= length x)%nat.
Proof.
  unfold end_match_len.
  pose proof (re_spaces_len_le x r bracket_open eq_refl) as H1.
  set (n1 := re_spaces_len (x ++ bracket_open :: r)) in *.
  rewrite (skipn_app_le _ _ _ H1).
  destruct (has_prefix fence _) eqn:Hf; [|discriminate].
  pose proof (has_prefix_within _ _ _ _ not_in_fence_open Hf) as H2.
  simpl in H2. rewrite length_skipn in H2.
  rewrite (skipn_app_le 3 (skipn n1 x) (bracket_open :: r))
    by (rewrite length_skipn; lia).
  pose proof (re_spaces_len_le (skipn 3 (skipn n1 x)) r bracket_open eq_refl) as H3.
  rewrite !length_skipn in H3.
  intros E; injection E as <-. simpl skipn in H3. lia.
Qed.

Lemma in_skipn_in (c : ascii) (n : nat) (y : bytes) : In c (skipn n y) -> In c y.
Proof.
  intros H. rewrite <- (firstn_skipn n y). apply in_or_app. right. exact H.
Qed.

Lemma has_prefix_fence_other (c : ascii) (z : bytes) :
  c <> backtick -> has_prefix fence (c :: z) = false.
Proof.
  intros Hc. unfold fence. cbn [list_ascii_of_string has_prefix].
  replace (Ascii.eqb "`" c) with false; [reflexivity|].
  symmetry. apply eqb_false_of_neq. intros E. apply Hc. rewrite <- E. reflexivity.
Qed.

Lemma has_prefix_app_le (w z r : bytes) :
  has_prefix w (z ++ r) = true -> (length w <= length z)%nat -> has_prefix w z = true.
Proof.
  revert z. induction w as [|a w IH]; intros z H Hl; [reflexivity|].
  destruct z as [|b z]; simpl in Hl; [lia|].
  simpl in H |- *. apply andb_prop in H as [H1 H2]. rewrite H1.
  apply IH; [exact H2 | lia].
Qed.

Lemma not_in_fence_close : ~ In bracket_close fence.
Proof. simpl. intuition discriminate. Qed.

Lemma has_fence_skipn (y : bytes) (n : nat) :
  JsonProps.has_fence y = false -> has_prefix fence (skipn n y) = false.
Proof.
  revert n. induction y as [|c y IH]; intros n Hy.
  - rewrite skipn_nil. reflexivity.
  - cbn [JsonProps.has_fence] in Hy. apply orb_false_iff in Hy as [H1 H2].
    destruct n as [|n]; [exact H1|]. cbn [skipn]. apply IH, H2.
Qed.

(** No fence crosses the closing []]: a fence found after skipping
    into [y ++ ] :: q] at a position of [y] lies inside [y]. *)
Lemma has_prefix_fence_array (y q : bytes) (n : nat) :
  JsonProps.has_fence y = false -> (n <= length y)%nat ->
  has_prefix fence (skipn n y ++ bracket_close :: q) = false.
Proof.
  intros Hy Hn.
  destruct (has_prefix fence (skipn n y ++ bracket_close :: q)) eqn:E; [|reflexivity].
  pose proof (has_prefix_within _ _ _ _ not_in_fence_close E) as Hl.
  pose proof (has_prefix_app_le _ _ _ E Hl) as H2.
  rewrite (has_fence_skipn y n Hy) in H2. discriminate.
Qed.

(** No fence match can start inside an array text free of [```]. *)
Lemma fence_match_none_in_array (y q : bytes) :
  JsonProps.has_fence y = false -> fence_match_len (y ++ bracket_close :: q) = None.
Proof.
  intros Hy. unfold fence_match_len.
  pose proof (re_spaces_len_le y q bracket_close eq_refl) as H1.
  rewrite (skipn_app_le _ _ _ H1).
  rewrite (has_prefix_fence_array y q _ Hy H1). reflexivity.
Qed.

Lemma end_match_none_in_array (y q : bytes) :
  JsonProps.has_fence y = false -> end_match_len (y ++ bracket_close :: q) = None.
Proof.
  intros Hy. unfold end_match_len.
  pose proof (re_spaces_len_le y q bracket_close eq_refl) as H1.
  rewrite (skipn_app_le _ _ _ H1).
  rewrite (has_prefix_fence_array y q _ Hy H1). reflexivity.
Qed.

Lemma has_fence_tail (c : ascii) (y : bytes) :
  JsonProps.has_fence (c :: y) = false -> JsonProps.has_fence y = false.
Proof. cbn [JsonProps.has_fence]. intros H. apply orb_false_iff in H as [_ H]. exact H. Qed.

Lemma strip_block_start_array (y q : bytes) (bol : bool) :
  JsonProps.has_fence y = false ->
  strip_block_start 0 bol (y ++ bracket_close :: q)
  = y ++ bracket_close :: strip_block_start 0 false q.
Proof.
  revert bol. induction y as [|c y IH]; intros bol Hy.
  - simpl. pose proof (fence_match_none_in_array [] q eq_refl) as N.
    simpl in N. destruct bol; [rewrite N|]; reflexivity.
  - pose proof (fence_match_none_in_array (c :: y) q Hy) as N.
    simpl app in N |- *. simpl strip_block_start.
    destruct bol; [rewrite N|]; rewrite (IH _ (has_fence_tail c y Hy)); reflexivity.
Qed.

Lemma strip_block_end_array (y q : bytes) :
  JsonProps.has_fence y = false ->
  strip_block_end 0 (y ++ bracket_close :: q)
  = y ++ bracket_close :: strip_block_end 0 q.
Proof.
  induction y as [|c y IH]; intros Hy.
  - cbn [app strip_block_end].
    pose proof (end_match_none_in_array [] q eq_refl) as N.
    simpl app in N. rewrite N. reflexivity.
  - pose proof (end_match_none_in_array (c :: y) q Hy) as N.
    simpl app in N |- *. simpl strip_block_end. rewrite N.
    rewrite (IH (has_fence_tail c y Hy)). reflexivity.
Qed.

Lemma incl_cons_r (c : ascii) (x y : bytes) : incl x y -> incl x (c :: y).
Proof. intros H z Hz. right. apply H, Hz. Qed.

Lemma strip_block_start_incl (s : bytes) (skip : nat) (bol : bool) :
  incl (strip_block_start skip bol s) s.
Proof.
  revert skip bol. induction s as [|c s IH]; intros skip bol; simpl.
  - apply incl_refl.
  - destruct skip as [|k].
    + destruct (if bol then fence_match_len (c :: s) else None) as [[|k]|].
      * apply incl_cons; [left; reflexivity|]. apply incl_cons_r, IH.
      * apply incl_cons_r, IH.
      * apply incl_cons; [left; reflexivity|]. apply incl_cons_r, IH.
    + apply incl_cons_r, IH.
Qed.

Lemma strip_block_end_incl (s : bytes) (skip : nat) :
  incl (strip_block_end skip s) s.
Proof.
  revert skip. induction s as [|c s IH]; intros skip; simpl.
  - apply incl_refl.
  - destruct skip as [|k].
    + destruct (end_match_len (c :: s)) as [[|k]|].
      * apply incl_cons; [left; reflexivity|]. apply incl_cons_r, IH.
      * apply incl_cons_r, IH.
      * apply incl_cons; [left; reflexivity|]. apply incl_cons_r, IH.
    + apply incl_cons_r, IH.
Qed.

(** Matches in the text before the array stay in that text. *)
Lemma strip_block_start_before (p r : bytes) (skip : nat) (bol : bool) :
  (skip <= length p)%nat ->
  exists p' bol', strip_block_start skip bol (p ++ bracket_open :: r)
                  = p' ++ strip_block_start 0 bol' (bracket_open :: r) /\ incl p' p.
Proof.
  revert skip bol. induction p as [|c p IH]; intros skip bol Hs.
  - simpl in Hs. assert (skip = 0%nat) as -> by lia.
    exists [], bol. split; [reflexivity | apply incl_nil_l].
  - simpl app. simpl strip_block_start. destruct skip as [|k].
    + destruct (if bol then fence_match_len (c :: p ++ bracket_open :: r) else None)
        as [[|k]|] eqn:E.
      * destruct (IH 0%nat (Ascii.eqb c (ch 10)) ltac:(lia)) as (p' & b' & Hr & Hi).
        exists (c :: p'), b'. rewrite Hr. split; [reflexivity|].
        apply incl_cons; [left; reflexivity | apply incl_cons_r, Hi].
      * assert (Hk : (S k <= length (c :: p))%nat).
        { destruct bol; [|discriminate]. apply (fence_match_len_le (c :: p) r). exact E. }
        simpl in Hk.
        destruct (IH k (Ascii.eqb c (ch 10)) ltac:(lia)) as (p' & b' & Hr & Hi).
        exists p', b'. rewrite Hr. split; [reflexivity | apply incl_cons_r, Hi].
      * destruct (IH 0%nat (Ascii.eqb c (ch 10)) ltac:(lia)) as (p' & b' & Hr & Hi).
        exists (c :: p'), b'. rewrite Hr. split; [reflexivity|].
        apply incl_cons; [left; reflexivity | apply incl_cons_r, Hi].
    + simpl in Hs.
      destruct (IH k (Ascii.eqb c (ch 10)) ltac:(lia)) as (p' & b' & Hr & Hi).
      exists p', b'. rewrite Hr. split; [reflexivity | apply incl_cons_r, Hi].
Qed.

Lemma strip_block_end_before (p r : bytes) (skip : nat) :
  (skip <= length p)%nat ->
  exists p', strip_block_end skip (p ++ bracket_open :: r)
             = p' ++ strip_block_end 0 (bracket_open :: r) /\ incl p' p.
Proof.
  revert skip. induction p as [|c p IH]; intros skip Hs.
  - simpl in Hs. assert (skip = 0%nat) as -> by lia.
    exists []. split; [reflexivity | apply incl_nil_l].
  - simpl app. simpl strip_block_end. destruct skip as [|k].
    + destruct (end_match_len (c :: p ++ bracket_open :: r)) as [[|k]|] eqn:E.
      * destruct (IH 0%nat ltac:(lia)) as (p' & Hr & Hi).
        exists (c :: p'). rewrite Hr. split; [reflexivity|].
        apply incl_cons; [left; reflexivity | apply incl_cons_r, Hi].
      * assert (Hk : (S k <= length (c :: p))%nat)
          by (apply (end_match_len_le (c :: p) r); exact E).
        simpl in Hk.
        destruct (IH k ltac:(lia)) as (p' & Hr & Hi).
        exists p'. rewrite Hr. split; [reflexivity | apply incl_cons_r, Hi].
      * destruct (IH 0%nat ltac:(lia)) as (p' & Hr & Hi).
        exists (c :: p'). rewrite Hr. split; [reflexivity|].
        apply incl_cons; [left; reflexivity | apply incl_cons_r, Hi].
    + simpl in Hs.
      destruct (IH k ltac:(lia)) as (p' & Hr & Hi).
      exists p'. rewrite Hr. split; [reflexivity | apply incl_cons_r, Hi].
Qed.

(** Normalises reversals and appends of byte lists. *)
Ltac list_norm :=
  repeat progress (simpl; rewrite ?rev_app_distr, ?rev_involutive, <- ?app_assoc).

Lemma drop_spaces_before (x y : bytes) (c : ascii) :
  is_go_space c = false ->
  exists x', drop_spaces (x ++ c :: y) = x' ++ c :: y /\ incl x' x.
Proof.
  intros Hc. induction x as [|d x IH]; simpl.
  - rewrite Hc. exists []. split; [reflexivity | apply incl_nil_l].
  - destruct (is_go_space d).
    + destruct IH as (x' & E & I). exists x'. split; [exact E | apply incl_cons_r, I].
    + exists (d :: x). split; [reflexivity | apply incl_refl].
Qed.

Lemma TrimSpace_around (p m q : bytes) :
  exists p' q', TrimSpace (p ++ bracket_open :: m ++ bracket_close :: q)
                = p' ++ bracket_open :: m ++ bracket_close :: q'
              /\ incl p' p /\ incl q' q.
Proof.
  unfold TrimSpace.
  destruct (drop_spaces_before p (m ++ bracket_close :: q) bracket_open eq_refl)
    as (p1 & E1 & I1).
  rewrite E1.
  replace (rev (p1 ++ bracket_open :: m ++ bracket_close :: q))
    with (rev q ++ bracket_close :: (rev m ++ [bracket_open] ++ rev p1))
    by (list_norm; reflexivity).
  destruct (drop_spaces_before (rev q) (rev m ++ [bracket_open] ++ rev p1)
              bracket_close eq_refl) as (q1 & E2 & I2).
  rewrite E2.
  exists p1, (rev q1). split; [|split].
  - list_norm. reflexivity.
  - exact I1.
  - intros z Hz. apply in_rev in Hz. apply I2 in Hz. apply in_rev in Hz. exact Hz.
Qed.

Lemma drop_until_skip (c : ascii) (x y : bytes) :
  ~ In c x -> drop_until c (x ++ y) = drop_until c y.
Proof.
  induction x as [|d x IH]; intros H; simpl; [reflexivity|].
  rewrite eqb_false_of_neq; [|intros ->; apply H; left; reflexivity].
  apply IH. intros Hin; apply H; right; exact Hin.
Qed.

Lemma drop_until_hit (c : ascii) (l : bytes) : drop_until c (c :: l) = c :: l.
Proof. simpl. rewrite Ascii.eqb_refl. reflexivity. Qed.

Lemma find_json_array_around (p m q : bytes) :
  ~ In bracket_open p -> ~ In bracket_close q ->
  find_json_array (p ++ bracket_open :: m ++ bracket_close :: q)
  = Some (bracket_open :: m ++ [bracket_close]).
Proof.
  intros Hp Hq. unfold find_json_array.
  rewrite (drop_until_skip _ _ _ Hp), drop_until_hit.
  replace (rev (bracket_open :: m ++ bracket_close :: q))
    with (rev q ++ bracket_close :: (rev m ++ [bracket_open]))
    by (list_norm; reflexivity).
  rewrite drop_until_skip by (intros H; apply Hq, in_rev, H).
  rewrite drop_until_hit.
  list_norm. reflexivity.
Qed.

(** The array text [[ m ]] is what extractJSONArray locates in
    [p ++ [ m ] ++ q] when [p] has no [[], [q] has no []] and [m] no
    fence [```]: fence removal and trimming only drop bytes of [p] and [q]. *)
Lemma extractJSONArray_around (p m q : bytes) :
  ~ In bracket_open p -> ~ In bracket_close q -> JsonProps.has_fence m = false ->
  extractJSONArray (p ++ bracket_open :: m ++ bracket_close :: q)
  = Some (bracket_open :: m ++ [bracket_close]).
Proof.
  intros Hp Hq Hm. unfold extractJSONArray.
  assert (Ha : JsonProps.has_fence (bracket_open :: m) = false).
  { cbn [JsonProps.has_fence]. rewrite has_prefix_fence_other by discriminate. exact Hm. }
  destruct (strip_block_start_before p (m ++ bracket_close :: q) 0 true ltac:(lia))
    as (p1 & b1 & E1 & I1).
  rewrite E1.
  change (bracket_open :: m ++ bracket_close :: q)
    with ((bracket_open :: m) ++ bracket_close :: q).
  rewrite (strip_block_start_array _ _ _ Ha).
  set (q1 := strip_block_start 0 false q).
  change ((bracket_open :: m) ++ bracket_close :: q1)
    with (bracket_open :: m ++ bracket_close :: q1).
  destruct (strip_block_end_before p1 (m ++ bracket_close :: q1) 0 ltac:(lia))
    as (p2 & E2 & I2).
  rewrite E2.
  change (bracket_open :: m ++ bracket_close :: q1)
    with ((bracket_open :: m) ++ bracket_close :: q1).
  rewrite (strip_block_end_array _ _ Ha).
  set (q2 := strip_block_end 0 q1).
  change ((bracket_open :: m) ++ bracket_close :: q2)
    with (bracket_open :: m ++ bracket_close :: q2).
  destruct (TrimSpace_around p2 m q2) as (p3 & q3 & E3 & I3 & J3).
  rewrite E3. apply find_json_array_around.
  - intros H. apply Hp, I1, I2, I3, H.
  - intros H. apply Hq, (strip_block_start_incl q 0 false),
      (strip_block_end_incl q1 0), J3, H.
Qed.

End Locate.

(** C4 (as stated, refuted): prose before the array that itself holds a
    bracket, here [See [1]: ], makes the located substring start at that
    bracket; neither it nor its repair parses, so ExtractArticlesJSON
    fails while the array alone decodes to one article. *)
Lemma extract_bracket_in_prose_counterexample :
  Unmarshal (jq "[{'title': 'A'}]")
    = inr [{| Title := "A"; URL := ""; Summary := "" |}] /\
  ExtractArticlesJSON (jq "See [1]: " ++ jq "[{'title': 'A'}]")%list
    = inl (ParseJSON SyntaxError) /\
  ExtractArticlesJSON (jq "See [1]: " ++ jq "[{'title': 'A'}]")%list
    <> inr [{| Title := "A"; URL := ""; Summary := "" |}].
Proof. vm_compute. split; [reflexivity | split; [reflexivity | discriminate]]. Qed.

(** A fence [```] inside the array is not kept: [codeBlockEnd] removes it
    with the spaces around it, so the title read back differs from the
    one the array alone decodes to. *)
Lemma extract_fence_in_array_stripped :
  Unmarshal (jq "[{'title': 'a ``` b'}]")
    = inr [{| Title := "a ``` b"; URL := ""; Summary := "" |}] /\
  ExtractArticlesJSON (jq "[{'title': 'a ``` b'}]")
    = inr [{| Title := "ab"; URL := ""; Summary := "" |}].
Proof. vm_compute. split; reflexivity. Qed.

(** C4 (amended): for a JSON array text [[ m ]] that holds no fence
    [```] (single or double backticks are fine) and decodes to [l], and surrounding text [p] (before) without [[] and [q]
    (after) without []], both possibly holding fenced-code-block markers,
    ExtractArticlesJSON on [p ++ [ m ] ++ q] returns [l]. *)
Theorem extract_array_in_surrounding_text (p m q : bytes) (l : list ArticleInfo) :
  ~ In bracket_open p -> ~ In bracket_close q -> JsonProps.has_fence m = false ->
  Unmarshal (bracket_open :: m ++ [bracket_close]) = inr l ->
  ExtractArticlesJSON (p ++ bracket_open :: m ++ bracket_close :: q)%list = inr l.
Proof.
  intros Hp Hq Hm Hu. unfold ExtractArticlesJSON.
  rewrite (extractJSONArray_around p m q Hp Hq Hm), Hu. reflexivity.
Qed.

Lemma extract_array_in_surrounding_text_witness :
  let p := jq ("```json" ++ String nl "Here are the results:" ++ String nl "") in
  let m := jq "{'title':'A `x` and ``y``','url':'http://x','summary':'s'}" in
  let q := jq (String nl "```" ++ String nl "Done") in
  let l := [{| Title := "A `x` and ``y``"; URL := "http://x"; Summary := "s" |}] in
  (~ In bracket_open p /\ ~ In bracket_close q /\ JsonProps.has_fence m = false /\
   Unmarshal (bracket_open :: m ++ [bracket_close]) = inr l) /\
  ExtractArticlesJSON (p ++ bracket_open :: m ++ bracket_close :: q)%list = inr l.
Proof.
  intros p m q l.
  assert (H : ~ In bracket_open p /\ ~ In bracket_close q /\ JsonProps.has_fence m = false /\
              Unmarshal (bracket_open :: m ++ [bracket_close]) = inr l).
  { vm_compute. split; [|split; [|split]];
      [ intuition discriminate | intuition discriminate | reflexivity | reflexivity ]. }
  split; [exact H|].
  destruct H as (Hp & Hq & Hm & Hu).
  apply (extract_array_in_surrounding_text p m q l Hp Hq Hm Hu).
Defined.

(** ** The repair pass on valid JSON *)

Section RepairValid.
Import JsonGrammar.
Local Open Scope list_scope.

Definition plain_byte (c : ascii) : Prop := c <> quote /\ c <> backslash.

Lemma plain_of_code (c : ascii) :
  nat_of_ascii c <> 34%nat -> nat_of_ascii c <> 92%nat -> plain_byte c.
Proof. intros H1 H2. split; intros ->; [apply H1 | apply H2]; reflexivity. Qed.

Lemma fix_plain_cons (c : ascii) (k : bytes) :
  plain_byte c -> fix_loop false false (c :: k) = c :: fix_loop false false k.
Proof.
  intros [Hq Hb]. simpl.
  rewrite (eqb_false_of_neq _ _ Hb), (eqb_false_of_neq _ _ Hq). reflexivity.
Qed.

Lemma fix_plain_app (x k : bytes) :
  Forall plain_byte x -> fix_loop false false (x ++ k) = x ++ fix_loop false false k.
Proof.
  induction 1 as [|c x Hc _ IH]; [reflexivity|].
  simpl app. rewrite fix_plain_cons by exact Hc. rewrite IH. reflexivity.
Qed.

Lemma fix_open_quote (k : bytes) :
  fix_loop false false (quote :: k) = quote :: fix_loop true false k.
Proof. reflexivity. Qed.

Lemma fix_in_string_plain (c : ascii) (k : bytes) :
  plain_byte c -> fix_loop true false (c :: k) = c :: fix_loop true false k.
Proof.
  intros [Hq Hb]. simpl.
  rewrite (eqb_false_of_neq _ _ Hb), (eqb_false_of_neq _ _ Hq). reflexivity.
Qed.

Lemma is_trim_ws_code (c : ascii) :
  is_trim_ws c = true ->
  nat_of_ascii c = 32%nat \/ nat_of_ascii c = 9%nat \/ nat_of_ascii c = 10%nat
  \/ nat_of_ascii c = 13%nat.
Proof.
  unfold is_trim_ws. intros H.
  repeat (apply orb_prop in H as [H|H]);
    apply Ascii.eqb_eq in H; subst; cbv; auto.
Qed.

Lemma ws_plain (w : bytes) : ws w -> Forall plain_byte w.
Proof.
  induction 1 as [|c w Hc _ IH]; constructor; [|exact IH].
  apply plain_of_code; destruct (is_trim_ws_code c Hc) as [E|[E|[E|E]]]; lia.
Qed.

Lemma digit_plain (c : ascii) : is_digit c = true -> plain_byte c.
Proof.
  unfold is_digit. intros H. apply andb_prop in H as [H1 H2].
  apply Nat.leb_le in H1, H2. apply plain_of_code; lia.
Qed.

Lemma digits1_plain (d : bytes) : digits1 d -> Forall plain_byte d.
Proof.
  induction 1; repeat constructor; try assumption; apply digit_plain; assumption.
Qed.

Ltac plain_lit := repeat (apply Forall_cons; [split; discriminate|]); apply Forall_nil.

Lemma number_plain (n : bytes) : jnumber n -> Forall plain_byte n.
Proof.
  intros [sg ip fr ex Hsg Hip Hfr Hex].
  rewrite !Forall_app. split; [|split; [|split]].
  - destruct Hsg as [->| ->]; plain_lit.
  - destruct Hip as [->|(c & d & -> & Hc & _ & Hd)]; [plain_lit|].
    constructor; [apply digit_plain, Hc|].
    destruct Hd as [->|Hd]; [constructor | apply digits1_plain, Hd].
  - destruct Hfr as [->|(d & -> & Hd)]; [constructor|].
    constructor; [split; discriminate | apply digits1_plain, Hd].
  - destruct Hex as [->|(e & sg' & d & -> & He & Hs & Hd)]; [constructor|].
    constructor; [destruct He as [->| ->]; split; discriminate|].
    apply Forall_app. split; [|apply digits1_plain, Hd].
    destruct Hs as [->|[->| ->]]; plain_lit.
Qed.

Lemma hex_plain (c : ascii) : is_hex c = true -> plain_byte c.
Proof.
  unfold is_hex, hex_val. intros H. apply plain_of_code; intros E; rewrite E in H;
    simpl in H; discriminate.
Qed.

Lemma fix_str_char (a k : bytes) :
  str_char a -> fix_loop true false (a ++ k) = a ++ fix_loop true false k.
Proof.
  destruct 1 as [c Hq Hb _ | e He | h1 h2 h3 h4 H1 H2 H3 H4]; simpl app.
  - apply fix_in_string_plain. split; assumption.
  - reflexivity.
  - change (fix_loop true false (backslash :: "u"%char :: h1 :: h2 :: h3 :: h4 :: k))
      with ("\"%char :: "u"%char :: fix_loop true false (h1 :: h2 :: h3 :: h4 :: k)).
    rewrite !fix_in_string_plain by (apply hex_plain; assumption). reflexivity.
Qed.

Lemma fix_str_body (b k : bytes) :
  str_body b -> fix_loop true false (b ++ k) = b ++ fix_loop true false k.
Proof.
  intros Hb. revert k. induction Hb as [|a b Ha _ IH]; intros k; [reflexivity|].
  rewrite <- app_assoc, (fix_str_char _ _ Ha), IH, app_assoc. reflexivity.
Qed.

Lemma trim_firstn_ws (w r : bytes) (n : nat) :
  ws w -> trim_left_ws (firstn n (w ++ r)) = trim_left_ws (firstn (n - length w) r).
Proof.
  intros Hw. revert n. induction Hw as [|c w Hc _ IH]; intros n.
  - simpl. rewrite Nat.sub_0_r. reflexivity.
  - destruct n as [|n]; [reflexivity|].
    simpl. rewrite Hc. apply IH.
Qed.

Lemma terminator_not_ws (c : ascii) : terminator c = true -> is_trim_ws c = false.
Proof.
  unfold terminator. intros H.
  repeat (apply orb_prop in H as [H|H]); apply Ascii.eqb_eq in H; subst; reflexivity.
Qed.

(** After a closing quote the 19-byte look-ahead of the repair pass
    sees the end of a string. *)
Lemma follows_string_looks_like_end (k : bytes) :
  follows_string k -> looks_like_end (trim_left_ws (firstn 19 k)) = true.
Proof.
  intros (w & r & Hw & -> & Hr). rewrite (trim_firstn_ws _ _ _ Hw).
  destruct (19 - length w)%nat as [|m]; [reflexivity|].
  destruct r as [|c r]; [reflexivity|].
  simpl in Hr |- *. rewrite (terminator_not_ws _ Hr). simpl.
  unfold terminator in Hr. exact Hr.
Qed.

Lemma fix_close_quote (k : bytes) :
  follows_string k -> fix_loop true false (quote :: k) = quote :: fix_loop false false k.
Proof.
  intros Hk. cbn [fix_loop].
  change (Ascii.eqb quote backslash) with false.
  change (Ascii.eqb quote quote) with true. cbn iota beta zeta.
  rewrite (follows_string_looks_like_end _ Hk). reflexivity.
Qed.

Lemma follows_value_string (k : bytes) : follows_value k -> follows_string k.
Proof. intros H. exists [], k. repeat split; [constructor | exact H]. Qed.

Lemma plain_lit_true : Forall plain_byte (lit "true").
Proof. plain_lit. Qed.
Lemma plain_lit_false : Forall plain_byte (lit "false").
Proof. plain_lit. Qed.
Lemma plain_lit_null : Forall plain_byte (lit "null").
Proof. plain_lit. Qed.

Ltac step_plain :=
  first [ rewrite fix_plain_cons by (split; discriminate)
        | rewrite fix_plain_app by (apply ws_plain; assumption) ].

Ltac app_norm := repeat progress (cbn [app]; rewrite <- ?app_assoc).

Lemma fix_json_mut :
  (forall v, value v -> forall k, follows_string k ->
     fix_loop false false (v ++ k) = v ++ fix_loop false false k) /\
  (forall e, element e -> forall k, follows_value k ->
     fix_loop false false (e ++ k) = e ++ fix_loop false false k) /\
  (forall es, elements es -> forall k, follows_value k ->
     fix_loop false false (es ++ k) = es ++ fix_loop false false k) /\
  (forall m, member m -> forall k, follows_value k ->
     fix_loop false false (m ++ k) = m ++ fix_loop false false k) /\
  (forall ms, members ms -> forall k, follows_value k ->
     fix_loop false false (ms ++ k) = ms ++ fix_loop false false k).
Proof.
  apply json_mutind.
  - (* string *)
    intros b Hb k Hk. app_norm.
    rewrite fix_open_quote, (fix_str_body _ _ Hb), (fix_close_quote _ Hk). reflexivity.
  - intros n Hn k _. apply fix_plain_app, number_plain, Hn.
  - intros k _. apply fix_plain_app, plain_lit_true.
  - intros k _. apply fix_plain_app, plain_lit_false.
  - intros k _. apply fix_plain_app, plain_lit_null.
  - intros w Hw k _. app_norm.
    step_plain. step_plain. step_plain. reflexivity.
  - intros es _ IH k _. app_norm.
    step_plain. rewrite IH by reflexivity. step_plain. reflexivity.
  - intros w Hw k _. app_norm.
    step_plain. step_plain. step_plain. reflexivity.
  - intros ms _ IH k _. app_norm.
    step_plain. rewrite IH by reflexivity. step_plain. reflexivity.
  - (* element *)
    intros w1 v w2 Hw1 _ IH Hw2 k Hk. app_norm.
    step_plain. rewrite IH by (exists w2, k; auto). step_plain. reflexivity.
  - intros e _ IH k Hk. apply IH, Hk.
  - intros e es _ IHe _ IHes k Hk. app_norm.
    rewrite IHe by reflexivity. step_plain. rewrite IHes by exact Hk. reflexivity.
  - (* member *)
    intros w1 b w2 e Hw1 Hb Hw2 _ IH k Hk. app_norm.
    step_plain. rewrite fix_open_quote, (fix_str_body _ _ Hb), fix_close_quote
      by (exists w2, (colon :: e ++ k); split; [assumption | split; reflexivity]).
    step_plain. step_plain. rewrite IH by exact Hk. reflexivity.
  - intros m _ IH k Hk. apply IH, Hk.
  - intros m ms _ IHm _ IHms k Hk. app_norm.
    rewrite IHm by reflexivity. step_plain. rewrite IHms by exact Hk. reflexivity.
Qed.

Lemma json_text_fix_identity (s : bytes) : json_text s -> fixMalformedJSON s = s.
Proof.
  intros Hs. unfold fixMalformedJSON.
  rewrite <- (app_nil_r s) at 1.
  rewrite (proj1 (proj2 fix_json_mut) s Hs [] I). apply app_nil_r.
Qed.

Lemma str_body_cons_plain (c : ascii) (b : bytes) :
  c <> quote -> c <> backslash -> (32 <= nat_of_ascii c)%nat -> str_body b ->
  str_body (c :: b).
Proof. intros Hq Hb Hc Hbody. apply (sb_cons [c] b); [constructor|]; assumption. Qed.

End RepairValid.

(** C8: on a text that is already valid JSON (RFC 8259 grammar over
    bytes), running the repair pass [fixMalformedJSON] twice gives the
    same bytes as running it once; indeed both equal the input. *)
Theorem fixMalformedJSON_idempotent_on_valid_json (s : bytes) :
  JsonGrammar.json_text s ->
  fixMalformedJSON (fixMalformedJSON s) = fixMalformedJSON s /\ fixMalformedJSON s = s.
Proof.
  intros Hs. rewrite (json_text_fix_identity s Hs). split; [|reflexivity].
  apply json_text_fix_identity, Hs.
Qed.

Lemma fixMalformedJSON_idempotent_on_valid_json_witness :
  JsonGrammar.json_text (jq "[{'title': 'A'}]") /\
  fixMalformedJSON (fixMalformedJSON (jq "[{'title': 'A'}]"))
  = fixMalformedJSON (jq "[{'title': 'A'}]").
Proof.
  assert (Hs : JsonGrammar.json_text (jq "[{'title': 'A'}]")).
  { replace (jq "[{'title': 'A'}]") with
      ([] ++ (Json.bracket_open ::
        ([] ++ (JsonGrammar.brace_open ::
          ([] ++ (quote :: list_ascii_of_string "title" ++ [quote]) ++ []
              ++ JsonGrammar.colon ::
              ([" "%char] ++ (quote :: ["A"%char] ++ [quote]) ++ []))
          ++ [JsonGrammar.brace_close]) ++ [])
        ++ [Json.bracket_close]) ++ [])%list by reflexivity.
    unfold JsonGrammar.json_text.
    apply JsonGrammar.el; [constructor| |constructor].
    apply JsonGrammar.v_array, JsonGrammar.els_one.
    apply JsonGrammar.el; [constructor| |constructor].
    apply JsonGrammar.v_object, JsonGrammar.mems_one.
    apply JsonGrammar.mem; [constructor| |constructor|].
    - repeat (apply str_body_cons_plain;
              [discriminate|discriminate|apply Nat.leb_le; reflexivity|]).
      constructor.
    - apply JsonGrammar.el; [| |constructor].
      + apply JsonGrammar.ws_cons; [reflexivity|constructor].
      + apply JsonGrammar.v_string.
        repeat (apply str_body_cons_plain;
                [discriminate|discriminate|apply Nat.leb_le; reflexivity|]).
        constructor. }
  split; [exact Hs|].
  apply (proj1 (fixMalformedJSON_idempotent_on_valid_json _ Hs)).
Defined.

(** ** The runner *)

Import Runner.

Section RunnerFacts.

Lemma find_map_key {A} (p : A -> bool) (f : A -> A) (l : list A) :
  (forall x, p (f x) = p x) -> find p (map f l) = option_map f (find p l).
Proof.
  intros Hf. induction l as [|x l IH]; [reflexivity|].
  simpl. rewrite Hf. destruct (p x); [reflexivity | exact IH].
Qed.

Lemma sendNotification_db (prefs : Preference) (name : string) (result : JobResult) (w : World) :
  w_db (sendNotification prefs name result w) = w_db w /\
  w_ctx_err (sendNotification prefs name result w) = w_ctx_err w.
Proof.
  unfold sendNotification.
  destruct (String.eqb (pref_DiscordWebhook prefs) ""); [split; reflexivity|].
  destruct (Error result);
    [destruct (Z.eqb (pref_NotifyFailure prefs) 0)
    | destruct (Z.eqb (pref_NotifySuccess prefs) 0);
      [|destruct (Z.eqb (ArticlesSaved result) 0)]]; split; reflexivity.
Qed.

(** The run row written by [finalizeRun] on a run still "running". *)
Lemma finalizeRun_run_row (w : World) (job : Job) (runID : Z) (result : JobResult)
    (prefs : Preference) (r : JobRun) :
  GetRun (w_db w) runID = Some r -> run_Status r = "running" ->
  exists errorMsg,
  GetRun (w_db (finalizeRun w job runID result prefs)) runID =
    Some (mkJobRun (run_ID r) (run_JobID r)
            (match Error result with
             | Some _ => StatusFailed
             | None => if Z.eqb (ArticlesSaved result) 0 then "completed_no_new"
                       else StatusCompleted
             end)
            (Some errorMsg) (Some (ArticlesSaved result)) (Some (DuplicatesSkipped result))
            (run_StartedAt r) (Some (db_now (w_db w))) (run_LogPath r)).
Proof.
  intros Hr Hs. unfold finalizeRun. rewrite Hr, Hs. simpl negb. cbv iota.
  set (rs := match Error result with
             | Some e => (StatusFailed, error_text e)
             | None => if Z.eqb (ArticlesSaved result) 0 then ("completed_no_new", "")
                       else (StatusCompleted, "") end).
  assert (Hrs : fst rs = match Error result with
             | Some _ => StatusFailed
             | None => if Z.eqb (ArticlesSaved result) 0 then "completed_no_new"
                       else StatusCompleted end)
    by (subst rs; destruct (Error result); [|destruct (Z.eqb (ArticlesSaved result) 0)];
        reflexivity).
  destruct rs as [runStatus errorMsg]. simpl in Hrs. subst runStatus.
  exists errorMsg.
  rewrite (proj1 (sendNotification_db _ _ _ _)). simpl w_db.
  set (d1 := UpdateJobRunComplete _ _ _ _ _ _).
  assert (Hd1 : GetRun d1 runID = Some (mkJobRun (run_ID r) (run_JobID r)
            (match Error result with
             | Some _ => StatusFailed
             | None => if Z.eqb (ArticlesSaved result) 0 then "completed_no_new"
                       else StatusCompleted
             end)
            (Some errorMsg) (Some (ArticlesSaved result)) (Some (DuplicatesSkipped result))
            (run_StartedAt r) (Some (db_now (w_db w))) (run_LogPath r))).
  { subst d1. unfold GetRun, UpdateJobRunComplete. simpl db_job_runs.
    rewrite find_map_key.
    - unfold GetRun in Hr. rewrite Hr. simpl.
      apply find_some in Hr as [_ Hid]. rewrite Hid. reflexivity.
    - intros x. destruct (Z.eqb (run_ID x) runID) eqn:E; simpl; rewrite ?E; reflexivity. }
  destruct (Z.eqb (job_IsOneTime job) 1); exact Hd1.
Qed.

(** The job row written by [finalizeRun] after a failed run. *)
Lemma finalizeRun_job_row_on_error (w : World) (job : Job) (runID : Z) (result : JobResult)
    (prefs : Preference) (r : JobRun) (e : run_error) (j : Job) :
  GetRun (w_db w) runID = Some r -> run_Status r = "running" ->
  Error result = Some e ->
  GetJobByID (w_db w) (job_ID job) = Some j ->
  exists j', GetJobByID (w_db (finalizeRun w job runID result prefs)) (job_ID job) = Some j'
    /\ job_Status j' = StatusFailed /\ job_NextRunAt j' = None
    /\ job_LastRunAt j' = Some (db_now (w_db w)).
Proof.
  intros Hr Hs He Hj. unfold finalizeRun. rewrite Hr, Hs, He. simpl negb. cbv iota.
  rewrite (proj1 (sendNotification_db _ _ _ _)). simpl w_db.
  rewrite andb_false_r.
  assert (Hkey : forall (f : Job -> Job), (forall x, job_ID (f x) = job_ID x) ->
            forall x, Z.eqb (job_ID (f x)) (job_ID job) = Z.eqb (job_ID x) (job_ID job))
    by (intros f Hf x; rewrite Hf; reflexivity).
  set (d1 := UpdateJobRunComplete _ _ _ _ _ _).
  assert (Hj1 : exists j1, GetJobByID (if Z.eqb (job_IsOneTime job) 1
                             then DeactivateJob d1 (job_ID job) else d1) (job_ID job) = Some j1).
  { destruct (Z.eqb (job_IsOneTime job) 1); unfold GetJobByID, DeactivateJob; subst d1;
      simpl db_jobs; [rewrite find_map_key|]; unfold GetJobByID in Hj; rewrite ?Hj;
      [eexists; reflexivity| |eexists; reflexivity].
    intros x. destruct (Z.eqb (job_ID x) (job_ID job)) eqn:E; simpl; rewrite ?E; reflexivity. }
  destruct Hj1 as [j1 Hj1].
  unfold GetJobByID, UpdateJobConversation, UpdateJobStatus. simpl db_jobs.
  rewrite !find_map_key.
  - unfold GetJobByID in Hj1. rewrite Hj1. simpl.
    apply find_some in Hj1 as [_ Hid]. rewrite Hid. simpl. rewrite Hid.
    eexists; repeat split; reflexivity.
  - intros x. destruct (Z.eqb (job_ID x) (job_ID job)) eqn:E; simpl; rewrite ?E; reflexivity.
  - intros x. destruct (Z.eqb (job_ID x) (job_ID job)) eqn:E; simpl; rewrite ?E; reflexivity.
Qed.

End RunnerFacts.

(** C6: when [finalizeRun] finalizes a run still "running", the run's
    status becomes "failed" if the run produced an error, else
    "completed_no_new" when no new article was saved, else "completed". *)
Theorem finalizeRun_run_status (w : World) (job : Job) (runID : Z) (result : JobResult)
    (prefs : Preference) (r : JobRun) :
  GetRun (w_db w) runID = Some r -> run_Status r = "running" ->
  exists r', GetRun (w_db (finalizeRun w job runID result prefs)) runID = Some r' /\
    run_Status r' = match Error result with
                    | Some _ => "failed"
                    | None => if Z.eqb (ArticlesSaved result) 0 then "completed_no_new"
                              else "completed"
                    end.
Proof.
  intros Hr Hs. destruct (finalizeRun_run_row w job runID result prefs r Hr Hs) as [m Hm].
  eexists. split; [exact Hm|]. reflexivity.
Qed.

Lemma finalizeRun_run_status_witness :
  GetRun (w_db RunnerSamples.sample_world) 3 = Some RunnerSamples.sample_run /\
  exists r', GetRun (w_db (finalizeRun RunnerSamples.sample_world RunnerSamples.sample_job 3
                              (mkJobResult 0 1 "conv-1" None) zero_preference)) 3 = Some r' /\
    run_Status r' = "completed_no_new".
Proof.
  split; [reflexivity|].
  apply (finalizeRun_run_status RunnerSamples.sample_world RunnerSamples.sample_job 3
           (mkJobResult 0 1 "conv-1" None) zero_preference RunnerSamples.sample_run);
    reflexivity.
Defined.

(** C2: on a recurring job ([IsOneTime = 0]) whose run ends in an error,
    [finalizeRun] marks the job "failed" and writes an empty
    [next_run_at]: [UpdateJobStatus] sets the column to the [nextRunAt]
    it is given, which is left unset when there is an error. *)
Theorem finalizeRun_failure_clears_next_run_at (w : World) (job : Job) (runID : Z)
    (result : JobResult) (prefs : Preference) (r : JobRun) (e : run_error) (j : Job) :
  GetRun (w_db w) runID = Some r -> run_Status r = "running" ->
  Error result = Some e -> job_IsOneTime job = 0 ->
  GetJobByID (w_db w) (job_ID job) = Some j ->
  exists j', GetJobByID (w_db (finalizeRun w job runID result prefs)) (job_ID job) = Some j'
    /\ job_Status j' = "failed" /\ job_NextRunAt j' = None.
Proof.
  intros Hr Hs He _ Hj.
  destruct (finalizeRun_job_row_on_error w job runID result prefs r e j Hr Hs He Hj)
    as (j' & Hj' & Hst & Hnext & _).
  exists j'. repeat split; assumption.
Qed.

Lemma finalizeRun_failure_clears_next_run_at_witness :
  job_NextRunAt RunnerSamples.sample_job = Some 90000 /\
  exists j', GetJobByID (w_db (finalizeRun RunnerSamples.sample_world RunnerSamples.sample_job 3
                                 (mkJobResult 0 0 "conv-1" (Some (ErrTimedOut 1500)))
                                 zero_preference)) 7 = Some j'
    /\ job_Status j' = "failed" /\ job_NextRunAt j' = None.
Proof.
  split; [reflexivity|].
  apply (finalizeRun_failure_clears_next_run_at RunnerSamples.sample_world
           RunnerSamples.sample_job 3 (mkJobResult 0 0 "conv-1" (Some (ErrTimedOut 1500)))
           zero_preference RunnerSamples.sample_run (ErrTimedOut 1500)
           RunnerSamples.sample_job); reflexivity.
Defined.

Section Cancellation.
Import RunnerSamples.
Local Open Scope list_scope.

Lemma pollForCompletion_cancelled (env : Env) (pre post : list poll_event) (w : World) :
  Forall tick_incomplete pre ->
  pollForCompletion env (pre ++ EvCtxDone :: post) w
  = (mkWorld (w_db w) true (w_sent w), inl ErrCtxCanceled).
Proof.
  induction 1 as [|ev pre Hev _ IH]; [reflexivity|].
  destruct ev as [| |[c|]]; simpl in Hev |- *; [contradiction|contradiction| |exact IH].
  rewrite Hev. exact IH.
Qed.

Lemma executeJob_cancelled (env : Env) (w : World) (job : Job) (pre post : list poll_event) :
  env_mkdir env = None ->
  (snd (checkExistingConversation env job) = true ->
   exists convID, env_create_conversation env = inr convID) ->
  env_poll env = pre ++ EvCtxDone :: post ->
  Forall tick_incomplete pre ->
  exists convID, executeJob env w job =
    (mkWorld (UpdateJobConversation (w_db w) (job_ID job) (Some convID)) true (w_sent w),
     mkJobResult 0 0 convID (Some ErrCtxCanceled)).
Proof.
  intros Hm Hc Hp Hpre. unfold executeJob. rewrite Hm, Hp.
  destruct (checkExistingConversation env job) as [c0 [|]]; simpl in Hc.
  - destruct (Hc eq_refl) as [convID Hid]. rewrite Hid. exists convID.
    rewrite (pollForCompletion_cancelled _ _ _ _ Hpre). reflexivity.
  - exists c0. rewrite (pollForCompletion_cancelled _ _ _ _ Hpre). reflexivity.
Qed.

Lemma next_run_id_gt (d : DB) (x : JobRun) :
  In x (db_job_runs d) -> run_ID x < next_run_id d.
Proof.
  unfold next_run_id. destruct d as [js rs arts ps now]. cbn [db_job_runs].
  intros Hin. enough (run_ID x <= fold_right (fun r m => Z.max (run_ID r) m) 0 rs) by lia.
  induction rs as [|y rs IH]; [destruct Hin|].
  destruct Hin as [<-|Hin]; simpl; [lia|]. specialize (IH Hin). lia.
Qed.

Lemma find_fresh_last (rs : list JobRun) (r : JobRun) :
  (forall x, In x rs -> run_ID x < run_ID r) ->
  find (fun x => Z.eqb (run_ID x) (run_ID r)) (rs ++ [r]) = Some r.
Proof.
  induction rs as [|y rs IH]; intros Hlt; simpl.
  - rewrite Z.eqb_refl. reflexivity.
  - assert (Hy : run_ID y < run_ID r) by (apply Hlt; left; reflexivity).
    replace (Z.eqb (run_ID y) (run_ID r)) with false by (symmetry; apply Z.eqb_neq; lia).
    apply IH. intros x Hx. apply Hlt. right. exact Hx.
Qed.

Lemma CancelOrphanedRuns_next_run_id (d : DB) (jobID : Z) :
  next_run_id (CancelOrphanedRuns d jobID) = next_run_id d.
Proof.
  unfold next_run_id, CancelOrphanedRuns. cbn [db_job_runs set_job_runs]. f_equal.
  induction (db_job_runs d) as [|y rs IH]; [reflexivity|].
  cbn [map fold_right]. rewrite IH.
  destruct (Z.eqb (run_JobID y) jobID && String.eqb (run_Status y) "running"); reflexivity.
Qed.

Lemma GetRun_UpdateJobConversation (d : DB) (id : Z) (c : option string) (k : Z) :
  GetRun (UpdateJobConversation d id c) k = GetRun d k.
Proof. reflexivity. Qed.

Lemma GetRun_UpdateJobRunLogPath (d : DB) (id : Z) (p : string) (r : JobRun) :
  GetRun d id = Some r ->
  GetRun (UpdateJobRunLogPath d id p) id =
    Some (mkJobRun (run_ID r) (run_JobID r) (run_Status r) (run_ErrorMessage r)
            (run_ArticlesSaved r) (run_DuplicatesSkipped r) (run_StartedAt r)
            (run_CompletedAt r) p).
Proof.
  intros Hr. unfold GetRun, UpdateJobRunLogPath. cbn [db_job_runs set_job_runs].
  rewrite find_map_key.
  - unfold GetRun in Hr. rewrite Hr. simpl.
    apply find_some in Hr as [_ Hid]. rewrite Hid. reflexivity.
  - intros x. destruct (Z.eqb (run_ID x) id) eqn:E; simpl; rewrite ?E; reflexivity.
Qed.

(** What [Run] leaves when the poll is cancelled. *)
Lemma Run_cancelled (env : Env) (w : World) (job : Job) (pre post : list poll_event) :
  GetJobByID (w_db w) (job_ID job) = Some job ->
  env_mkdir env = None ->
  (snd (checkExistingConversation env job) = true ->
   exists convID, env_create_conversation env = inr convID) ->
  env_poll env = pre ++ EvCtxDone :: post ->
  Forall tick_incomplete pre ->
  let d1 := CancelOrphanedRuns (w_db w) (job_ID job) in
  let d2 := snd (CreateJobRun d1 (job_ID job)) in
  let d3 := UpdateJobStatus d2 (job_ID job) StatusRunning None (job_NextRunAt job) in
  let d4 := setupLogging env d3 (next_run_id (w_db w)) in
  exists convID, Run env w (job_ID job) =
    (mkWorld (UpdateJobConversation d4 (job_ID job) (Some convID)) true (w_sent w),
     Some ErrCtxCanceled).
Proof.
  intros Hj Hm Hc Hp Hpre. cbv zeta. unfold Run. rewrite Hj.
  cbv zeta. unfold CreateJobRun at 1. cbv iota beta zeta.
  match goal with
  | |- context [executeJob env ?w0 job] =>
    destruct (executeJob_cancelled env w0 job pre post Hm Hc Hp Hpre) as [convID Hex];
    rewrite Hex
  end.
  exists convID. simpl. rewrite CancelOrphanedRuns_next_run_id. reflexivity.
Qed.

End Cancellation.

(** C1: when the context is cancelled while [pollForCompletion] waits
    (every earlier poll round failed or saw the conversation unfinished),
    [Run] and [Resume] return [context canceled] without [finalizeRun]:
    the run is still "running" with no error message, counts or
    completion time, and no Discord message is sent.  For [Run] this is
    the run it created; for [Resume] no run row changes at all. *)
Theorem cancelled_poll_leaves_run_running (env : Env) (w : World) (job : Job)
    (pre post : list poll_event) :
  env_mkdir env = None ->
  (snd (checkExistingConversation env job) = true ->
   exists convID, env_create_conversation env = inr convID) ->
  env_poll env = (pre ++ EvCtxDone :: post)%list ->
  Forall RunnerSamples.tick_incomplete pre ->
  (GetJobByID (w_db w) (job_ID job) = Some job ->
   snd (Run env w (job_ID job)) = Some ErrCtxCanceled /\
   w_sent (fst (Run env w (job_ID job))) = w_sent w /\
   exists r, GetRun (w_db (fst (Run env w (job_ID job)))) (next_run_id (w_db w)) = Some r /\
     run_Status r = "running" /\ run_ErrorMessage r = None /\ run_ArticlesSaved r = None /\
     run_DuplicatesSkipped r = None /\ run_CompletedAt r = None) /\
  (forall run : JobRun,
   GetRun (w_db w) (run_ID run) = Some run -> run_Status run = "running" ->
   GetJobByID (w_db w) (run_JobID run) = Some job ->
   snd (Resume env w (run_ID run)) = Some ErrCtxCanceled /\
   w_sent (fst (Resume env w (run_ID run))) = w_sent w /\
   db_job_runs (w_db (fst (Resume env w (run_ID run)))) = db_job_runs (w_db w)).
Proof.
  intros Hm Hc Hp Hpre. split.
  - intros Hj.
    destruct (Run_cancelled env w job pre post Hj Hm Hc Hp Hpre) as [convID Hrun].
    rewrite Hrun. cbn [fst snd w_sent w_db]. split; [reflexivity|]. split; [reflexivity|].
    rewrite GetRun_UpdateJobConversation.
    set (r0 := mkJobRun (next_run_id (w_db w)) (job_ID job) "running" None None None
                 (db_now (w_db w)) None "").
    assert (Hfind : GetRun (UpdateJobStatus (snd (CreateJobRun
              (CancelOrphanedRuns (w_db w) (job_ID job)) (job_ID job))) (job_ID job)
              StatusRunning None (job_NextRunAt job)) (next_run_id (w_db w)) = Some r0).
    { unfold GetRun, UpdateJobStatus, CreateJobRun. cbn [db_job_runs set_jobs set_job_runs snd].
      rewrite CancelOrphanedRuns_next_run_id.
      apply (find_fresh_last _ r0). intros x Hx. simpl.
      rewrite <- (CancelOrphanedRuns_next_run_id (w_db w) (job_ID job)).
      apply next_run_id_gt. exact Hx. }
    unfold setupLogging. destruct (env_logs_mkdir_ok env).
    + rewrite (GetRun_UpdateJobRunLogPath _ _ _ _ Hfind).
      eexists. split; [reflexivity|]. repeat split; reflexivity.
    + exists r0. split; [exact Hfind|]. repeat split; reflexivity.
  - intros run Hr Hs Hj. unfold Resume. rewrite Hr, Hs. simpl negb. cbv iota. rewrite Hj.
    cbv zeta.
    destruct (executeJob_cancelled env w job pre post Hm Hc Hp Hpre) as [convID Hex].
    rewrite Hex. simpl. repeat split; reflexivity.
Qed.

Lemma cancelled_poll_leaves_run_running_witness :
  exists r,
  snd (Run RunnerSamples.sample_env RunnerSamples.sample_world 7) = Some ErrCtxCanceled /\
  GetRun (w_db (fst (Run RunnerSamples.sample_env RunnerSamples.sample_world 7))) 4 = Some r /\
  run_Status r = "running" /\ run_CompletedAt r = None /\
  w_sent (fst (Run RunnerSamples.sample_env RunnerSamples.sample_world 7)) = [].
Proof.
  assert (H := cancelled_poll_leaves_run_running RunnerSamples.sample_env
                 RunnerSamples.sample_world RunnerSamples.sample_job [EvTick None] []
                 eq_refl (fun _ => ex_intro _ "conv-2" eq_refl) eq_refl
                 (Forall_cons (EvTick None) I (Forall_nil _))).
  destruct H as [Hrun _].
  destruct (Hrun eq_refl) as (Herr & Hsent & r & Hr & Hst & _ & _ & _ & Hc).
  exists r. repeat split; assumption.
Defined.

Section Dedup.
Import RunnerSamples.
Local Open Scope list_scope.

Lemma count_user_url_snoc (u : Z) (url : string) (arts : list Article) (a : Article) :
  count_user_url u url (arts ++ [a]) =
  (count_user_url u url arts + if same_user_url u url a then 1 else 0)%nat.
Proof.
  unfold count_user_url. induction arts as [|x arts IH]; simpl.
  - destruct (same_user_url u url a); reflexivity.
  - destruct (same_user_url u url x); simpl; rewrite ?IH; reflexivity.
Qed.

Lemma existsb_filter_nil {A} (p : A -> bool) (l : list A) :
  filter p l = [] -> existsb p l = false.
Proof.
  induction l as [|x l IH]; simpl; [reflexivity|].
  destruct (p x); [discriminate|exact IH].
Qed.

Definition new_article (d : DB) (job : Job) (info : ArticleInfo) (path : string) : Article :=
  mkArticle (job_ID job) (job_UserID job) (Title info) (URL info) (Summary info) path (db_now d).

(** [insertArticle] either finds the URL and reports a duplicate, or
    finds none and stores exactly one new row. *)
Lemma insertArticle_cases (d : DB) (job : Job) (info : ArticleInfo) (path : string) :
  ((0 < count_user_url (job_UserID job) (URL info) (db_articles d))%nat /\
   insertArticle d job info path = (d, Some false)) \/
  (count_user_url (job_UserID job) (URL info) (db_articles d) = 0%nat /\
   insertArticle d job info path =
     (set_articles d (db_articles d ++ [new_article d job info path]), Some true)).
Proof.
  unfold insertArticle, ArticleExistsByURL.
  fold (count_user_url (job_UserID job) (URL info) (db_articles d)).
  destruct (Z.ltb 0 (Z.of_nat (count_user_url (job_UserID job) (URL info) (db_articles d))))
    eqn:E.
  - left. split; [|reflexivity]. apply Z.ltb_lt in E. lia.
  - right. apply Z.ltb_ge in E.
    assert (Hc : count_user_url (job_UserID job) (URL info) (db_articles d) = 0%nat) by lia.
    split; [exact Hc|].
    unfold CreateArticle.
    rewrite (existsb_filter_nil _ _ (proj1 (length_zero_iff_nil _) Hc)), andb_false_r.
    reflexivity.
Qed.

Lemma same_user_url_new (d : DB) (job : Job) (info : ArticleInfo) (path : string)
    (u : Z) (url : string) :
  same_user_url u url (new_article d job info path) = true ->
  u = job_UserID job /\ url = URL info.
Proof.
  unfold same_user_url, new_article. simpl. intros H.
  apply andb_prop in H as [H1 H2]. apply Z.eqb_eq in H1. apply String.eqb_eq in H2.
  split; symmetry; assumption.
Qed.

Lemma insertArticle_unique (d : DB) (job : Job) (info : ArticleInfo) (path : string) :
  unique_article_urls (db_articles d) ->
  unique_article_urls (db_articles (fst (insertArticle d job info path))).
Proof.
  intros Hu.
  destruct (insertArticle_cases d job info path) as [[_ ->]|[H0 ->]]; [exact Hu|].
  intros u url Hurl. simpl. rewrite count_user_url_snoc.
  destruct (same_user_url u url (new_article d job info path)) eqn:E.
  - destruct (same_user_url_new _ _ _ _ _ _ E) as [-> ->]. rewrite H0. lia.
  - specialize (Hu u url Hurl). lia.
Qed.

End Dedup.

(** C3: inserting an article whose (user, URL) is already stored adds no
    row and reports a duplicate; inserting keeps at most one article per
    (user, non-empty URL); and inserting the same (user, non-empty URL)
    twice leaves exactly one stored article, the second attempt being a
    duplicate. *)
Theorem insertArticle_dedup :
  (forall (d : DB) (job : Job) (info : ArticleInfo) (path : string),
     0 < ArticleExistsByURL d (job_UserID job) (URL info) ->
     insertArticle d job info path = (d, Some false)) /\
  (forall (d : DB) (job : Job) (info : ArticleInfo) (path : string),
     RunnerSamples.unique_article_urls (db_articles d) ->
     RunnerSamples.unique_article_urls (db_articles (fst (insertArticle d job info path)))) /\
  (forall (d : DB) (job job' : Job) (info info' : ArticleInfo) (path path' : string),
     RunnerSamples.unique_article_urls (db_articles d) ->
     URL info <> "" -> job_UserID job' = job_UserID job -> URL info' = URL info ->
     let d1 := fst (insertArticle d job info path) in
     insertArticle d1 job' info' path' = (d1, Some false) /\
     RunnerSamples.count_user_url (job_UserID job) (URL info) (db_articles d1) = 1%nat).
Proof.
  assert (Hdup : forall (d : DB) (job : Job) (info : ArticleInfo) (path : string),
     0 < ArticleExistsByURL d (job_UserID job) (URL info) ->
     insertArticle d job info path = (d, Some false)).
  { intros d job info path H. unfold insertArticle.
    apply Z.ltb_lt in H. rewrite H. reflexivity. }
  split; [exact Hdup|]. split; [exact insertArticle_unique|].
  intros d job job' info info' path path' Hu Hurl Hj Hi. cbv zeta.
  assert (Hu1 := insertArticle_unique d job info path Hu).
  assert (Hpos : (0 < RunnerSamples.count_user_url (job_UserID job) (URL info)
                        (db_articles (fst (insertArticle d job info path))))%nat).
  { destruct (insertArticle_cases d job info path) as [[Hc ->]|[Hc ->]]; [exact Hc|].
    simpl. rewrite count_user_url_snoc.
    unfold same_user_url, new_article. simpl. rewrite Z.eqb_refl, String.eqb_refl. simpl. lia. }
  split.
  - apply Hdup. rewrite Hj, Hi. unfold ArticleExistsByURL.
    fold (RunnerSamples.count_user_url (job_UserID job) (URL info)
            (db_articles (fst (insertArticle d job info path)))). lia.
  - specialize (Hu1 (job_UserID job) (URL info) Hurl). lia.
Qed.

Lemma insertArticle_dedup_witness :
  RunnerSamples.unique_article_urls (db_articles RunnerSamples.sample_db) /\
  insertArticle (fst (insertArticle RunnerSamples.sample_db RunnerSamples.sample_job
                        RunnerSamples.sample_info "a1.txt"))
    RunnerSamples.sample_job RunnerSamples.sample_info "a2.txt"
  = (fst (insertArticle RunnerSamples.sample_db RunnerSamples.sample_job
            RunnerSamples.sample_info "a1.txt"), Some false) /\
  RunnerSamples.count_user_url 1 "https://example.com/a"
    (db_articles (fst (insertArticle RunnerSamples.sample_db RunnerSamples.sample_job
                        RunnerSamples.sample_info "a1.txt"))) = 1%nat.
Proof.
  assert (Hu : RunnerSamples.unique_article_urls (db_articles RunnerSamples.sample_db))
    by (intros u url _; unfold RunnerSamples.count_user_url; simpl; lia).
  split; [exact Hu|].
  apply (proj2 (proj2 insertArticle_dedup) RunnerSamples.sample_db RunnerSamples.sample_job
           RunnerSamples.sample_job RunnerSamples.sample_info RunnerSamples.sample_info
           "a1.txt" "a2.txt" Hu); [discriminate | reflexivity | reflexivity].
Defined.

(* ------------------------------------------------------------------ *)
(** ** The agent service's conversations (shelley.go) *)

Section ShelleyFacts.
Import Shelley ShelleySamples.

Lemma last_agent_end_of_turn_skip (l r : list Message) :
  Forall not_agent l ->
  last_agent_end_of_turn (l ++ r) = last_agent_end_of_turn r.
Proof.
  induction 1 as [|m l Hm _ IH]; [reflexivity|].
  cbn [app last_agent_end_of_turn].
  apply String.eqb_neq in Hm. rewrite Hm. exact IH.
Qed.

Lemma last_agent_text_cons (m : Message) (t : list Message) :
  last_agent_text (m :: t) =
  match agent_text m with Some s => s | None => last_agent_text t end.
Proof.
  unfold agent_text. cbn [last_agent_text].
  destruct (String.eqb (msg_Type m) "agent"); [|reflexivity].
  destruct (decode_llm_data (msg_LLMData m)); reflexivity.
Qed.

Lemma last_agent_text_skip (l r : list Message) :
  Forall (fun m => agent_text m = None) l ->
  last_agent_text (l ++ r) = last_agent_text r.
Proof.
  induction 1 as [|m l Hm _ IH]; [reflexivity|].
  cbn [app]. rewrite last_agent_text_cons, Hm. exact IH.
Qed.

Lemma first_text_nonempty (bs : list ContentBlock) (s : string) :
  first_text bs = Some s -> s <> "".
Proof.
  induction bs as [|b t IH]; cbn [first_text]; [discriminate|].
  destruct (Z.eqb (block_Type b) 2 && negb (String.eqb (block_Text b) "")) eqn:E.
  - intros H. injection H as <-. apply andb_prop in E as [_ E].
    apply negb_true_iff, String.eqb_neq in E. exact E.
  - exact IH.
Qed.

Lemma agent_text_nonempty (m : Message) (s : string) :
  agent_text m = Some s -> s <> "".
Proof.
  unfold agent_text.
  destruct (String.eqb (msg_Type m) "agent"); [|discriminate].
  destruct (decode_llm_data (msg_LLMData m)) as [bs|]; [|discriminate].
  apply first_text_nonempty.
Qed.

End ShelleyFacts.

(** IsComplete without a [working] field: the conversation is complete
    exactly when the latest message of type "agent" ends its turn; the
    messages after it, of other types, do not count. *)
Theorem IsComplete_latest_agent_message (c : Shelley.Conversation)
    (pre : list Shelley.Message) (m : Shelley.Message) (post : list Shelley.Message) :
  Shelley.conv_Working c = None ->
  Shelley.conv_Messages c = (pre ++ m :: post)%list ->
  Shelley.msg_Type m = "agent" ->
  Forall ShelleySamples.not_agent post ->
  Shelley.IsComplete c = Shelley.msg_EndOfTurn m.
Proof.
  intros Hw Hm Ht Hpost. unfold Shelley.IsComplete. rewrite Hw, Hm.
  rewrite rev_app_distr. cbn [rev]. rewrite <- app_assoc.
  rewrite last_agent_end_of_turn_skip by (apply Forall_rev; exact Hpost).
  cbn [app Shelley.last_agent_end_of_turn]. rewrite Ht. reflexivity.
Qed.

Lemma IsComplete_latest_agent_message_witness :
  Shelley.IsComplete
    (ShelleySamples.conversation
       [ShelleySamples.user_prompt; ShelleySamples.agent_reply; ShelleySamples.user_late])
  = true.
Proof.
  change true with (Shelley.msg_EndOfTurn ShelleySamples.agent_reply).
  apply (IsComplete_latest_agent_message _ [ShelleySamples.user_prompt]
           ShelleySamples.agent_reply [ShelleySamples.user_late]);
    [reflexivity | reflexivity | reflexivity |].
  constructor; [unfold ShelleySamples.not_agent; simpl; discriminate | constructor].
Defined.

Section ShelleyText.
Import Shelley.

Lemma last_agent_text_empty (l : list Message) :
  last_agent_text l = "" -> Forall (fun m => agent_text m = None) l.
Proof.
  induction l as [|m t IH]; intros H; [constructor|].
  rewrite last_agent_text_cons in H.
  destruct (agent_text m) as [s|] eqn:E.
  - exfalso. exact (agent_text_nonempty m s E H).
  - constructor; [exact E | exact (IH H)].
Qed.

End ShelleyText.

(** GetLastAgentText returns the first non-empty text block (type 2) of
    the latest agent message whose [llm_data] decodes without error and
    has such a block; later messages without one are skipped. *)
Theorem GetLastAgentText_latest_text (c : Shelley.Conversation)
    (pre : list Shelley.Message) (m : Shelley.Message) (post : list Shelley.Message)
    (s : string) :
  Shelley.conv_Messages c = (pre ++ m :: post)%list ->
  Shelley.agent_text m = Some s ->
  Forall (fun m' => Shelley.agent_text m' = None) post ->
  Shelley.GetLastAgentText c = s.
Proof.
  intros Hm Hs Hpost. unfold Shelley.GetLastAgentText. rewrite Hm.
  rewrite rev_app_distr. cbn [rev]. rewrite <- app_assoc.
  rewrite last_agent_text_skip by (apply Forall_rev; exact Hpost).
  cbn [app]. rewrite last_agent_text_cons, Hs. reflexivity.
Qed.

Lemma GetLastAgentText_latest_text_witness :
  Shelley.agent_text ShelleySamples.agent_reply = Some "[]" /\
  Shelley.GetLastAgentText
    (ShelleySamples.conversation
       [ShelleySamples.user_prompt; ShelleySamples.agent_reply;
        ShelleySamples.agent_bad; ShelleySamples.user_late])
  = "[]".
Proof.
  split; [vm_compute; reflexivity|].
  apply (GetLastAgentText_latest_text _ [ShelleySamples.user_prompt]
           ShelleySamples.agent_reply [ShelleySamples.agent_bad; ShelleySamples.user_late]).
  - reflexivity.
  - vm_compute. reflexivity.
  - constructor; [vm_compute; reflexivity|].
    constructor; [vm_compute; reflexivity | constructor].
Defined.

(** GetLastAgentText is the empty string exactly when no message is an
    agent message with a decodable [llm_data] holding a non-empty text
    block. *)
Theorem GetLastAgentText_empty_iff (c : Shelley.Conversation) :
  Shelley.GetLastAgentText c = "" <->
  Forall (fun m => Shelley.agent_text m = None) (Shelley.conv_Messages c).
Proof.
  unfold Shelley.GetLastAgentText. split.
  - intros H. apply last_agent_text_empty in H.
    apply Forall_rev in H. rewrite rev_involutive in H. exact H.
  - intros H. rewrite <- (app_nil_r (rev _)).
    rewrite last_agent_text_skip by (apply Forall_rev; exact H). reflexivity.
Qed.

(* ------------------------------------------------------------------ *)
(** ** More of the runner: finalizeRun, sendNotification,
       processArticles, pollForCompletion, Run *)

Section RunnerMore.
Local Open Scope list_scope.

Ltac map_key_tac :=
  let x := fresh "x" in let E := fresh "E" in
  intros x; match goal with
  | |- context [Z.eqb (?f x) ?k] => destruct (Z.eqb (f x) k) eqn:E; simpl; rewrite ?E; reflexivity
  end.

Lemma GetJobByID_UpdateJobStatus (d : DB) (id : Z) (st : string) (l n : option Z) (j : Job) :
  GetJobByID d id = Some j ->
  GetJobByID (UpdateJobStatus d id st l n) id =
    Some (mkJob (job_ID j) (job_UserID j) (job_Name j) (job_Frequency j) (job_IsOneTime j)
            (job_IsActive j) st l n (job_CurrentConversationID j) (db_now d)).
Proof.
  intros Hj. unfold GetJobByID, UpdateJobStatus in *. cbn [db_jobs set_jobs].
  rewrite find_map_key by map_key_tac. rewrite Hj. simpl.
  apply find_some in Hj as [_ Hid]. rewrite Hid. reflexivity.
Qed.

Lemma GetJobByID_UpdateJobConversation (d : DB) (id : Z) (c : option string) (j : Job) :
  GetJobByID d id = Some j ->
  GetJobByID (UpdateJobConversation d id c) id =
    Some (mkJob (job_ID j) (job_UserID j) (job_Name j) (job_Frequency j) (job_IsOneTime j)
            (job_IsActive j) (job_Status j) (job_LastRunAt j) (job_NextRunAt j) c
            (job_UpdatedAt j)).
Proof.
  intros Hj. unfold GetJobByID, UpdateJobConversation in *. cbn [db_jobs set_jobs].
  rewrite find_map_key by map_key_tac. rewrite Hj. simpl.
  apply find_some in Hj as [_ Hid]. rewrite Hid. reflexivity.
Qed.

Lemma GetJobByID_DeactivateJob (d : DB) (id : Z) (j : Job) :
  GetJobByID d id = Some j ->
  GetJobByID (DeactivateJob d id) id =
    Some (mkJob (job_ID j) (job_UserID j) (job_Name j) (job_Frequency j) (job_IsOneTime j)
            0 (job_Status j) (job_LastRunAt j) (job_NextRunAt j) (job_CurrentConversationID j)
            (db_now d)).
Proof.
  intros Hj. unfold GetJobByID, DeactivateJob in *. cbn [db_jobs set_jobs].
  rewrite find_map_key by map_key_tac. rewrite Hj. simpl.
  apply find_some in Hj as [_ Hid]. rewrite Hid. reflexivity.
Qed.

(** The job row written by [finalizeRun] on a run still "running". *)
Lemma finalizeRun_job_row (w : World) (job : Job) (runID : Z) (result : JobResult)
    (prefs : Preference) (r : JobRun) (j : Job) :
  GetRun (w_db w) runID = Some r -> run_Status r = "running" ->
  GetJobByID (w_db w) (job_ID job) = Some j ->
  GetJobByID (w_db (finalizeRun w job runID result prefs)) (job_ID job) =
    Some (mkJob (job_ID j) (job_UserID j) (job_Name j) (job_Frequency j) (job_IsOneTime j)
            (if Z.eqb (job_IsOneTime job) 1 then 0 else job_IsActive j)
            (match Error result with Some _ => StatusFailed | None => StatusCompleted end)
            (Some (db_now (w_db w)))
            (if Z.eqb (job_IsOneTime job) 0
                && match Error result with None => true | Some _ => false end
             then Some (CalculateNextRun (job_Frequency job) false (db_now (w_db w)))
             else None)
            (Some "") (db_now (w_db w))).
Proof.
  intros Hr Hs Hj. unfold finalizeRun. rewrite Hr, Hs. simpl negb. cbv iota.
  set (rs := match Error result with
             | Some e => (StatusFailed, error_text e)
             | None => if Z.eqb (ArticlesSaved result) 0 then ("completed_no_new", "")
                       else (StatusCompleted, "") end).
  destruct rs as [runStatus errorMsg].
  rewrite (proj1 (sendNotification_db _ _ _ _)). cbn [w_db set_db].
  set (d1 := UpdateJobRunComplete _ _ _ _ _ _).
  assert (Hj1 : GetJobByID d1 (job_ID job) = Some j) by exact Hj.
  destruct (Z.eqb (job_IsOneTime job) 1).
  - rewrite (GetJobByID_UpdateJobConversation _ _ _ _
               (GetJobByID_UpdateJobStatus _ _ _ _ _ _ (GetJobByID_DeactivateJob _ _ _ Hj1))).
    reflexivity.
  - rewrite (GetJobByID_UpdateJobConversation _ _ _ _
               (GetJobByID_UpdateJobStatus _ _ _ _ _ _ Hj1)).
    reflexivity.
Qed.

(** [finalizeRun] leaves the world as it is when the run is missing or no
    longer "running". *)
Lemma finalizeRun_noop (w : World) (job : Job) (runID : Z) (result : JobResult)
    (prefs : Preference) :
  match GetRun (w_db w) runID with
  | None => True
  | Some r => run_Status r <> "running"
  end ->
  finalizeRun w job runID result prefs = w.
Proof.
  unfold finalizeRun. destruct (GetRun (w_db w) runID) as [r|]; [|reflexivity].
  intros Hs. apply String.eqb_neq in Hs. rewrite Hs. reflexivity.
Qed.

Lemma sendNotification_sent (prefs : Preference) (name : string) (result : JobResult)
    (w : World) :
  let toggle := match Error result with
                | Some _ => pref_NotifyFailure prefs
                | None => pref_NotifySuccess prefs end in
  ((pref_DiscordWebhook prefs = "" \/ toggle = 0) ->
   sendNotification prefs name result w = w) /\
  (pref_DiscordWebhook prefs <> "" -> toggle <> 0 ->
   exists msg, sendNotification prefs name result w =
     mkWorld (w_db w) (w_ctx_err w) (w_sent w ++ [(pref_DiscordWebhook prefs, msg)])).
Proof.
  cbv zeta. unfold sendNotification. split.
  - intros [H|H].
    + rewrite H. reflexivity.
    + destruct (String.eqb (pref_DiscordWebhook prefs) ""); [reflexivity|].
      destruct (Error result); rewrite H; reflexivity.
  - intros Hw Ht. apply String.eqb_neq in Hw. rewrite Hw.
    destruct (Error result); apply Z.eqb_neq in Ht; rewrite Ht;
      [|destruct (Z.eqb (ArticlesSaved result) 0)]; eexists; reflexivity.
Qed.

End RunnerMore.

(** A run is finalized at most once: applying [finalizeRun] to the world
    it returned, for the same run, changes nothing (whatever job, result
    and preferences are passed the second time), since the run is then
    missing or no longer "running". *)
Theorem finalizeRun_at_most_once (w : World) (job job' : Job) (runID : Z)
    (result result' : JobResult) (prefs prefs' : Preference) :
  finalizeRun (finalizeRun w job runID result prefs) job' runID result' prefs'
  = finalizeRun w job runID result prefs.
Proof.
  destruct (GetRun (w_db w) runID) as [r|] eqn:Hr.
  - destruct (String.eqb (run_Status r) "running") eqn:Hs.
    + apply String.eqb_eq in Hs.
      destruct (finalizeRun_run_row w job runID result prefs r Hr Hs) as [em Hrow].
      apply finalizeRun_noop. rewrite Hrow. cbn [run_Status].
      destruct (Error result); [|destruct (Z.eqb (ArticlesSaved result) 0)]; discriminate.
    + apply String.eqb_neq in Hs.
      rewrite (finalizeRun_noop w job runID result prefs) by (rewrite Hr; exact Hs).
      apply finalizeRun_noop. rewrite Hr. exact Hs.
  - rewrite (finalizeRun_noop w job runID result prefs) by (rewrite Hr; exact I).
    apply finalizeRun_noop. rewrite Hr. exact I.
Qed.

(** When a recurring job's run ([IsOneTime = 0], still "running") ends
    without error, [finalizeRun] marks the job "completed", sets
    [last_run_at] to now and [next_run_at] to [CalculateNextRun] of the
    job's frequency from now, keeps it active and clears its conversation
    id. *)
Theorem finalizeRun_success_reschedules (w : World) (job : Job) (runID : Z)
    (result : JobResult) (prefs : Preference) (r : JobRun) (j : Job) :
  GetRun (w_db w) runID = Some r -> run_Status r = "running" ->
  Error result = None -> job_IsOneTime job = 0 ->
  GetJobByID (w_db w) (job_ID job) = Some j ->
  exists j', GetJobByID (w_db (finalizeRun w job runID result prefs)) (job_ID job) = Some j'
    /\ job_Status j' = "completed"
    /\ job_LastRunAt j' = Some (db_now (w_db w))
    /\ job_NextRunAt j' = Some (CalculateNextRun (job_Frequency job) false (db_now (w_db w)))
    /\ job_IsActive j' = job_IsActive j
    /\ job_CurrentConversationID j' = Some "".
Proof.
  intros Hr Hs He Ho Hj.
  rewrite (finalizeRun_job_row w job runID result prefs r j Hr Hs Hj), He, Ho.
  eexists. split; [reflexivity|]. repeat split.
Qed.

Lemma finalizeRun_success_reschedules_witness :
  exists j', GetJobByID (w_db (finalizeRun RunnerSamples.sample_world RunnerSamples.sample_job 3
                                 (mkJobResult 2 0 "conv-1" None) zero_preference)) 7 = Some j'
    /\ job_Status j' = "completed" /\ job_NextRunAt j' = Some (5000 + 86400)
    /\ job_IsActive j' = 1.
Proof.
  destruct (finalizeRun_success_reschedules RunnerSamples.sample_world RunnerSamples.sample_job 3
              (mkJobResult 2 0 "conv-1" None) zero_preference RunnerSamples.sample_run
              RunnerSamples.sample_job eq_refl eq_refl eq_refl eq_refl eq_refl)
    as (j' & Hj' & Hst & _ & Hn & Ha & _).
  exists j'. repeat split; assumption.
Defined.

(** A one-time job ([IsOneTime = 1]) is deactivated when its run is
    finalized, whatever the outcome: [is_active] becomes 0, no next run
    is scheduled and the conversation id is cleared. *)
Theorem finalizeRun_one_time_deactivates (w : World) (job : Job) (runID : Z)
    (result : JobResult) (prefs : Preference) (r : JobRun) (j : Job) :
  GetRun (w_db w) runID = Some r -> run_Status r = "running" ->
  job_IsOneTime job = 1 ->
  GetJobByID (w_db w) (job_ID job) = Some j ->
  exists j', GetJobByID (w_db (finalizeRun w job runID result prefs)) (job_ID job) = Some j'
    /\ job_IsActive j' = 0 /\ job_NextRunAt j' = None
    /\ job_CurrentConversationID j' = Some "".
Proof.
  intros Hr Hs Ho Hj.
  rewrite (finalizeRun_job_row w job runID result prefs r j Hr Hs Hj), Ho.
  eexists. split; [reflexivity|]. repeat split.
Qed.

Lemma finalizeRun_one_time_deactivates_witness :
  exists j', GetJobByID (w_db (finalizeRun
                (mkWorld (set_jobs RunnerSamples.sample_db
                   [mkJob 7 1 "Once" "daily" 1 1 "running" None None (Some "c") 1000])
                   false [])
                (mkJob 7 1 "Once" "daily" 1 1 "running" None None (Some "c") 1000) 3
                (mkJobResult 1 0 "c" None) zero_preference)) 7 = Some j'
    /\ job_IsActive j' = 0 /\ job_NextRunAt j' = None.
Proof.
  destruct (finalizeRun_one_time_deactivates
              (mkWorld (set_jobs RunnerSamples.sample_db
                 [mkJob 7 1 "Once" "daily" 1 1 "running" None None (Some "c") 1000]) false [])
              (mkJob 7 1 "Once" "daily" 1 1 "running" None None (Some "c") 1000) 3
              (mkJobResult 1 0 "c" None) zero_preference RunnerSamples.sample_run
              (mkJob 7 1 "Once" "daily" 1 1 "running" None None (Some "c") 1000)
              eq_refl eq_refl eq_refl eq_refl)
    as (j' & Hj' & Ha & Hn & _).
  exists j'. repeat split; assumption.
Defined.

(** [finalizeRun] hands at most one message to the Discord webhook of the
    preferences; it sends one exactly when the run was still "running",
    the webhook is set, and the toggle for the outcome (failure or
    success) is not 0. *)
Theorem finalizeRun_notification (w : World) (job : Job) (runID : Z) (result : JobResult)
    (prefs : Preference) :
  exists msgs, w_sent (finalizeRun w job runID result prefs) = (w_sent w ++ msgs)%list
    /\ (length msgs <= 1)%nat
    /\ Forall (fun p => fst p = pref_DiscordWebhook prefs) msgs
    /\ (msgs <> [] <->
        (exists r, GetRun (w_db w) runID = Some r /\ run_Status r = "running")
        /\ pref_DiscordWebhook prefs <> ""
        /\ match Error result with
           | Some _ => pref_NotifyFailure prefs
           | None => pref_NotifySuccess prefs end <> 0).
Proof.
  destruct (GetRun (w_db w) runID) as [r|] eqn:Hr;
    [destruct (String.eqb (run_Status r) "running") eqn:Hs|].
  2, 3: exists [];
    (rewrite finalizeRun_noop by (rewrite Hr; try apply String.eqb_neq; auto));
    rewrite app_nil_r; split; [reflexivity|]; split; [simpl; lia|];
    split; [apply Forall_nil|];
    (split; [intros H; contradiction|]);
    intros [[r' [Hr' Hs']] _]; try discriminate Hr';
    injection Hr' as <-; rewrite Hs', String.eqb_refl in Hs; discriminate.
  apply String.eqb_eq in Hs.
  unfold finalizeRun at 1. rewrite Hr, Hs. simpl negb. cbv iota.
  set (rs := match Error result with
             | Some e => (StatusFailed, error_text e)
             | None => if Z.eqb (ArticlesSaved result) 0 then ("completed_no_new", "")
                       else (StatusCompleted, "") end).
  destruct rs as [runStatus errorMsg]. cbv zeta.
  set (w4 := set_db w _).
  assert (Hw4 : w_sent w4 = w_sent w) by reflexivity.
  destruct (sendNotification_sent prefs (job_Name job) result w4) as [Hoff Hon].
  destruct (String.eqb (pref_DiscordWebhook prefs) "") eqn:Hwh.
  - apply String.eqb_eq in Hwh.
    rewrite (Hoff (or_introl Hwh)). exists []. rewrite Hw4, app_nil_r.
    split; [reflexivity|]. split; [simpl; lia|]. split; [constructor|].
    split; [intros H; contradiction|]. intros (_ & H & _). contradiction.
  - apply String.eqb_neq in Hwh.
    destruct (Z.eqb (match Error result with
                     | Some _ => pref_NotifyFailure prefs
                     | None => pref_NotifySuccess prefs end) 0) eqn:Ht.
    + apply Z.eqb_eq in Ht. rewrite (Hoff (or_intror Ht)). exists []. rewrite Hw4, app_nil_r.
      split; [reflexivity|]. split; [simpl; lia|]. split; [constructor|].
      split; [intros H; contradiction|]. intros (_ & _ & H). contradiction.
    + apply Z.eqb_neq in Ht. destruct (Hon Hwh Ht) as [msg Hmsg]. rewrite Hmsg.
      exists [(pref_DiscordWebhook prefs, msg)]. cbn [w_sent]. rewrite Hw4.
      split; [reflexivity|]. split; [simpl; lia|].
      split; [constructor; [reflexivity | constructor]|].
      split; [intros _; split; [exists r; split; first [reflexivity | assumption] | split; assumption]|].
      intros _. discriminate.
Qed.

Section RunnerFlow.
Import RunnerSamples.
Local Open Scope list_scope.

Lemma process_loop_spec (env : Env) (job : Job) (dir : string) (items : list (ArticleInfo * string)) :
  forall i d s u d' s' u',
  process_loop env job dir i items d s u = (d', s', u') ->
  (exists added, db_articles d' = db_articles d ++ added /\ s' = s + Z.of_nat (length added)
     /\ Forall (RunnerProps.added_by job) added) /\
  u <= u' /\ s' + u' <= s + u + Z.of_nat (length items) /\
  db_jobs d' = db_jobs d /\ db_job_runs d' = db_job_runs d /\ db_now d' = db_now d.
Proof.
  induction items as [|[info c] rest IH]; intros i d s u d' s' u' H.
  - injection H as <- <- <-. split; [exists []; rewrite app_nil_r; split; [reflexivity|];
      split; [simpl; lia | constructor]|]. simpl. repeat split; lia.
  - cbn [process_loop] in H. cbn [length]. rewrite Nat2Z.inj_succ.
    destruct (env_write_ok env i); cbn [negb] in H.
    + destruct (insertArticle_cases d job info (article_file dir i (env_timestamp env)))
        as [[_ Heq]|[_ Heq]]; rewrite Heq in H.
      * destruct (IH _ _ _ _ _ _ _ H) as (Hadd & Hu & Hsum & Hj & Hr & Hn).
        split; [exact Hadd|]. repeat split; try assumption; lia.
      * destruct (IH _ _ _ _ _ _ _ H) as ([added [Ha [Hs Hf]]] & Hu & Hsum & Hj & Hr & Hn).
        cbn [db_articles db_jobs db_job_runs db_now set_articles] in Ha, Hj, Hr, Hn.
        split.
        -- exists (new_article d job info (article_file dir i (env_timestamp env)) :: added).
           rewrite Ha, <- app_assoc. split; [reflexivity|].
           split; [cbn [length]; rewrite Nat2Z.inj_succ; lia|].
           constructor; [split; reflexivity | exact Hf].
        -- repeat split; try assumption; lia.
    + destruct (IH _ _ _ _ _ _ _ H) as (Hadd & Hu & Hsum & Hj & Hr & Hn).
      split; [exact Hadd|]. repeat split; try assumption; lia.
Qed.

Lemma length_combine_le {A B} (l : list A) (l' : list B) :
  (length (combine l l') <= length l)%nat.
Proof. rewrite length_combine. lia. Qed.

Lemma process_loop_unique (env : Env) (job : Job) (dir : string)
    (items : list (ArticleInfo * string)) :
  forall i d s u,
  unique_article_urls (db_articles d) ->
  unique_article_urls (db_articles (fst (fst (process_loop env job dir i items d s u)))).
Proof.
  induction items as [|[info c] rest IH]; intros i d s u Hu; [exact Hu|].
  cbn [process_loop]. destruct (env_write_ok env i); cbn [negb]; [|apply IH; exact Hu].
  pose proof (insertArticle_unique d job info (article_file dir i (env_timestamp env)) Hu) as Hu'.
  destruct (insertArticle d job info (article_file dir i (env_timestamp env))) as [d1 [[|]|]];
    apply IH; exact Hu'.
Qed.

Lemma pollForCompletion_world (env : Env) (evs : list poll_event) (w : World) :
  ~ In EvCtxDone evs -> fst (pollForCompletion env evs w) = w.
Proof.
  induction evs as [|ev evs IH]; intros Hin; [reflexivity|].
  assert (Hin' : ~ In EvCtxDone evs) by (intros H; apply Hin; right; exact H).
  destruct ev as [| |[c|]]; cbn [pollForCompletion].
  - exfalso. apply Hin. left. reflexivity.
  - reflexivity.
  - destruct (conv_IsComplete c); [reflexivity | exact (IH Hin')].
  - exact (IH Hin').
Qed.

(** Without a cancellation, [executeJob] leaves the context flag, the
    run rows and the clock as they were. *)
Lemma executeJob_uncancelled (env : Env) (w : World) (job : Job) :
  ~ In EvCtxDone (env_poll env) ->
  w_ctx_err (fst (executeJob env w job)) = w_ctx_err w /\
  db_job_runs (w_db (fst (executeJob env w job))) = db_job_runs (w_db w) /\
  db_now (w_db (fst (executeJob env w job))) = db_now (w_db w).
Proof.
  intros Hin. unfold executeJob.
  destruct (env_mkdir env); [repeat split; reflexivity|].
  destruct (checkExistingConversation env job) as [c0 sc].
  destruct (if sc then env_create_conversation env else inr c0) as [e|convID];
    [repeat split; reflexivity|].
  set (w1 := set_db w (UpdateJobConversation (w_db w) (job_ID job) (Some convID))).
  pose proof (pollForCompletion_world env (env_poll env) w1 Hin) as Hp.
  destruct (pollForCompletion env (env_poll env) w1) as [w2 [e|conv]]; cbn [fst] in Hp; subst w2;
    [repeat split; reflexivity|].
  destruct (ExtractArticlesJSON (conv_LastAgentText conv)) as [e|articles];
    [repeat split; reflexivity|].
  destruct ((0 <? length articles)%nat); [|repeat split; reflexivity].
  unfold processArticles.
  destruct (process_loop env job ("articles/job_" ++ fmt_d (job_ID job)) 0
              (combine articles (fetchArticleContents (env_fetch env) articles))
              (w_db w1) 0 0) as [[d3 saved] dups] eqn:E.
  destruct (process_loop_spec _ _ _ _ _ _ _ _ _ _ _ E) as (_ & _ & _ & _ & Hr & Hn).
  cbn [fst w_db w_ctx_err set_db]. rewrite Hr, Hn. repeat split; reflexivity.
Qed.

End RunnerFlow.

(** [processArticles] only appends rows to the articles table: [saved] new
    rows, all for the job and its user; [saved] plus the duplicates
    skipped is at most the number of articles; jobs and runs are not
    touched. *)
Theorem processArticles_accounting (env : Env) (d : DB) (job : Job)
    (articles : list ArticleInfo) (dir : string) :
  let '(d', saved, dups) := processArticles env d job articles dir in
  (exists added, db_articles d' = (db_articles d ++ added)%list
     /\ saved = Z.of_nat (length added) /\ Forall (RunnerProps.added_by job) added) /\
  0 <= dups /\ saved + dups <= Z.of_nat (length articles) /\
  db_jobs d' = db_jobs d /\ db_job_runs d' = db_job_runs d.
Proof.
  unfold processArticles.
  destruct (process_loop env job dir 0 (combine articles (fetchArticleContents (env_fetch env) articles))
              d 0 0) as [[d' s'] u'] eqn:E.
  destruct (process_loop_spec _ _ _ _ _ _ _ _ _ _ _ E) as ([added [Ha [Hs Hf]]] & Hu & Hsum & Hj & Hr & _).
  pose proof (length_combine_le articles (fetchArticleContents (env_fetch env) articles)).
  split; [exists added; split; [exact Ha | split; [lia | exact Hf]]|].
  repeat split; try assumption; lia.
Qed.

(** [processArticles] keeps at most one article per (user, non-empty URL)
    in the articles table. *)
Theorem processArticles_keeps_urls_unique (env : Env) (d : DB) (job : Job)
    (articles : list ArticleInfo) (dir : string) :
  RunnerSamples.unique_article_urls (db_articles d) ->
  RunnerSamples.unique_article_urls
    (db_articles (fst (fst (processArticles env d job articles dir)))).
Proof. intros Hu. apply process_loop_unique. exact Hu. Qed.

Lemma processArticles_keeps_urls_unique_witness :
  RunnerSamples.unique_article_urls
    (db_articles (fst (fst (processArticles
       (mkEnv 1500 None true (fun _ => None) (inr "c") [] RunnerSamples.sample_fetch_env
          (fun _ => true) "t")
       RunnerSamples.sample_db RunnerSamples.sample_job
       [RunnerSamples.sample_info; RunnerSamples.sample_info] "articles/job_7")))).
Proof.
  apply processArticles_keeps_urls_unique.
  intros u url _. unfold RunnerSamples.count_user_url. simpl. lia.
Defined.

(** How [pollForCompletion] ends: with a complete conversation it saw in
    a tick, the world unchanged; with [context canceled] after a done
    context, which it records; or with the timeout error, the world
    unchanged.  A failed [GetConversation] never ends the loop. *)
Theorem pollForCompletion_outcome (env : Env) (evs : list poll_event) (w : World) :
  match pollForCompletion env evs w with
  | (w', inr conv) => w' = w /\ conv_IsComplete conv = true /\ In (EvTick (Some conv)) evs
  | (w', inl ErrCtxCanceled) => w' = mkWorld (w_db w) true (w_sent w) /\ In EvCtxDone evs
  | (w', inl e) => w' = w /\ e = ErrTimedOut (env_JobTimeout env)
  end.
Proof.
  induction evs as [|ev evs IH]; [cbn; split; reflexivity|].
  destruct ev as [| |[c|]]; cbn [pollForCompletion].
  - split; [reflexivity | left; reflexivity].
  - split; reflexivity.
  - destruct (conv_IsComplete c) eqn:Hc.
    + split; [reflexivity|]. split; [exact Hc | left; reflexivity].
    + destruct (pollForCompletion env evs w) as [w' [[] | conv]];
        try exact IH; destruct IH as [H1 H2]; try (split; [exact H1 | right; exact H2]).
      destruct H2 as [H2 H3]. split; [exact H1 | split; [exact H2 | right; exact H3]].
  - destruct (pollForCompletion env evs w) as [w' [[] | conv]];
      try exact IH; destruct IH as [H1 H2]; try (split; [exact H1 | right; exact H2]).
    destruct H2 as [H2 H3]. split; [exact H1 | split; [exact H2 | right; exact H3]].
Qed.

Section RunFinal.
Local Open Scope list_scope.

(** The run row [Run] creates, before [executeJob]. *)
Lemma Run_new_row (env : Env) (w : World) (jobID : Z) (nextRunAt : option Z) :
  exists r0,
  GetRun (setupLogging env
            (UpdateJobStatus (snd (CreateJobRun (CancelOrphanedRuns (w_db w) jobID) jobID))
               jobID StatusRunning None nextRunAt)
            (next_run_id (w_db w))) (next_run_id (w_db w)) = Some r0 /\
  run_Status r0 = "running" /\ run_JobID r0 = jobID.
Proof.
  set (r0 := mkJobRun (next_run_id (w_db w)) jobID "running" None None None
               (db_now (w_db w)) None "").
  assert (Hfind : GetRun (UpdateJobStatus (snd (CreateJobRun
            (CancelOrphanedRuns (w_db w) jobID) jobID)) jobID
            StatusRunning None nextRunAt) (next_run_id (w_db w)) = Some r0).
  { unfold GetRun, UpdateJobStatus, CreateJobRun. cbn [db_job_runs set_jobs set_job_runs snd].
    rewrite CancelOrphanedRuns_next_run_id.
    apply (find_fresh_last _ r0). intros x Hx. simpl.
    rewrite <- (CancelOrphanedRuns_next_run_id (w_db w) jobID).
    apply next_run_id_gt. exact Hx. }
  unfold setupLogging. destruct (env_logs_mkdir_ok env).
  - rewrite (GetRun_UpdateJobRunLogPath _ _ _ _ Hfind).
    eexists. split; [reflexivity|]. split; reflexivity.
  - exists r0. split; [exact Hfind|]. split; reflexivity.
Qed.

End RunFinal.

(** Unless the context is cancelled, [Run] always finalizes the run it
    created, whatever the agent does (no conversation, timeout, bad
    answer or articles): the run is no longer "running", it has a
    completion time, and [Run] returns an error exactly when the run is
    recorded as "failed". *)
Theorem Run_finalizes_new_run (env : Env) (w : World) (jobID : Z) (job : Job) :
  GetJobByID (w_db w) jobID = Some job ->
  w_ctx_err w = false ->
  ~ In EvCtxDone (env_poll env) ->
  exists r, GetRun (w_db (fst (Run env w jobID))) (next_run_id (w_db w)) = Some r
    /\ run_JobID r = jobID
    /\ run_Status r <> "running"
    /\ run_CompletedAt r = Some (db_now (w_db w))
    /\ (snd (Run env w jobID) = None <-> run_Status r <> "failed").
Proof.
  intros Hj Hctx Hin. unfold Run. rewrite Hj.
  cbv zeta. unfold CreateJobRun. cbv iota beta zeta.
  destruct (Run_new_row env w jobID (job_NextRunAt job)) as (r0 & Hr0 & Hs0 & Hjob0).
  unfold CreateJobRun in Hr0. cbn [snd] in Hr0.
  rewrite CancelOrphanedRuns_next_run_id in Hr0 |- *. cbn [run_ID].
  match goal with
  | |- context [executeJob env ?w0 job] =>
    destruct (executeJob_uncancelled env w0 job Hin) as (Hc & Hruns & Hnow);
    destruct (executeJob env w0 job) as [w5 result]
  end.
  cbn [fst w_ctx_err set_db] in Hc, Hruns, Hnow. rewrite Hctx in Hc. rewrite Hc.
  assert (Hr5 : GetRun (w_db w5) (next_run_id (w_db w)) = Some r0).
  { unfold GetRun. rewrite Hruns. exact Hr0. }
  destruct (finalizeRun_run_row w5 job (next_run_id (w_db w)) result
              (GetPreferences (w_db w) (job_UserID job)) r0 Hr5 Hs0) as [em Hrow].
  cbn [fst snd run_ID]. rewrite Hrow. eexists. split; [reflexivity|].
  cbn [run_JobID run_Status run_CompletedAt]. split; [exact Hjob0|].
  rewrite Hnow. unfold setupLogging.
  split; [destruct (Error result); [|destruct (Z.eqb (ArticlesSaved result) 0)]; discriminate|].
  split; [destruct (env_logs_mkdir_ok env); reflexivity|].
  destruct (Error result); [|destruct (Z.eqb (ArticlesSaved result) 0)];
    split; intros H; try discriminate; try reflexivity; exfalso; apply H; reflexivity.
Qed.

Lemma Run_finalizes_new_run_witness :
  exists r,
  GetRun (w_db (fst (Run (mkEnv 1500 None true (fun _ => None) (inr "conv-2") [EvTick None]
                          RunnerSamples.sample_fetch_env (fun _ => true) "t")
                    RunnerSamples.sample_world 7))) 4 = Some r
  /\ run_Status r = "failed"
  /\ snd (Run (mkEnv 1500 None true (fun _ => None) (inr "conv-2") [EvTick None]
                RunnerSamples.sample_fetch_env (fun _ => true) "t")
           RunnerSamples.sample_world 7) = Some (ErrTimedOut 1500).
Proof.
  destruct (Run_finalizes_new_run (mkEnv 1500 None true (fun _ => None) (inr "conv-2") [EvTick None]
                                     RunnerSamples.sample_fetch_env (fun _ => true) "t")
              RunnerSamples.sample_world 7 RunnerSamples.sample_job eq_refl eq_refl
              (fun H => match H with
                        | or_introl e => ltac:(discriminate e)
                        | or_intror f => f end))
    as (r & Hr & _ & _ & _ & _).
  exists r. split; [exact Hr|].
  split; [|vm_compute; reflexivity].
  vm_compute in Hr. injection Hr as <-. reflexivity.
Defined.

(* ------------------------------------------------------------------ *)
(** ** Discord retries (discord.go) *)

Section DiscordMore.
Import Discord DiscordProps.

Lemma send_loop_bounds (env : http_env) (url : string) (fuel a : nat) (d : Z) :
  (1 <= a)%nat ->
  exists k, so_sleeps (send_loop env url fuel a d) = delays d k /\
    (k <= so_posts (send_loop env url fuel a d) <= 4 - a)%nat.
Proof.
  revert a d. induction fuel as [|fuel IH]; intros a d Ha; cbn [send_loop].
  - exists O. cbn [stop so_sleeps so_posts delays]. split; [reflexivity | lia].
  - destruct (Nat.leb a discordMaxRetries) eqn:Hle; [|exists O; cbn [stop so_sleeps so_posts delays]; split; [reflexivity|lia]].
    apply Nat.leb_le in Hle. unfold discordMaxRetries in Hle.
    destruct (negb (new_request_ok env url)); [exists O; cbn [stop so_sleeps so_posts delays]; split; [reflexivity|lia]|].
    assert (Hstep : forall d', exists k,
               so_sleeps (posted d' (send_loop env url fuel (S a) (d' * 2))) = delays d' k /\
               (k <= so_posts (posted d' (send_loop env url fuel (S a) (d' * 2))) <= 4 - a)%nat).
    { intros d'. destruct (IH (S a) (d' * 2) ltac:(lia)) as [k [Hk Hb]].
      exists (S k). cbn [posted so_sleeps so_posts]. rewrite Hk. split; [reflexivity|].
      destruct (Nat.eq_dec a 3); [subst a|]; lia. }
    destruct (post env a) as [e|code].
    + destruct (Nat.ltb a discordMaxRetries); [exact (Hstep d)|].
      exists O. cbn [stop so_sleeps so_posts delays]. split; [reflexivity|lia].
    + destruct (Z.eqb code 200 || Z.eqb code 204); [exists O; cbn [stop so_sleeps so_posts delays]; split; [reflexivity|lia]|].
      destruct (Z.eqb code 429); [exact (Hstep d)|].
      destruct (Nat.ltb a discordMaxRetries); [exact (Hstep d)|].
      exists O. cbn [stop so_sleeps so_posts delays]. split; [reflexivity|lia].
Qed.

Lemma send_loop_success_at (env : http_env) (url : string) (k : nat) :
  new_request_ok env url = true ->
  (k <= 3)%nat ->
  (forall i, (1 <= i < k)%nat -> ~ post_ok (post env i)) ->
  post_ok (post env k) ->
  forall fuel a d, (1 <= a <= k)%nat -> (k < fuel + a)%nat ->
  send_loop env url fuel a d =
    {| so_err := None; so_posts := S (k - a); so_sleeps := delays d (k - a) |}.
Proof.
  intros Hreq Hk Hfail Hok fuel. induction fuel as [|fuel IH]; intros a d Ha Hf; [lia|].
  cbn [send_loop]. unfold discordMaxRetries.
  replace (Nat.leb a 3) with true by (symmetry; apply Nat.leb_le; lia).
  rewrite Hreq. cbn [negb].
  destruct (Nat.eq_dec a k) as [->|Hne].
  - destruct (post env k) as [e|code] eqn:Hp; [contradiction|].
    cbn in Hok. replace (k - k)%nat with O by lia.
    destruct Hok as [->| ->]; reflexivity.
  - assert (Hnf : ~ post_ok (post env a)) by (apply Hfail; lia).
    assert (Hlt : Nat.ltb a 3 = true) by (apply Nat.ltb_lt; lia).
    assert (Hrec : posted d (send_loop env url fuel (S a) (d * 2)) =
              {| so_err := None; so_posts := S (k - a); so_sleeps := delays d (k - a) |}).
    { rewrite (IH (S a) (d * 2)) by lia. unfold posted. cbn [so_err so_posts so_sleeps].
      replace (k - a)%nat with (S (k - S a)) by lia. reflexivity. }
    destruct (post env a) as [e|code].
    + rewrite Hlt. exact Hrec.
    + cbn in Hnf.
      replace (Z.eqb code 200 || Z.eqb code 204) with false
        by (symmetry; apply orb_false_iff; split; apply Z.eqb_neq; intros ->; apply Hnf; auto).
      destruct (Z.eqb code 429); [exact Hrec|]. rewrite Hlt. exact Hrec.
Qed.

End DiscordMore.

(** Whatever the webhook server answers, [SendDiscordNotification] makes
    at most 3 POSTs, and the delays it sleeps are a prefix of 2s, 4s, 8s,
    one per POST at most (after a third rate-limited answer it still
    sleeps 8s before returning nil). *)
Theorem discord_bounded_retries (env : Discord.http_env) (webhookURL message : string) :
  exists k,
    Discord.so_sleeps (Discord.SendDiscordNotification env webhookURL message)
      = DiscordProps.delays 2000 k
    /\ (k <= Discord.so_posts (Discord.SendDiscordNotification env webhookURL message) <= 3)%nat.
Proof.
  unfold Discord.SendDiscordNotification.
  destruct (String.eqb webhookURL ""); [exists O; cbn [Discord.stop Discord.so_sleeps Discord.so_posts DiscordProps.delays]; split; [reflexivity|lia]|].
  exact (send_loop_bounds env webhookURL Discord.discordMaxRetries 1 Discord.discordRetryDelay
           ltac:(lia)).
Qed.

(** When attempts 1 to k-1 fail in any way (transport error, rate
    limiting or another status) and attempt k (at most 3) gets 200 or
    204, [SendDiscordNotification] returns nil after exactly k POSTs,
    having slept 2s, 4s, ... between them. *)
Theorem discord_success_after_retries (env : Discord.http_env) (webhookURL message : string)
    (k : nat) :
  webhookURL <> "" ->
  Discord.new_request_ok env webhookURL = true ->
  (1 <= k <= 3)%nat ->
  (forall i, (1 <= i < k)%nat -> ~ DiscordProps.post_ok (Discord.post env i)) ->
  DiscordProps.post_ok (Discord.post env k) ->
  Discord.SendDiscordNotification env webhookURL message =
    {| Discord.so_err := None; Discord.so_posts := k;
       Discord.so_sleeps := DiscordProps.delays 2000 (k - 1) |}.
Proof.
  intros Hu Hreq Hk Hfail Hok. unfold Discord.SendDiscordNotification.
  apply String.eqb_neq in Hu. rewrite Hu.
  rewrite (send_loop_success_at env webhookURL k Hreq ltac:(lia) Hfail Hok
             Discord.discordMaxRetries 1 Discord.discordRetryDelay)
    by (unfold Discord.discordMaxRetries; lia).
  f_equal. lia.
Qed.

Lemma discord_success_after_retries_witness :
  Discord.SendDiscordNotification
    {| Discord.new_request_ok := fun _ => true;
       Discord.post := fun i => match i with
                                | 1%nat => Discord.PostStatus 429
                                | 2%nat => Discord.PostTransportError "connection reset"
                                | _ => Discord.PostStatus 204 end |}
    "https://discord.example/webhook" "hello"
  = {| Discord.so_err := None; Discord.so_posts := 3%nat;
       Discord.so_sleeps := [2000; 4000] |}.
Proof.
  apply (discord_success_after_retries _ _ _ 3).
  - discriminate.
  - reflexivity.
  - lia.
  - intros i Hi. destruct i as [|[|[|i]]]; try lia; cbn; [intros [H|H] | intros []];
      discriminate.
  - right. reflexivity.
Defined.

(* ------------------------------------------------------------------ *)
(** ** Locating and repairing the JSON array (runner.go) *)

Section JsonMore.
Import Json JsonProps.
Local Open Scope list_scope.

Lemma drop_until_split (c : ascii) (s : bytes) :
  exists p, s = p ++ drop_until c s /\
    (drop_until c s = [] \/ exists t, drop_until c s = c :: t).
Proof.
  induction s as [|d s [p [Hp Hd]]]; [exists []; split; [reflexivity | left; reflexivity]|].
  cbn [drop_until]. destruct (Ascii.eqb d c) eqn:E.
  - apply Ascii.eqb_eq in E. subst d. exists []. split; [reflexivity|]. right. eexists. reflexivity.
  - exists (d :: p). split; [cbn [app]; f_equal; exact Hp | exact Hd].
Qed.

Lemma find_json_array_shape (s r : bytes) :
  find_json_array s = Some r ->
  exists m, r = bracket_open :: m ++ [bracket_close] /\ incl r s.
Proof.
  unfold find_json_array.
  destruct (drop_until_split "["%char s) as [p [Hp [Hn|[t Ht]]]].
  - rewrite Hn. discriminate.
  - rewrite Ht. rewrite Ht in Hp.
    destruct (drop_until_split "]"%char (rev ("["%char :: t))) as [q [Hq [Hn2|[u Hu]]]].
    + rewrite Hn2. discriminate.
    + rewrite Hu. intros H. injection H as <-. rewrite Hu in Hq.
      assert (Hs1 : ("["%char :: t) = rev u ++ "]"%char :: rev q).
      { rewrite <- (rev_involutive ("["%char :: t)), Hq, rev_app_distr. cbn [rev].
        rewrite <- app_assoc. reflexivity. }
      assert (Hin : incl (rev u ++ ["]"%char]) s).
      { intros x Hx. rewrite Hp. apply in_or_app. right. rewrite Hs1.
        apply in_app_or in Hx as [Hx|[<-|[]]]; apply in_or_app; [left; exact Hx|].
        right. left. reflexivity. }
      change (rev ("]"%char :: u)) with (rev u ++ ["]"%char]).
      revert Hs1 Hin. destruct (rev u) as [|a m].
      * discriminate.
      * intros Hs1 Hin. injection Hs1 as Ha _. subst a.
        exists m. split; [reflexivity | exact Hin].
Qed.

Lemma drop_spaces_incl (s : bytes) : incl (drop_spaces s) s.
Proof.
  induction s as [|c s IH]; cbn [drop_spaces]; [apply incl_refl|].
  destruct (is_go_space c); [apply incl_tl; exact IH | apply incl_refl].
Qed.

Lemma TrimSpace_incl (s : bytes) : incl (TrimSpace s) s.
Proof.
  unfold TrimSpace. intros x Hx.
  apply in_rev, drop_spaces_incl, in_rev, drop_spaces_incl in Hx. exact Hx.
Qed.

Lemma fix_loop_escapes (s : bytes) : forall inString escapeNext,
  escapes_added s (fix_loop inString escapeNext s).
Proof.
  induction s as [|c s IH]; intros inString escapeNext; cbn [fix_loop]; [constructor|].
  destruct escapeNext; [constructor; apply IH|].
  destruct (Ascii.eqb c backslash); [constructor; apply IH|].
  destruct (Ascii.eqb c quote) eqn:Eq; [|constructor; apply IH].
  apply Ascii.eqb_eq in Eq. subst c.
  destruct (negb inString); [constructor; apply IH|].
  destruct (looks_like_end (trim_left_ws (firstn 19 s))); [constructor; apply IH|].
  constructor. apply IH.
Qed.

End JsonMore.

(** What [extractJSONArray] returns starts with [[] and ends with []],
    and all its bytes occur in the text it was given (the code-fence
    stripping and trimming only remove bytes). *)
Theorem extractJSONArray_bracketed (text r : bytes) :
  Json.extractJSONArray text = Some r ->
  exists m, r = (Json.bracket_open :: m ++ [Json.bracket_close])%list /\ incl r text.
Proof.
  unfold Json.extractJSONArray. intros H.
  destruct (find_json_array_shape _ _ H) as [m [Hr Hin]].
  exists m. split; [exact Hr|].
  intros x Hx. apply Hin, TrimSpace_incl, strip_block_end_incl, strip_block_start_incl in Hx.
  exact Hx.
Qed.

Lemma extractJSONArray_bracketed_witness :
  Json.extractJSONArray (Json.jq "Articles: [{'title':'A'}] (2 found)")
    = Some (Json.jq "[{'title':'A'}]") /\
  exists m, Json.jq "[{'title':'A'}]" = (Json.bracket_open :: m ++ [Json.bracket_close])%list
    /\ incl (Json.jq "[{'title':'A'}]") (Json.jq "Articles: [{'title':'A'}] (2 found)").
Proof.
  assert (H : Json.extractJSONArray (Json.jq "Articles: [{'title':'A'}] (2 found)")
                = Some (Json.jq "[{'title':'A'}]")) by (vm_compute; reflexivity).
  split; [exact H|]. exact (extractJSONArray_bracketed _ _ H).
Defined.

(** A response without an opening [[] or without a closing []] gives
    [no JSON array found in response]. *)
Theorem ExtractArticlesJSON_no_brackets (text : bytes) :
  ~ In Json.bracket_open text \/ ~ In Json.bracket_close text ->
  Extract.ExtractArticlesJSON text = inl Extract.NoJSONArray.
Proof.
  intros Hno. unfold Extract.ExtractArticlesJSON.
  destruct (Json.extractJSONArray text) as [r|] eqn:E; [|reflexivity].
  exfalso. destruct (find_json_array_shape _ _ E) as [m [Hr Hin]].
  assert (Hin' : incl r text).
  { intros x Hx. apply Hin, TrimSpace_incl, strip_block_end_incl, strip_block_start_incl in Hx.
    exact Hx. }
  destruct Hno as [Hno|Hno]; apply Hno, Hin'; rewrite Hr.
  - left. reflexivity.
  - right. apply in_or_app. right. left. reflexivity.
Qed.

Lemma ExtractArticlesJSON_no_brackets_witness :
  Extract.ExtractArticlesJSON (Json.jq "I could not find any articles today.")
    = inl Extract.NoJSONArray.
Proof.
  apply ExtractArticlesJSON_no_brackets. left. vm_compute. intuition discriminate.
Defined.

(** [fixMalformedJSON] never drops or changes a byte: its output is its
    input with a backslash inserted before some double quotes. *)
Theorem fixMalformedJSON_only_escapes (s : bytes) :
  JsonProps.escapes_added s (Json.fixMalformedJSON s).
Proof. apply fix_loop_escapes. Qed.

(* ------------------------------------------------------------------ *)
(** ** Stopping a job and cancelling a run (srv/api.go) *)

Section ServerFacts.
Import Server.
Local Open Scope list_scope.

Lemma in_map_fixed {A} (f : A -> A) (l : list A) (x : A) :
  In x l -> f x = x -> In x (map f l).
Proof. intros Hin Hfx. rewrite <- Hfx. apply in_map. exact Hin. Qed.

Lemma NoDup_key_eq {A} (key : A -> Z) (l : list A) (x y : A) :
  NoDup (map key l) -> In x l -> In y l -> key x = key y -> x = y.
Proof.
  induction l as [|a l IH]; intros Hnd Hx Hy Hk; [destruct Hx|].
  cbn [map] in Hnd. inversion Hnd as [|? ? Hnin Hnd']; subst.
  destruct Hx as [<-|Hx], Hy as [<-|Hy]; [reflexivity| | |exact (IH Hnd' Hx Hy Hk)].
  - exfalso. apply Hnin. rewrite Hk. apply in_map. exact Hy.
  - exfalso. apply Hnin. rewrite <- Hk. apply in_map. exact Hx.
Qed.

Lemma find_key_unique {A} (key : A -> Z) (l : list A) (x : A) :
  NoDup (map key l) -> In x l -> find (fun y => Z.eqb (key y) (key x)) l = Some x.
Proof.
  intros Hnd Hx.
  destruct (find (fun y => Z.eqb (key y) (key x)) l) as [y|] eqn:E.
  - apply find_some in E as [Hy Hk]. apply Z.eqb_eq in Hk.
    f_equal. exact (NoDup_key_eq key l y x Hnd Hy Hx Hk).
  - exfalso. pose proof (find_none _ _ E x Hx) as H. cbn beta in H.
    rewrite Z.eqb_refl in H. discriminate.
Qed.

Lemma GetJobRun_some (d : DB) (id uid : Z) (run : JobRun) :
  GetJobRun d id uid = Some run ->
  In run (db_job_runs d) /\ run_ID run = id /\
  exists jo, In jo (db_jobs d) /\ job_ID jo = run_JobID run /\ job_UserID jo = uid.
Proof.
  unfold GetJobRun. intros H. apply find_some in H as [Hin H].
  apply andb_prop in H as [Hid Hex]. apply Z.eqb_eq in Hid.
  apply existsb_exists in Hex as [jo [Hjo Hk]].
  apply andb_prop in Hk as [H1 H2]. apply Z.eqb_eq in H1. apply Z.eqb_eq in H2.
  split; [exact Hin|]. split; [exact Hid|]. exists jo. repeat split; assumption.
Qed.

Lemma GetJob_some (d : DB) (id uid : Z) (j : Job) :
  GetJob d id uid = Some j -> In j (db_jobs d) /\ job_ID j = id /\ job_UserID j = uid.
Proof.
  unfold GetJob. intros H. apply find_some in H as [Hin H].
  apply andb_prop in H as [H1 H2]. apply Z.eqb_eq in H1. apply Z.eqb_eq in H2.
  repeat split; assumption.
Qed.

(** The store after a successful [CancelJobRun] and the conditional job update. *)
Lemma cancel_store_shape (d : DB) (id jobID : Z) :
  let d1 := CancelJobRun d id in
  let d2 := match GetJobByID d1 jobID with
            | Some job =>
              if String.eqb (job_Status job) "running" then
                UpdateJobStatus d1 jobID "cancelled" (Some (db_now d1)) (job_NextRunAt job)
              else d1
            | None => d1
            end in
  db_job_runs d2 = db_job_runs d1 /\
  (db_jobs d2 = db_jobs d \/
   exists st l n, d2 = UpdateJobStatus d1 jobID st l n).
Proof.
  cbv zeta. destruct (GetJobByID (CancelJobRun d id) jobID) as [job|];
    [destruct (String.eqb (job_Status job) "running")|].
  - split; [reflexivity|]. right. do 3 eexists. reflexivity.
  - split; [reflexivity|]. left. reflexivity.
  - split; [reflexivity|]. left. reflexivity.
Qed.

End ServerFacts.

(** [handleCancelRun], whatever it is asked, changes no run whose job
    belongs to another user and no job of another user (job and run ids
    being primary keys). *)
Theorem handleCancelRun_other_users_untouched (d : Runner.DB) (userID : Z) (idStr : string)
    (cancel_ok : bool) :
  Server.keys_unique d ->
  let d' := fst (fst (Server.handleCancelRun d (Some userID) idStr cancel_ok)) in
  (forall r, In r (db_job_runs d) ->
     (forall j, In j (db_jobs d) -> job_ID j = run_JobID r -> job_UserID j <> userID) ->
     In r (db_job_runs d')) /\
  (forall j, In j (db_jobs d) -> job_UserID j <> userID -> In j (db_jobs d')).
Proof.
  intros [Hjobs Hruns]. cbv zeta. unfold Server.handleCancelRun.
  destruct (Shelley.parse_int64 (list_ascii_of_string idStr)) as [id|];
    [|split; intros; assumption].
  destruct (Server.GetJobRun d id userID) as [run|] eqn:Hg; [|split; intros; assumption].
  destruct (negb (String.eqb (run_Status run) "running")); [split; intros; assumption|].
  destruct cancel_ok; cbn [negb]; [|split; intros; assumption].
  destruct (GetJobRun_some _ _ _ _ Hg) as (Hrun & Hid & jo & Hjo & Hjid & Hju).
  destruct (cancel_store_shape d id (run_JobID run)) as [Hr2 Hj2]. cbv zeta in Hr2, Hj2.
  cbn [fst]. split.
  - intros r Hr Hother. rewrite Hr2. unfold Server.CancelJobRun. cbn [db_job_runs set_job_runs].
    apply in_map_fixed; [exact Hr|].
    destruct (Z.eqb (run_ID r) id) eqn:E; [|reflexivity].
    exfalso. apply Z.eqb_eq in E.
    assert (r = run) as -> by (apply (NoDup_key_eq run_ID (db_job_runs d)); congruence).
    exact (Hother jo Hjo Hjid Hju).
  - intros j Hj Hu. destruct Hj2 as [Hj2|(st & l & n & Hj2)].
    + rewrite Hj2. exact Hj.
    + rewrite Hj2. unfold UpdateJobStatus. cbn [db_jobs set_jobs].
      apply in_map_fixed; [exact Hj|].
      destruct (Z.eqb (job_ID j) (run_JobID run)) eqn:E; [|reflexivity].
      exfalso. apply Z.eqb_eq in E.
      assert (j = jo) as -> by (apply (NoDup_key_eq job_ID (db_jobs d)); congruence).
      exact (Hu Hju).
Qed.

Lemma handleCancelRun_other_users_untouched_witness :
  Server.keys_unique RunnerSamples.sample_db /\
  In RunnerSamples.sample_run
     (db_job_runs (fst (fst (Server.handleCancelRun RunnerSamples.sample_db (Some 2) "3" true)))).
Proof.
  assert (Hk : Server.keys_unique RunnerSamples.sample_db)
    by (split; repeat constructor; simpl; tauto).
  split; [exact Hk|].
  apply (proj1 (handleCancelRun_other_users_untouched RunnerSamples.sample_db 2 "3" true Hk)).
  - left. reflexivity.
  - intros j [<-|[]] _. discriminate.
Defined.

(** Cancelling a running run of one's own: the answer is "cancelled", the
    job's service is stopped, the run is recorded "cancelled" with the
    message "Cancelled by user" and the current time as completion time,
    and the job keeps its [next_run_at]; its status becomes "cancelled"
    if it was "running", else stays. *)
Theorem handleCancelRun_cancels_own_run (d : Runner.DB) (userID id : Z) (idStr : string)
    (run : Runner.JobRun) :
  Server.keys_unique d ->
  Shelley.parse_int64 (list_ascii_of_string idStr) = Some id ->
  Server.GetJobRun d id userID = Some run ->
  run_Status run = "running" ->
  let '(d', cmds, resp) := Server.handleCancelRun d (Some userID) idStr true in
  resp = Server.RespOK "cancelled" /\
  cmds = [Server.systemctl_stop (run_JobID run)] /\
  GetRun d' id = Some (mkJobRun id (run_JobID run) "cancelled" (Some "Cancelled by user")
                        (run_ArticlesSaved run) (run_DuplicatesSkipped run)
                        (run_StartedAt run) (Some (db_now d)) (run_LogPath run)) /\
  (forall j, GetJobByID d (run_JobID run) = Some j ->
   exists j', GetJobByID d' (run_JobID run) = Some j' /\
     job_NextRunAt j' = job_NextRunAt j /\
     job_Status j' = (if String.eqb (job_Status j) "running" then "cancelled" else job_Status j)).
Proof.
  intros [Hjobs Hruns] Hp Hg Hs. unfold Server.handleCancelRun. rewrite Hp, Hg, Hs.
  rewrite String.eqb_refl. cbn [negb].
  destruct (GetJobRun_some _ _ _ _ Hg) as (Hrun & Hid & jo & Hjo & Hjid & Hju).
  assert (HR : GetRun d id = Some run)
    by (unfold GetRun; rewrite <- Hid; apply find_key_unique; assumption).
  assert (HR1 : GetRun (Server.CancelJobRun d id) id =
                Some (mkJobRun id (run_JobID run) "cancelled" (Some "Cancelled by user")
                        (run_ArticlesSaved run) (run_DuplicatesSkipped run)
                        (run_StartedAt run) (Some (db_now d)) (run_LogPath run))).
  { unfold GetRun, Server.CancelJobRun. cbn [db_job_runs set_job_runs db_now].
    rewrite find_map_key.
    - unfold GetRun in HR. rewrite HR. cbn [option_map]. rewrite Hid, Z.eqb_refl. reflexivity.
    - intros x. destruct (Z.eqb (run_ID x) id) eqn:E; simpl; rewrite ?E; reflexivity. }
  assert (HJ1 : forall k, GetJobByID (Server.CancelJobRun d id) k = GetJobByID d k)
    by reflexivity.
  rewrite HJ1.
  destruct (GetJobByID d (run_JobID run)) as [job|] eqn:Hj.
  - destruct (String.eqb (job_Status job) "running") eqn:Hjs.
    + split; [reflexivity|]. split; [reflexivity|].
      split; [exact HR1|].
      intros j Hj'. injection Hj' as <-.
      rewrite (GetJobByID_UpdateJobStatus _ _ _ _ _ _ (eq_trans (HJ1 _) Hj)).
      eexists. split; [reflexivity|]. split; [reflexivity|]. rewrite Hjs. reflexivity.
    + split; [reflexivity|]. split; [reflexivity|].
      split; [exact HR1|].
      intros j Hj'. injection Hj' as <-. exists job.
      split; [rewrite HJ1; exact Hj|]. split; [reflexivity|]. rewrite Hjs. reflexivity.
  - split; [reflexivity|]. split; [reflexivity|]. split; [exact HR1|].
    intros j Hj'. discriminate.
Qed.

Lemma handleCancelRun_cancels_own_run_witness :
  let '(d', cmds, resp) := Server.handleCancelRun RunnerSamples.sample_db (Some 1) "3" true in
  resp = Server.RespOK "cancelled" /\
  cmds = [Server.systemctl_stop 7] /\
  GetRun d' 3 = Some (mkJobRun 3 7 "cancelled" (Some "Cancelled by user") None None 1000
                        (Some 5000) "logs/runs/run_3.log") /\
  (forall j, GetJobByID RunnerSamples.sample_db 7 = Some j ->
   exists j', GetJobByID d' 7 = Some j' /\ job_NextRunAt j' = job_NextRunAt j /\
     job_Status j' = (if String.eqb (job_Status j) "running" then "cancelled" else job_Status j)).
Proof.
  refine (handleCancelRun_cancels_own_run RunnerSamples.sample_db 1 3 "3" RunnerSamples.sample_run
            _ eq_refl eq_refl eq_refl).
  split; repeat constructor; simpl; tauto.
Defined.

(** Stopping a running job of one's own: the answer is "stopped", the
    job's service is stopped, the job gets status "stopped" and
    [last_run_at] now and keeps its [next_run_at]; no other job and no
    run changes. *)
Theorem handleStopJob_stops_own_running_job (d : Runner.DB) (userID id : Z) (idStr : string)
    (job : Runner.Job) :
  Shelley.parse_int64 (list_ascii_of_string idStr) = Some id ->
  Server.GetJob d id userID = Some job ->
  job_Status job = "running" ->
  NoDup (map job_ID (db_jobs d)) ->
  let '(d', cmds, resp) := Server.handleStopJob d (Some userID) idStr in
  resp = Server.RespOK "stopped" /\
  cmds = [Server.systemctl_stop id] /\
  GetJobByID d' id =
    Some (mkJob id (job_UserID job) (job_Name job) (job_Frequency job) (job_IsOneTime job)
            (job_IsActive job) "stopped" (Some (db_now d)) (job_NextRunAt job)
            (job_CurrentConversationID job) (db_now d)) /\
  (forall j, In j (db_jobs d) -> job_ID j <> id -> In j (db_jobs d')) /\
  db_job_runs d' = db_job_runs d.
Proof.
  intros Hp Hg Hs Hnd. unfold Server.handleStopJob. rewrite Hp, Hg, Hs.
  rewrite String.eqb_refl. cbn [negb].
  destruct (GetJob_some _ _ _ _ Hg) as (Hin & Hid & Hu). rewrite Hid.
  assert (HJ : GetJobByID d id = Some job)
    by (unfold GetJobByID; rewrite <- Hid; apply find_key_unique; assumption).
  split; [reflexivity|]. split; [reflexivity|].
  split; [rewrite (GetJobByID_UpdateJobStatus _ _ _ _ _ _ HJ), Hid; reflexivity|].
  split; [|reflexivity].
  intros j Hj Hne. unfold UpdateJobStatus. cbn [db_jobs set_jobs].
  apply in_map_fixed; [exact Hj|].
  apply Z.eqb_neq in Hne. rewrite Hne. reflexivity.
Qed.

Lemma handleStopJob_stops_own_running_job_witness :
  let '(d', cmds, resp) := Server.handleStopJob RunnerSamples.sample_db (Some 1) "7" in
  resp = Server.RespOK "stopped" /\
  GetJobByID d' 7 =
    Some (mkJob 7 1 "Tech" "daily" 0 1 "stopped" (Some 5000) (Some 90000) (Some "conv-1") 5000).
Proof.
  pose proof (handleStopJob_stops_own_running_job RunnerSamples.sample_db 1 7 "7"
                RunnerSamples.sample_job eq_refl eq_refl eq_refl
                ltac:(repeat constructor; simpl; tauto)) as H.
  destruct (Server.handleStopJob RunnerSamples.sample_db (Some 1) "7") as [[d' cmds] resp].
  destruct H as (Hr & _ & Hj & _). split; [exact Hr | exact Hj].
Defined.

(** [handleStopJob] changes only the job it was asked to stop, and only
    when that job is the caller's and "running"; in every other case the
    store is unchanged and no command runs.  Runs are never touched. *)
Theorem handleStopJob_changes_only_own_running_job (d : Runner.DB) (user : option Z)
    (idStr : string) :
  let '(d', cmds, _) := Server.handleStopJob d user idStr in
  db_job_runs d' = db_job_runs d /\
  ((d' = d /\ cmds = []) \/
   exists userID id job, user = Some userID /\
     Shelley.parse_int64 (list_ascii_of_string idStr) = Some id /\
     Server.GetJob d id userID = Some job /\ job_Status job = "running" /\
     job_UserID job = userID /\
     forall j, In j (db_jobs d) -> job_ID j <> id -> In j (db_jobs d')).
Proof.
  unfold Server.handleStopJob.
  destruct user as [userID|]; [|split; [reflexivity | left; split; reflexivity]].
  destruct (Shelley.parse_int64 (list_ascii_of_string idStr)) as [id|] eqn:Hp;
    [|split; [reflexivity | left; split; reflexivity]].
  destruct (Server.GetJob d id userID) as [job|] eqn:Hg;
    [|split; [reflexivity | left; split; reflexivity]].
  destruct (String.eqb (job_Status job) "running") eqn:Hs;
    cbn [negb]; [|split; [reflexivity | left; split; reflexivity]].
  split; [reflexivity|]. right.
  apply String.eqb_eq in Hs.
  destruct (GetJob_some _ _ _ _ Hg) as (Hin & Hid & Hu).
  exists userID, id, job. repeat split; try assumption.
  intros j Hj Hne. unfold UpdateJobStatus. cbn [db_jobs set_jobs].
  apply in_map_fixed; [exact Hj|]. rewrite Hid.
  apply Z.eqb_neq in Hne. rewrite Hne. reflexivity.
Qed.

(** IsComplete without a [working] field and without any message of type
    "agent": the conversation is not complete. *)
Theorem IsComplete_no_agent_message (c : Shelley.Conversation) :
  Shelley.conv_Working c = None ->
  Forall ShelleySamples.not_agent (Shelley.conv_Messages c) ->
  Shelley.IsComplete c = false.
Proof.
  intros Hw Hms. unfold Shelley.IsComplete. rewrite Hw.
  rewrite <- (app_nil_r (rev (Shelley.conv_Messages c))).
  rewrite last_agent_end_of_turn_skip by (apply Forall_rev; exact Hms).
  reflexivity.
Qed.

Lemma IsComplete_no_agent_message_witness :
  Shelley.IsComplete
    (ShelleySamples.conversation [ShelleySamples.user_prompt; ShelleySamples.user_late]) = false.
Proof.
  apply IsComplete_no_agent_message; [reflexivity|].
  repeat constructor; unfold ShelleySamples.not_agent; cbv; discriminate.
Defined.

(** Unless the context is cancelled, [Resume] of a "running" run whose
    job exists finalizes that run, whatever the agent does: the run is no
    longer "running", it gets a completion time, and [Resume] returns an
    error exactly when the run is recorded as "failed". *)
Theorem Resume_finalizes_running_run (env : Env) (w : World) (runID : Z) (run : JobRun)
    (job : Job) :
  GetRun (w_db w) runID = Some run ->
  run_Status run = "running" ->
  GetJobByID (w_db w) (run_JobID run) = Some job ->
  w_ctx_err w = false ->
  ~ In EvCtxDone (env_poll env) ->
  exists r, GetRun (w_db (fst (Resume env w runID))) runID = Some r
    /\ run_JobID r = run_JobID run
    /\ run_Status r <> "running"
    /\ run_CompletedAt r = Some (db_now (w_db w))
    /\ (snd (Resume env w runID) = None <-> run_Status r <> "failed").
Proof.
  intros Hr Hs Hj Hctx Hin.
  assert (Hid : run_ID run = runID)
    by (unfold GetRun in Hr; apply find_some in Hr as [_ Hid]; apply Z.eqb_eq in Hid; exact Hid).
  unfold Resume. rewrite Hr, Hs, String.eqb_refl. cbn [negb]. rewrite Hj. cbv zeta.
  destruct (executeJob_uncancelled env w job Hin) as (Hc & Hruns & Hnow).
  destruct (executeJob env w job) as [w1 result].
  cbn [fst] in Hc, Hruns, Hnow. rewrite Hctx in Hc. rewrite Hc.
  assert (Hr1 : GetRun (w_db w1) runID = Some run) by (unfold GetRun; rewrite Hruns; exact Hr).
  rewrite Hid.
  destruct (finalizeRun_run_row w1 job runID result
              (GetPreferences (w_db w) (job_UserID job)) run Hr1 Hs) as [em Hrow].
  cbn [fst snd]. rewrite Hrow. eexists. split; [reflexivity|].
  cbn [run_JobID run_Status run_CompletedAt]. split; [reflexivity|].
  rewrite Hnow.
  split; [destruct (Error result); [|destruct (Z.eqb (ArticlesSaved result) 0)]; discriminate|].
  split; [reflexivity|].
  destruct (Error result); [|destruct (Z.eqb (ArticlesSaved result) 0)];
    split; intros H; try discriminate; try reflexivity; exfalso; apply H; reflexivity.
Qed.

Lemma Resume_finalizes_running_run_witness :
  exists r,
  GetRun (w_db (fst (Resume (mkEnv 1500 None true (fun _ => None) (inr "conv-2") [EvTick None]
                               RunnerSamples.sample_fetch_env (fun _ => true) "t")
                       RunnerSamples.sample_world 3))) 3 = Some r
  /\ run_Status r = "failed"
  /\ snd (Resume (mkEnv 1500 None true (fun _ => None) (inr "conv-2") [EvTick None]
                   RunnerSamples.sample_fetch_env (fun _ => true) "t")
           RunnerSamples.sample_world 3) = Some (ErrTimedOut 1500).
Proof.
  destruct (Resume_finalizes_running_run
              (mkEnv 1500 None true (fun _ => None) (inr "conv-2") [EvTick None]
                 RunnerSamples.sample_fetch_env (fun _ => true) "t")
              RunnerSamples.sample_world 3 RunnerSamples.sample_run RunnerSamples.sample_job
              eq_refl eq_refl eq_refl eq_refl
              (fun H => match H with
                        | or_introl e => ltac:(discriminate e)
                        | or_intror f => f end))
    as (r & Hr & _ & _ & _ & _).
  exists r. split; [exact Hr|].
  split; [|vm_compute; reflexivity].
  vm_compute in Hr. injection Hr as <-. reflexivity.
Defined.
